(* ===== verification/_CoqProject ===== *)
-Q . S2P
Prelude.v
PyBase.v
Html.v
Regex.v
Extract.v
Json.v
Async.v
Product.v
Category.v
Requests.v
Conservation.v
Listing.v
Disk.v
Orchestrator.v
Logging.v
Failure.v
