(* ===== verification/Prelude.v ===== *)
(** * A verification development of the Eldorado review crawler

    The program ([src/parsers/eldorado_parser.py], class [EldoradoParser])
    crawls a shop catalogue: [get_url_categories] (run by [__init__])
    collects the category paths of the catalogue page with the regular
    expression [/c/([\w.-]+)/]; [run_parse] runs, strictly one after the
    other and skipping the first three of the set, one [asyncio.run] of
    [_queue_parse_category] per category; that coroutine reads the page
    count of the category, creates [reviews/<category name>] and gathers one
    [_parse_category] task per listing page; each of those fetches its page
    and awaits, one product after the other, [_queue_parse_comments], which
    reads the product's review-page count and name, gathers one
    [_parse_comments] task per review page, and finally writes the shared
    buffer [self.comments] to [<dir>/<product>.json] when it is not empty and
    resets it.  The review-page tasks append to [self.comments], an
    attribute of the one parser object shared by every task of the run.

    ** Files
    - [Prelude] (this file): the libraries loaded (stdpp), the scope
      [crawl_scope], the hint database [crawl], the tactics and the list
      lemmas the other files share.
    - [PyBase]: the Python built-ins the code relies on, with their
      semantics written out: the exceptions as values of [exn], computations
      that may raise as [result], [str.strip], [int(str)], [str(int)],
      negative list indexing, [range], [str.replace].  Round trip
      [int(str(n)) = n] and the behaviour of [int] on whitespace, signs and
      malformed text are proved there.
    - [Html]: the BeautifulSoup queries the code uses ([find], [find_all],
      [.text], [.get]) over a parsed document tree.  Parsing HTML text is the
      library's and is not modelled: a fetched body is its tree.
    - [Regex]: the search of [/c/([\w.-]+)/] in an [href] as a matcher,
      proved equivalent to the declarative meaning of the pattern (leftmost
      match, greedy class run).
    - [Extract]: the pure extraction steps of the crawler (category links,
      review records, page counts, product and category names).
    - [Json]: the text of a product file: [json.dump] with
      [ensure_ascii=False] and [indent=4] (the escapes of
      [py_encode_basestring], the indentation of [_make_iterencode]), the
      dict of a record with its keys in order, and [json.loads] as the
      reader of the files, by recursive descent with fuel.
    - [Async]: asyncio as the code uses it: a task body is a [proc] (its
      awaits [session.get] and [asyncio.sleep], its synchronous actions on
      the shared state, [gather] of created tasks); a configuration is the
      shared state with the task list; [step] is the cooperative scheduler
      (a task runs from one await to the next without interruption).
      Three invariants of [step] hold for every schedule: the requests a
      task awaits ([reqs_ok]), the way its actions move the state
      ([acts_ok]), and that a task which raises along every answer never
      returns normally ([must_raise]).
    - [Product]: the parser's shared state, [_parse_comments] and
      [_queue_parse_comments] as procs, and the crawl of one product as a
      [phase] inside any task whose other tasks cannot step ([frame_ok]).
    - [Category]: [_parse_category] and [_queue_parse_category], and the
      interleavings of two listing tasks of one category.
    - [Requests]: the requests the crawl awaits: [Async.reqs_ok] (every
      request a coroutine can await satisfies a predicate, kept by every
      step of the scheduler) instantiated with "to the shop, with
      [self.headers]", and [paced] (every request awaited right after a
      sleep of its coroutine).
    - [Conservation]: the relation [kept] (a state only adds to an
      earlier one: writes, directories, log records, and every collected
      review) and the lemmas showing that every action of the crawl's
      coroutines moves the state along any relation the crawl's four
      actions respect ([Async.acts_ok]).
    - [Listing]: the specification of section 4.4 ([ListingSpec]: the
      products crawled one after another; one exclusive buffer per
      product), the abstraction function [product_of] from the network's
      answers to products, and the refinement of the specification by a
      listing task and by a category with one listing page.
    - [Disk]: the directory tree the writes of a run leave ([open] in mode
      ['w'] replaces a file's text), and what a listing page leaves on
      it.
    - [Orchestrator]: [__init__], [get_url_categories], [asyncio.run] (the
      loop runs until the main task has finished, then the tasks still
      pending are cancelled), [run_parse] over a given enumeration of the set
      of categories, and the module's entry point.
    - [Logging]: the handlers and [logging.basicConfig] (lines 10-17), the
      level the root logger keeps, and the records the handlers receive.
    - [Failure]: a product page that cannot be fetched: the listing
      task awaiting it cannot return normally ([Async.must_raise]), so
      the category raises in every schedule and [run_parse] ends.

    ** What the theorems show (claims C1-C26, by importance)
    - The buffer ([Product], [Category], [Listing], C1-C5): a product
      crawled alone writes to [<dir>/<name>.json] the previous buffer
      followed by exactly the reviews of its pages [1..n], in some order,
      only when there are some, and leaves the buffer empty (C1); two
      listing tasks of one category can mix their products' reviews: an
      explicit schedule puts product B's review in product A's file and
      writes no file for B (C2, the code's shared [self.comments]); the
      products of one listing task are crawled one after another, so a
      listing task refines [ListingSpec.crawl], whose step on the buffer
      ([ListingSpec.buffer_step]: merge, write when not empty, empty the
      buffer) is written from section 4.4, not from the model (C3); from an
      empty buffer, a listing task or a category with one listing page
      writes one file per product with exactly its reviews (C4, C5).  The
      phase of a product is proved by induction on [step]; C3-C5 compose
      one phase per product.
    - Fan-out ([Product], [Category], C6-C8, C12): a product crawled alone
      can always run to its end; after their page answers, a product
      creates exactly [n] page tasks and a category exactly [n] listing
      tasks, the [j]-th for page [j + 1]; a product never has more than
      [1 + n] tasks (no cap on the fan-out).
    - The run ([Orchestrator], [Logging], C9-C11): an existing
      [reviews/<name>] makes [os.makedirs] raise and the exception ends
      [run_parse] without crawling any later category (C9); [run_parse]
      skips the first three categories of the enumeration and starts with
      the fourth, and crawls nothing with at most three (C10); the
      [Run parse] / [End parse] records never reach [Log.log] or the
      console, only the warnings do (C11).
    - Extraction ([Extract], C13-C17): the review-page count is [int] of the
      last anchor, its [ValueError] not caught, with the fall-back to 1 only
      for a missing block or anchor; the listing-page count has no
      fall-back; the records of a page are exactly those of its containers
      with the three fields, each field from its element (C16); the
      category paths are the regex matches of the links.
    - [Regex] (C18): the matcher returns the leftmost match of the pattern
      and nothing exactly when there is none.
    - [Product] (C19): the page tasks of a product fetch the product URL
      and then [<url>/page/2] to [<url>/page/<n>], pairwise different.
    - The requests ([Requests], C20, C21): in every schedule of a
      category crawl every awaited request carries [self.headers] and goes
      to [https://www.eldorado.ru] (an invariant of [step], by rule
      induction); every request after the category page is awaited right
      after a sleep of at least 100 ms of its own coroutine, the category
      page with none (section 4.1 of the specification asks for a delay
      before every request).
    - The files ([Json], [Disk], C22-C24): [json.load] of what [json.dump]
      writes gives back the records, whatever characters they hold (C22,
      from the round trip of every value of the encoder, nested to any
      depth, by induction through the nested lists); a listing page whose
      products have different file names leaves for each product with
      reviews a file whose text is the dump of exactly its reviews (C23,
      composing the lemmas of C5 with the files); two products whose names
      differ by [/] and [_] share a file and the second replaces the first
      one's reviews (C24).
    - The state and the errors ([Conservation], [Failure], C25, C26):
      between any two configurations of any schedule of a category crawl
      nothing written is undone and no collected review is dropped, the
      reset of the buffer following its write with no await in between
      (C25, an invariant of [step] by rule induction); a product page whose
      fetch raises makes its category raise in every schedule, so
      [run_parse] ends after that category's [Run parse] record with only
      warnings after it (C26; the specification asks for the product to be
      skipped).
    The scheduler lemmas of [Async] (well-formed task trees, ownership,
    progress, a measure decreasing at every step, completeness of the
    executable scheduler) are properties of the model of asyncio, not of
    the program; they carry C4, C6, C10 and C26 (a task returned normally
    only once all the tasks it created have; [asyncio.run] with fuel
    [measure] returns the main task's result).

    ** Bounds and fuel
    Decimal printing uses the number of binary digits as fuel, proved
    enough.  Every step of [step] decreases [measure] (the steps the tasks
    can still take along the network's answers), so every run is finite;
    [run_until_complete] is given [measure] as fuel and is proved to stop
    with the main task finished.  It runs the first task that can step;
    CPython's ready queue is one of the orders [step] allows, and the
    theorems stated over [step] hold for all of them.  [run_sched] follows
    an explicit list of task indices and is proved sound for [step].  The
    JSON reader takes fuel [1 + length] of its text; each value and each
    item of the encoder's output is at least one character ([jsize_length]),
    which is enough.

    ** Not modelled
    HTTP transport, HTML parsing, the encoding of text to bytes, the
    rendering of log lines and timing.  A fetch is an oracle from request
    to response or exception that always answers: a fetch that hangs, which
    blocks its task forever in the code (section 5 of the specification),
    cannot be expressed, so every run of the model is finite by
    construction and no termination theorem about the program is claimed.
    [await session.get(...)] and [await response.text()] are one
    suspension point (the task changes no shared state between them), and
    entering and leaving [ClientSession] is not modelled.  A body is a
    parsed tree; text is 8-bit (Rocq's [string]; the UTF-8 encoding of
    [open(..., encoding='utf-8')] and code points above [0xff] are not
    modelled), and [str.strip], [int] and the regex class [\w] treat only
    ASCII characters as whitespace or word characters, whereas Python also
    strips [0x85] and [0xa0].  [open()] and [json.dump] cannot fail (an
    [OSError], for instance for a file name that is too long, is not
    modelled), and [os.makedirs] fails only when the directory is already
    known to the run (a path that exists as a file is not modelled).  The
    logger's calls are a list of (level, message) pairs of which
    [Logging.emitted] are those the handlers receive (the timestamp and
    format of a line are not modelled), and [asyncio.sleep] is a
    suspension point whose duration is kept in the proc but does not
    elapse (no theorem depends on time; C21 looks only at the durations
    written in the code).  The refinement theorems assume every product
    page and review page answers; a failing product aborts its listing
    task, its category and the run (C26).  The cancellation of pending
    tasks by [asyncio.run] runs no code of the program (its [async with]
    blocks only close sessions), so it is modelled by dropping them. *)

From stdpp Require Export base list gmap strings.
From Stdlib Require Export Ascii ZArith Lia.

#[export] Set Warnings "-clear-no-such-hyp".

Declare Scope crawl_scope.
Delimit Scope crawl_scope with crawl.

Create HintDb crawl discriminated.
Create Rewrite HintDb crawl_rw.

(** [invc H]: invert and clean up. *)
Ltac invc H := inversion H; subst; clear H.

(** ** Permutations of concatenations *)

Section ListLemmas.
Context {A : Type}.

Lemma concat_perm (ls ls' : list (list A)) :
  ls ≡ₚ ls' → concat ls ≡ₚ concat ls'.
Proof.
  induction 1; simpl; auto.
  - by apply Permutation_app_head.
  - by rewrite !app_assoc, (Permutation_app_comm y x).
  - by etrans.
Qed.

Lemma concat_snoc (ls : list (list A)) (l : list A) :
  concat (ls ++ [l]) = concat ls ++ l.
Proof. by rewrite concat_app; simpl; rewrite app_nil_r. Qed.

Lemma perm_app_middle (l1 l2 l3 : list A) :
  l1 ++ l2 ++ l3 ≡ₚ l2 ++ l1 ++ l3.
Proof. apply Permutation_app_swap_app. Qed.

Lemma insert_S_cons (x y : A) (l : list A) (j : nat) :
  <[S j := y]> (x :: l) = x :: <[j := y]> l.
Proof. done. Qed.

Lemma insert0_singleton_app (a b : A) (l : list A) : <[0 := a]> [b] ++ l = a :: l.
Proof. done. Qed.

(** Updating the [j]-th input of an [imap] updates its [j]-th output. *)
Lemma imap_insert {B} (f : nat → B → A) (l : list B) (j : nat) (x : B) :
  <[j := f j x]> (imap f l) = imap f (<[j := x]> l).
Proof.
  apply list_eq. intros i. rewrite list_lookup_imap.
  destruct (decide (i = j)) as [->|Hne].
  - destruct (decide (j < length l)).
    + rewrite !list_lookup_insert_eq by (rewrite ?length_imap; done). done.
    + rewrite !list_insert_ge by (rewrite ?length_imap; lia).
      by rewrite list_lookup_imap.
  - by rewrite list_lookup_insert_ne, list_lookup_imap, list_lookup_insert_ne.
Qed.

(** A duplicate-free list of the indices below [n] is a permutation of
    them. *)
Lemma nodup_indices_perm (order : list nat) (n : nat) :
  NoDup order → (∀ j, j ∈ order ↔ j < n) → order ≡ₚ seq 0 n.
Proof.
  intros Hnd Hmem. apply NoDup_Permutation; [done|apply NoDup_seq|].
  intros j. rewrite Hmem, elem_of_seq. lia.
Qed.
End ListLemmas.

#[export] Hint Resolve concat_perm : crawl.
#[export] Hint Rewrite @concat_snoc : crawl_rw.
