(* ===== verification/PyBase.v ===== *)
(** Python built-ins as the crawler uses them: the exceptions it can raise,
    computations that raise as values of [result], [str.strip], [int] on a
    string, [str] of an integer, negative list indexing, [range] and
    [str.replace].  Only ASCII text is modelled (Rocq's [string]); Python's
    whitespace is the ASCII part of [str.isspace]. *)

From S2P Require Import Prelude.

#[local] Open Scope Z_scope.

(** ** Exceptions and raising computations *)

(** The exceptions the crawler's statements can raise: [AttributeError]
    ([None.text], [None.find_all]), [IndexError] ([l[-1]] of an empty list),
    [ValueError] ([int] of a malformed string), [TypeError] ([re.search] of
    [None]), [FileExistsError] ([os.makedirs] of an existing directory) and
    [ClientError] (a transport failure of [session.get] / [requests.get]). *)
Inductive exn :=
| AttributeError
| IndexError
| ValueError
| TypeError
| FileExistsError
| ClientError.

#[export] Instance exn_eq_dec : EqDecision exn.
Proof. solve_decision. Defined.

Inductive result (A : Type) :=
| Ok (a : A)
| Err (e : exn).
Arguments Ok {A} a.
Arguments Err {A} e.

#[export] Instance result_ret : MRet result := λ A a, Ok a.
#[export] Instance result_bind : MBind result :=
  λ A B f r, match r with Ok a => f a | Err e => Err e end.
Arguments result_bind _ _ _ !_ /.
Arguments result_ret _ _ /.

(** [res_inv H] for [H : (x ← m; k) = Ok v]: case on every successful step
    of the computation, discarding the failing ones. *)
Ltac res_inv H :=
  repeat lazymatch type of H with
  | mbind _ ?m = Ok _ =>
      let E := fresh "E" in destruct m eqn:E; simpl in H; [|discriminate H]
  | mret _ = Ok _ => unfold mret, result_ret in H; injection H as H
  | Ok _ = Ok _ => injection H as H
  end.

(** [try: r except (e1, e2): d]: the handler of the listed exceptions. *)
Definition except (handled : list exn) {A} (r : result A) (d : A) : result A :=
  match r with
  | Err e => if decide (e ∈ handled) then Ok d else Err e
  | Ok a => Ok a
  end.

(** An attribute access on [None] raises [AttributeError]. *)
Definition of_opt {A} (e : exn) (o : option A) : result A :=
  match o with Some a => Ok a | None => Err e end.

(** ** Whitespace and [str.strip] *)

(** [c.isspace()] for an ASCII [c]: tab, line feed, vertical tab, form
    feed, carriage return, the separators 0x1c-0x1f and the space. *)
Definition is_space (c : ascii) : bool :=
  let n := nat_of_ascii c in
  ((9 <=? n)%nat && (n <=? 13)%nat) || ((28 <=? n)%nat && (n <=? 32)%nat).

Fixpoint lstrip (s : string) : string :=
  match s with
  | String c s' => if is_space c then lstrip s' else s
  | EmptyString => EmptyString
  end.

Fixpoint srev (s : string) : string :=
  match s with
  | String c s' => srev s' +:+ String c EmptyString
  | EmptyString => EmptyString
  end.

Definition rstrip (s : string) : string := srev (lstrip (srev s)).

(** [s.strip()]. *)
Definition strip (s : string) : string := rstrip (lstrip s).

(** ** [int(s)] for a string [s] (base 10) *)

Definition is_digit (c : ascii) : bool :=
  let n := nat_of_ascii c in (48 <=? n)%nat && (n <=? 57)%nat.

Definition digit_val (c : ascii) : Z := Z.of_nat (nat_of_ascii c) - 48.

(** The digits after the first one: each is a digit or an underscore
    followed by a digit. *)
Fixpoint parse_digits (s : string) (acc : Z) : option Z :=
  match s with
  | EmptyString => Some acc
  | String c s' =>
      if is_digit c then parse_digits s' (acc * 10 + digit_val c)
      else if Ascii.eqb c "_"%char then
        match s' with
        | String d s'' =>
            if is_digit d then parse_digits s'' (acc * 10 + digit_val d) else None
        | EmptyString => None
        end
      else None
  end.

(** The unsigned part: at least one digit, first. *)
Definition parse_unsigned (s : string) : option Z :=
  match s with
  | String c s' => if is_digit c then parse_digits s' (digit_val c) else None
  | EmptyString => None
  end.

(** [int(s)]: surrounding whitespace is ignored, one sign is allowed;
    anything else raises [ValueError]. *)
Definition py_int (s : string) : result Z :=
  let t := strip s in
  let r := match t with
           | String c u =>
               if Ascii.eqb c "-"%char then option_map Z.opp (parse_unsigned u)
               else if Ascii.eqb c "+"%char then parse_unsigned u
               else parse_unsigned t
           | EmptyString => None
           end in
  of_opt ValueError r.

(** ** [str(n)] for an integer [n] *)

Definition digit_char (d : Z) : ascii := ascii_of_nat (Z.to_nat (d + 48)).

(** The decimal digits of [n >= 0] in front of [acc]; [fuel] bounds the
    number of digits. *)
Fixpoint digits_go (fuel : nat) (n : Z) (acc : string) : string :=
  match fuel with
  | O => acc
  | S f =>
      let acc' := String (digit_char (n mod 10)) acc in
      if n <? 10 then acc' else digits_go f (n / 10) acc'
  end.

(** The number of binary digits of [n]: more than its decimal digits. *)
Definition digit_fuel (n : Z) : nat := S (Z.to_nat (Z.log2 n)).

Definition str_nonneg (n : Z) : string := digits_go (digit_fuel n) n EmptyString.

(** [str(n)] / [f'{n}']. *)
Definition py_str_int (n : Z) : string :=
  if n <? 0 then "-" +:+ str_nonneg (- n) else str_nonneg n.

(** [f'{x}'] of an optional string ([None] prints as [None]). *)
Definition py_str_opt (o : option string) : string :=
  match o with Some s => s | None => "None" end.

(** ** Lists *)

(** [l[i]] with Python's negative indices. *)
Definition py_index {A} (l : list A) (i : Z) : result A :=
  let j := if i <? 0 then Z.of_nat (length l) + i else i in
  if j <? 0 then Err IndexError
  else of_opt IndexError (l !! Z.to_nat j).

(** [range(n)]: [0, 1, ..., n - 1], empty when [n <= 0]. *)
Definition py_range (n : Z) : list Z := Z.of_nat <$> seq 0 (Z.to_nat n).

(** [s.replace(a, b)] for one-character [a] and [b]. *)
Fixpoint replace_char (a b : ascii) (s : string) : string :=
  match s with
  | EmptyString => EmptyString
  | String c s' => String (if Ascii.eqb c a then b else c) (replace_char a b s')
  end.

(** Every character of [s] satisfies [P]. *)
Fixpoint chars_all (P : ascii → bool) (s : string) : bool :=
  match s with
  | EmptyString => true
  | String c s' => P c && chars_all P s'
  end.

(** * Lemmas *)

(** ** Strings: reversal, [chars_all], stripping *)

Lemma sapp_nil_l (s : string) : EmptyString +:+ s = s.
Proof. reflexivity. Qed.

Lemma sapp_cons (c : ascii) (s t : string) : String c s +:+ t = String c (s +:+ t).
Proof. reflexivity. Qed.

#[export] Hint Rewrite sapp_nil_l sapp_cons : crawl_rw.

Lemma sapp_nil_r (s : string) : s +:+ EmptyString = s.
Proof. induction s as [|c s IH]; [done|]. rewrite !sapp_cons. congruence. Qed.

Lemma sapp_assoc (s t u : string) : s +:+ t +:+ u = (s +:+ t) +:+ u.
Proof. induction s as [|c s IH]; [done|]. rewrite !sapp_cons. congruence. Qed.

Lemma sapp_length (s t : string) :
  String.length (s +:+ t) = (String.length s + String.length t)%nat.
Proof. induction s as [|c s IH]; [done|]. rewrite sapp_cons. simpl. by rewrite IH. Qed.

Lemma sapp_inv_l (s t1 t2 : string) : s +:+ t1 = s +:+ t2 → t1 = t2.
Proof. induction s as [|c s IH]; [done|]. rewrite !sapp_cons. intros [= H]. auto. Qed.

Lemma srev_app (s t : string) : srev (s +:+ t) = srev t +:+ srev s.
Proof.
  induction s as [|c s IH]; simpl.
  - by rewrite sapp_nil_r.
  - by rewrite IH, sapp_assoc.
Qed.

Lemma srev_involutive (s : string) : srev (srev s) = s.
Proof. induction s as [|c s IH]; simpl; [done|]. by rewrite srev_app, IH. Qed.

Lemma chars_all_app P (s t : string) :
  chars_all P (s +:+ t) = chars_all P s && chars_all P t.
Proof.
  induction s as [|c s IH]; [done|].
  rewrite sapp_cons; simpl. by rewrite IH, andb_assoc.
Qed.

Lemma chars_all_srev P (s : string) : chars_all P (srev s) = chars_all P s.
Proof.
  induction s as [|c s IH]; simpl; [done|].
  rewrite chars_all_app, IH; simpl. by destruct (P c), (chars_all P s).
Qed.

Lemma lstrip_spaces_app (ws t : string) :
  chars_all is_space ws = true → lstrip (ws +:+ t) = lstrip t.
Proof.
  induction ws as [|c ws IH]; [done|]. rewrite sapp_cons; simpl.
  intros [Hc Hws]%andb_prop. rewrite Hc. auto.
Qed.

Lemma lstrip_nonspace_head (c : ascii) (u : string) :
  is_space c = false → lstrip (String c u) = String c u.
Proof. simpl. by intros ->. Qed.

Lemma strip_padded (ws d ws' : string) :
  chars_all is_space ws = true → chars_all is_space ws' = true →
  d ≠ EmptyString → chars_all (λ c, negb (is_space c)) d = true →
  strip (ws +:+ d +:+ ws') = d.
Proof.
  intros Hws Hws' Hne Hd. unfold strip, rstrip.
  assert (Hl : ∀ t u, t ≠ EmptyString → chars_all (λ c, negb (is_space c)) t = true →
                 lstrip (t +:+ u) = t +:+ u).
  { intros [|c t] u Ht Hc; [done|]. rewrite sapp_cons. simpl in Hc.
    apply andb_prop in Hc as [Hc _]. apply negb_true_iff in Hc.
    by apply lstrip_nonspace_head. }
  rewrite lstrip_spaces_app, Hl by done.
  rewrite srev_app, lstrip_spaces_app by (by rewrite chars_all_srev).
  rewrite <- (sapp_nil_r (srev d)), Hl.
  - by rewrite sapp_nil_r, srev_involutive.
  - intros Hd'. apply Hne. rewrite <- (srev_involutive d), Hd'. done.
  - by rewrite chars_all_srev.
Qed.

(** ** Decimal digits *)

Lemma digit_char_spec (d : Z) :
  0 ≤ d < 10 → is_digit (digit_char d) = true ∧ digit_val (digit_char d) = d.
Proof.
  intros Hd. unfold is_digit, digit_val, digit_char.
  rewrite nat_ascii_embedding by lia.
  split; [apply andb_true_intro; split; apply Nat.leb_le|]; lia.
Qed.

Lemma digit_not_space (c : ascii) : is_digit c = true → is_space c = false.
Proof.
  unfold is_digit, is_space. intros [H1 H2]%andb_prop.
  apply Nat.leb_le in H1, H2.
  repeat match goal with |- context [(?a <=? ?b)%nat] =>
    destruct (Nat.leb_spec a b) end; simpl; lia.
Qed.

(** [digits_go] puts digits in front of its accumulator: the result is a
    digit string followed by [acc]. *)
Lemma digits_go_S (f : nat) (n : Z) (acc : string) :
  digits_go (S f) n acc =
  if n <? 10 then String (digit_char (n mod 10)) acc
  else digits_go f (n / 10) (String (digit_char (n mod 10)) acc).
Proof. reflexivity. Qed.

Lemma digits_go_shape (f : nat) (n : Z) (acc : string) :
  0 ≤ n → ∃ d, digits_go (S f) n acc = d +:+ acc ∧ d ≠ EmptyString ∧
               chars_all is_digit d = true.
Proof.
  revert n acc; induction f as [|f IH]; intros n acc Hn; rewrite digits_go_S;
    (destruct (digit_char_spec (n mod 10)) as [Hd _]; [apply Z.mod_pos_bound; lia|]).
  - destruct (n <? 10); eexists (String _ EmptyString); simpl; rewrite Hd; done.
  - destruct (n <? 10).
    + eexists (String _ EmptyString); simpl; rewrite Hd; done.
    + destruct (IH (n / 10) (String (digit_char (n mod 10)) acc)) as (d & -> & Hne & Hall).
      { apply Z.div_pos; lia. }
      exists (d +:+ String (digit_char (n mod 10)) EmptyString).
      rewrite <- sapp_assoc, chars_all_app; simpl; rewrite Hd, Hall.
      split; [done|]. split; [|done]. by destruct d.
Qed.

(** Reading back what [digits_go] wrote: with enough fuel ([n < 2^f]),
    the digits read are the value [n]. *)
Lemma parse_digits_go (f : nat) (n a : Z) (acc : string) :
  0 ≤ n < 2 ^ Z.of_nat f →
  ∃ k, 0 ≤ k ∧ parse_digits (digits_go f n acc) a = parse_digits acc (a * 10 ^ k + n).
Proof.
  revert n a acc; induction f as [|f IH]; intros n a acc Hn.
  - exists 0. simpl in Hn. split; [lia|]. simpl. f_equal. lia.
  - rewrite digits_go_S.
    destruct (digit_char_spec (n mod 10)) as [Hd Hv]; [apply Z.mod_pos_bound; lia|].
    destruct (Z.ltb_spec n 10).
    + exists 1. split; [lia|]. simpl. rewrite Hd, Hv, Z.mod_small by lia; f_equal; lia.
    + destruct (IH (n / 10) a (String (digit_char (n mod 10)) acc)) as (k & Hk0 & Hk).
      { split; [apply Z.div_pos; lia|].
        apply Z.div_lt_upper_bound; [lia|].
        rewrite Nat2Z.inj_succ, Z.pow_succ_r in Hn by lia. lia. }
      exists (k + 1). split; [lia|]. rewrite Hk; simpl. rewrite Hd, Hv.
      f_equal. rewrite Z.pow_add_r by lia.
      rewrite (Z.div_mod n 10) at 3 by lia. lia.
Qed.

Lemma digit_fuel_enough (n : Z) : 0 ≤ n → n < 2 ^ Z.of_nat (digit_fuel n).
Proof.
  intros Hn. unfold digit_fuel. rewrite Nat2Z.inj_succ, Z2Nat.id by apply Z.log2_nonneg.
  destruct (Z.eq_dec n 0) as [->|]; [simpl; lia|].
  apply Z.log2_spec. lia.
Qed.

Lemma parse_unsigned_str_nonneg (n : Z) :
  0 ≤ n → parse_unsigned (str_nonneg n) = Some n.
Proof.
  intros Hn. unfold str_nonneg.
  destruct (parse_digits_go (digit_fuel n) n 0 EmptyString) as (k & _ & Hk).
  { split; [done|]. by apply digit_fuel_enough. }
  destruct (digits_go_shape (Z.to_nat (Z.log2 n)) n EmptyString Hn)
    as ([|c d] & Heq & Hne & Hall); [done|].
  unfold digit_fuel in *. rewrite Heq, sapp_cons in Hk |- *. simpl in Hall |- *.
  apply andb_prop in Hall as [Hc _]. rewrite Hc. simpl in Hk. rewrite Hc in Hk.
  replace (0 * 10 + digit_val c) with (digit_val c) in Hk by lia.
  rewrite Hk. simpl. f_equal; lia.
Qed.

Lemma str_nonneg_shape (n : Z) :
  0 ≤ n → ∃ c d, str_nonneg n = String c d ∧ is_digit c = true ∧
                 chars_all is_digit d = true.
Proof.
  intros Hn. unfold str_nonneg, digit_fuel.
  destruct (digits_go_shape (Z.to_nat (Z.log2 n)) n EmptyString Hn)
    as ([|c d] & -> & Hne & Hall); [done|].
  simpl in Hall. apply andb_prop in Hall as [Hc Hd].
  exists c, d. by rewrite sapp_nil_r.
Qed.

Lemma chars_all_digits_nonspace (d : string) :
  chars_all is_digit d = true → chars_all (λ c, negb (is_space c)) d = true.
Proof.
  induction d as [|c d IH]; simpl; [done|].
  intros [Hc Hd]%andb_prop. by rewrite digit_not_space, IH.
Qed.

(** The text [str(z)] is a non-empty string without whitespace. *)
Lemma py_str_int_nonspace (z : Z) :
  py_str_int z ≠ EmptyString ∧ chars_all (λ c, negb (is_space c)) (py_str_int z) = true.
Proof.
  unfold py_str_int. destruct (Z.ltb_spec z 0).
  - destruct (str_nonneg_shape (- z)) as (c & d & -> & Hc & Hd); [lia|].
    split; [done|]. rewrite sapp_cons, sapp_nil_l. simpl.
    by rewrite digit_not_space, (chars_all_digits_nonspace d).
  - destruct (str_nonneg_shape z) as (c & d & -> & Hc & Hd); [lia|].
    split; [done|]. simpl. by rewrite digit_not_space, (chars_all_digits_nonspace d).
Qed.

(** ** [int] of printed integers *)

(** Python's [int] reads back what [str] prints, whatever whitespace
    surrounds it: [int(ws + str(z) + ws') == z] for every integer [z] and
    whitespace strings [ws], [ws']. *)
Lemma py_int_str_padded (ws ws' : string) (z : Z) :
  chars_all is_space ws = true → chars_all is_space ws' = true →
  py_int (ws +:+ py_str_int z +:+ ws') = Ok z.
Proof.
  intros Hws Hws'. destruct (py_str_int_nonspace z) as [Hne Hns].
  unfold py_int. rewrite strip_padded by done.
  unfold py_str_int in *. destruct (Z.ltb_spec z 0).
  - rewrite sapp_cons, sapp_nil_l. simpl.
    rewrite parse_unsigned_str_nonneg by lia. simpl. f_equal. lia.
  - destruct (str_nonneg_shape z) as (c & d & Heq & Hc & _); [lia|].
    rewrite Heq. rewrite <- Heq.
    destruct (Ascii.eqb_spec c "-"%char) as [->|]; [discriminate|].
    destruct (Ascii.eqb_spec c "+"%char) as [->|]; [discriminate|].
    by rewrite parse_unsigned_str_nonneg.
Qed.

(** [str] is injective. *)
Lemma py_str_int_inj (p q : Z) : py_str_int p = py_str_int q → p = q.
Proof.
  intros H. pose proof (py_int_str_padded EmptyString EmptyString p eq_refl eq_refl) as Hp.
  rewrite H, py_int_str_padded in Hp by done. by injection Hp.
Qed.

(** ** What [strip] returns *)

(** [t] has no whitespace at either end. *)
Definition stripped (t : string) : Prop := lstrip t = t ∧ rstrip t = t.

Lemma lstrip_idem (s : string) : lstrip (lstrip s) = lstrip s.
Proof.
  induction s as [|c s IH]; simpl; [done|].
  destruct (is_space c) eqn:Hc; [done|]. simpl. by rewrite Hc.
Qed.

Lemma rstrip_idem (s : string) : rstrip (rstrip s) = rstrip s.
Proof. unfold rstrip. by rewrite srev_involutive, lstrip_idem. Qed.

Lemma lstrip_split (s : string) :
  ∃ ws, s = ws +:+ lstrip s ∧ chars_all is_space ws = true.
Proof.
  induction s as [|c s (ws & Hws & Hsp)]; simpl; [by exists EmptyString|].
  destruct (is_space c) eqn:Hc.
  - exists (String c ws). rewrite sapp_cons, <- Hws. simpl. by rewrite Hc.
  - by exists EmptyString.
Qed.

Lemma lstrip_length (s : string) : (String.length (lstrip s) ≤ String.length s)%nat.
Proof. induction s as [|c s IH]; simpl; [lia|]. destruct (is_space c); simpl; lia. Qed.

Lemma lstrip_fixed_head (c : ascii) (r : string) :
  lstrip (String c r) = String c r → is_space c = false.
Proof.
  simpl. destruct (is_space c); [|done]. intros Heq.
  pose proof (lstrip_length r) as Hl. rewrite Heq in Hl. simpl in Hl. lia.
Qed.

(** Removing trailing whitespace keeps a string free of leading
    whitespace. *)
Lemma lstrip_rstrip (v : string) : lstrip v = v → lstrip (rstrip v) = rstrip v.
Proof.
  intros Hv. destruct (lstrip_split (srev v)) as (ws & Hws & _).
  assert (Hsplit : v = rstrip v +:+ srev ws).
  { unfold rstrip. rewrite <- srev_app, <- Hws. by rewrite srev_involutive. }
  destruct (rstrip v) as [|c u] eqn:Hr; [done|].
  rewrite sapp_cons in Hsplit. rewrite Hsplit in Hv.
  apply lstrip_fixed_head in Hv. by apply lstrip_nonspace_head.
Qed.

Lemma strip_stripped (s : string) : stripped (strip s).
Proof.
  split; unfold strip.
  - apply lstrip_rstrip, lstrip_idem.
  - apply rstrip_idem.
Qed.

#[export] Hint Resolve strip_stripped : crawl.
