(* ===== verification/Html.v ===== *)
(** The BeautifulSoup queries the crawler uses, over a parsed document.
    A document is the forest of its top-level nodes; an element has a tag
    name, its classes (bs4 splits the multi-valued [class] attribute), its
    other attributes and its children.  [find_all] lists the matching
    descendants in document order (pre-order), [find] is its first result
    or [None], [.text] concatenates the text of a subtree, [.get(a)] is the
    attribute's value or [None].  Parsing text into a tree is the library's
    and is not modelled. *)

From S2P Require Import Prelude PyBase.

#[local] Set Warnings "-register-all".
Inductive node :=
| Elem (tag : string) (classes : list string) (attrs : list (string * string))
       (kids : list node)
| Text (s : string).

(** The subtree of a node in pre-order: the node, then its children's
    subtrees from left to right. *)
Fixpoint subtree (n : node) : list node :=
  n :: match n with
       | Elem _ _ _ kids =>
           (fix go (l : list node) : list node :=
              match l with [] => [] | k :: l' => subtree k ++ go l' end) kids
       | Text _ => []
       end.

(** The nodes of a forest in document order. *)
Definition forest_nodes (ns : list node) : list node := ns ≫= subtree.

Definition kids_of (n : node) : list node :=
  match n with Elem _ _ _ kids => kids | Text _ => [] end.

(** The scope a query of a tag searches: its descendants. *)
Definition descendants (n : node) : list node := forest_nodes (kids_of n).

(** [name] and [class_=cls] filters. *)
Definition has_tag (t : string) (n : node) : bool :=
  match n with Elem t' _ _ _ => bool_decide (t' = t) | Text _ => false end.

Definition has_tag_class (t cls : string) (n : node) : bool :=
  match n with
  | Elem t' cs _ _ => bool_decide (t' = t) && bool_decide (cls ∈ cs)
  | Text _ => false
  end.

(** [x.find_all(...)] over a scope (the document's forest, or the
    children of a tag), and [x.find(...)]. *)
Definition find_all (sel : node → bool) (scope : list node) : list node :=
  List.filter sel (forest_nodes scope).

Definition find (sel : node → bool) (scope : list node) : option node :=
  head (find_all sel scope).

(** [.text]: the text of every text node of the subtree, in order. *)
Definition get_text (n : node) : string :=
  foldr (λ m acc, match m with Text s => s +:+ acc | Elem _ _ _ _ => acc end)
        EmptyString (subtree n).

(** [.get(a)]. *)
Definition get_attr (a : string) (n : node) : option string :=
  match n with
  | Elem _ _ attrs _ => snd <$> List.find (λ kv, bool_decide (fst kv = a)) attrs
  | Text _ => None
  end.

(** * Lemmas *)

Lemma subtree_elem t cs attrs kids :
  subtree (Elem t cs attrs kids) = Elem t cs attrs kids :: forest_nodes kids.
Proof. reflexivity. Qed.

Lemma forest_nodes_app (ns ms : list node) :
  forest_nodes (ns ++ ms) = forest_nodes ns ++ forest_nodes ms.
Proof. unfold forest_nodes. by rewrite bind_app. Qed.

Lemma find_all_app sel (ns ms : list node) :
  find_all sel (ns ++ ms) = find_all sel ns ++ find_all sel ms.
Proof. unfold find_all. by rewrite forest_nodes_app, List.filter_app. Qed.

Lemma find_all_sel sel scope n : n ∈ find_all sel scope → sel n = true.
Proof. unfold find_all. by intros [? ?]%list_elem_of_In%filter_In. Qed.

Lemma find_some sel scope n : find sel scope = Some n → sel n = true.
Proof.
  unfold find. destruct (find_all sel scope) as [|m l] eqn:E; simpl; [done|].
  intros [= ->]. apply (find_all_sel sel scope). rewrite E. by left.
Qed.

#[export] Hint Resolve find_some find_all_sel : crawl.
