(* ===== verification/Regex.v ===== *)
(** The category-path pattern of [get_url_categories]:
    [re.search(r'/c/([\w.-]+)/', href)] and [url.group(0)].  [re_search]
    scans the string from the left and, at each position, tries the
    pattern: the literal [/c/], the longest run of characters of the class
    [[\w.-]] (at least one), then [/].  Backtracking into the run never helps
    because [/] is not in the class, so this is the match Python's engine
    finds.  The theorems relate [re_search] to the declarative meaning: the
    result is the leftmost substring of the form [/c/<w>/] with [w] a
    non-empty word of the class, and [None] means there is none.  [\w] is
    taken on ASCII ([A-Za-z0-9_]); URLs are ASCII. *)

From S2P Require Import Prelude PyBase.

(** [\w] on ASCII characters. *)
Definition is_word (c : ascii) : bool :=
  let n := nat_of_ascii c in
  ((48 <=? n)%nat && (n <=? 57)%nat) || ((65 <=? n)%nat && (n <=? 90)%nat) ||
  ((97 <=? n)%nat && (n <=? 122)%nat) || (n =? 95)%nat.

(** The class [[\w.-]]. *)
Definition in_class (c : ascii) : bool :=
  is_word c || Ascii.eqb c "."%char || Ascii.eqb c "-"%char.

(** The longest prefix of class characters, and the rest. *)
Fixpoint class_run (s : string) : string * string :=
  match s with
  | String c s' =>
      if in_class c then let '(w, r) := class_run s' in (String c w, r)
      else (EmptyString, s)
  | EmptyString => (EmptyString, EmptyString)
  end.

(** The pattern anchored at the start of [s]: [group(0)] of a match. *)
Definition match_at (s : string) : option string :=
  match s with
  | String a (String b (String c r)) =>
      if Ascii.eqb a "/"%char && Ascii.eqb b "c"%char && Ascii.eqb c "/"%char then
        match class_run r with
        | (String x w, String d _) =>
            if Ascii.eqb d "/"%char
            then Some ("/c/" +:+ String x w +:+ "/") else None
        | _ => None
        end
      else None
  | _ => None
  end.

(** [re.search(pattern, s)], as the matched text. *)
Fixpoint re_search (s : string) : option string :=
  match match_at s with
  | Some m => Some m
  | None => match s with String _ s' => re_search s' | EmptyString => None end
  end.

(** ** The declarative meaning of the pattern *)

Definition pat_match (m : string) : Prop :=
  ∃ w, m = "/c/" +:+ w +:+ "/" ∧ w ≠ EmptyString ∧ chars_all in_class w = true.

(** [m] occurs in [s] after the prefix [pre]. *)
Definition occurs (s pre m : string) : Prop :=
  ∃ post, s = pre +:+ m +:+ post ∧ pat_match m.

(** [m] is the leftmost match in [s]. *)
Definition leftmost (s m : string) : Prop :=
  ∃ pre, occurs s pre m ∧
    ∀ pre' m', occurs s pre' m' → (String.length pre ≤ String.length pre')%nat.

(** * Lemmas *)

Lemma class_run_spec (s : string) :
  s = (class_run s).1 +:+ (class_run s).2 ∧ chars_all in_class (class_run s).1 = true ∧
  ∀ c r, (class_run s).2 = String c r → in_class c = false.
Proof.
  induction s as [|c s (IHeq & IHall & IHstop)]; simpl; [naive_solver|].
  destruct (in_class c) eqn:Hc; simpl.
  - destruct (class_run s) as [w r]; simpl in *. rewrite sapp_cons, <- IHeq, Hc. done.
  - split; [done|]. split; [done|]. by intros ?? [= <- _].
Qed.

Lemma slash_not_in_class : in_class "/"%char = false.
Proof. reflexivity. Qed.

Lemma class_run_app (w r : string) :
  chars_all in_class w = true → (∀ c r', r = String c r' → in_class c = false) →
  class_run (w +:+ r) = (w, r).
Proof.
  intros Hw Hr. induction w as [|c w IH]; simpl in *.
  - destruct r as [|c r']; [done|]. simpl. by rewrite (Hr c r').
  - apply andb_prop in Hw as [Hc Hw]. rewrite Hc, IH by done. done.
Qed.

Lemma match_at_sound (s m : string) :
  match_at s = Some m → ∃ post, s = m +:+ post ∧ pat_match m.
Proof.
  unfold match_at. destruct s as [|a [|b [|c r]]]; try done.
  destruct (Ascii.eqb_spec a "/"%char), (Ascii.eqb_spec b "c"%char),
    (Ascii.eqb_spec c "/"%char); subst; simpl; try done.
  destruct (class_run_spec r) as (Heq & Hall & _).
  destruct (class_run r) as [[|x w] [|d post]]; simpl in *; try done.
  destruct (Ascii.eqb_spec d "/"%char); subst; [|done].
  intros [= <-]. exists post. split.
  - by rewrite <- !sapp_assoc.
  - by exists (String x w).
Qed.

Lemma match_at_complete (post m : string) :
  pat_match m → match_at (m +:+ post) = Some m.
Proof.
  intros (w & -> & Hne & Hw). rewrite <- !sapp_assoc. simpl.
  rewrite sapp_nil_l, class_run_app;
    [|done|intros c' r' Heq; rewrite sapp_cons in Heq; injection Heq; intros; by subst].
  destruct w as [|x w]; [done|reflexivity].
Qed.

Lemma occurs_cons (c : ascii) (s pre m : string) :
  occurs s pre m → occurs (String c s) (String c pre) m.
Proof. intros (post & -> & Hm). exists post. by rewrite sapp_cons. Qed.

Lemma occurs_uncons (c : ascii) (s pre m : string) :
  occurs (String c s) (String c pre) m → occurs s pre m.
Proof. intros (post & Heq & Hm). rewrite sapp_cons in Heq. injection Heq as Heq. by exists post. Qed.

Lemma occurs_head (s m : string) : occurs s EmptyString m → match_at s = Some m.
Proof. intros (post & -> & Hm). rewrite sapp_nil_l. by apply match_at_complete. Qed.

(** [re_search] finds nothing only when the pattern occurs nowhere. *)
Lemma re_search_none (s : string) :
  re_search s = None → ∀ pre m, ¬ occurs s pre m.
Proof.
  induction s as [|c s IH]; intros Hs pre m Hocc; cbn [re_search] in Hs.
  - destruct Hocc as (post & Heq & w & Hw & _). subst m.
    destruct pre; discriminate.
  - destruct (match_at (String c s)) eqn:Hm; [done|].
    destruct pre as [|c' pre].
    + apply occurs_head in Hocc. congruence.
    + destruct Hocc as (post & Heq & Hpat). rewrite sapp_cons in Heq. injection Heq as <- Heq.
      apply (IH Hs pre m). by exists post.
Qed.

(** What [re_search] returns is the leftmost match. *)
Lemma re_search_some (s m : string) : re_search s = Some m → leftmost s m.
Proof.
  revert m; induction s as [|c s IH]; intros m Hs; cbn [re_search] in Hs; [done|].
  destruct (match_at (String c s)) as [m0|] eqn:Hm.
  - injection Hs as <-. apply match_at_sound in Hm as (post & Heq & Hp).
    exists EmptyString. split; [by exists post|]. simpl. lia.
  - destruct (IH m Hs) as (pre & Hocc & Hmin).
    exists (String c pre). split; [by apply occurs_cons|].
    intros [|c' pre'] m' Hocc'.
    + apply occurs_head in Hocc'. congruence.
    + destruct Hocc' as (post & Heq & Hp). rewrite sapp_cons in Heq.
      injection Heq as <- Heq. simpl.
      enough (String.length pre ≤ String.length pre')%nat by lia.
      apply Hmin with m'. by exists post.
Qed.

(** C18: [re.search(r'/c/([\w.-]+)/', href).group(0)] as [re_search]
    computes it is the leftmost substring of [href] of the form [/c/<w>/]
    with [w] a non-empty word of [[\w.-]]; when [re_search] finds nothing,
    no substring has that form. *)
Theorem re_search_spec (s : string) :
  match re_search s with
  | Some m => leftmost s m
  | None => ∀ pre m, ¬ occurs s pre m
  end.
Proof.
  destruct (re_search s) eqn:Hs; [by apply re_search_some | by apply re_search_none].
Qed.
