(* ===== verification/Extract.v ===== *)
(** The pure extraction steps of [EldoradoParser]: what each method reads
    from a fetched document, with the exceptions its expressions raise.
    - [collect_category_urls]: the loop of [get_url_categories] (lines
      35-41) over the links [a.ss];
    - [extract_comment] / [extract_comments]: the review records of one
      review page (lines 53-64), a container whose fields are missing is
      skipped by the [except Exception: continue];
    - [count_pages] / [product_name]: the review-page count of a product,
      falling back to 1 on [AttributeError] and [IndexError] only, and the
      product's file name (lines 74-77);
    - [product_hrefs]: the product links of a listing page (lines 95-98);
    - [category_count] / [category_name]: the listing-page count of a
      category, with no fall-back, and its directory name (lines 106-107). *)

From S2P Require Import Prelude PyBase Html Regex.

#[local] Open Scope Z_scope.

(** One review, as the dictionary [user_info] of [_parse_comments] (keys
    [url], [author], [date], [content]). *)
Record review := mkReview {
  rv_url : string;
  rv_author : string;
  rv_date : string;
  rv_content : string
}.

#[export] Instance review_eq_dec : EqDecision review.
Proof. solve_decision. Defined.

(** [x.text] where [x] may be [None]. *)
Definition text_of (o : option node) : result string :=
  of_opt AttributeError (get_text <$> o).

(** ** [get_url_categories] (lines 35-41) *)

Definition category_link : node → bool := has_tag_class "a" "ss".

(** [for link in links: url = re.search(..., link.get('href')); if url:
    urls.add(url.group(0))]; [re.search] of [None] raises [TypeError]. *)
Definition add_category_url (acc : result (gset string)) (link : node)
    : result (gset string) :=
  urls ← acc;
  href ← of_opt TypeError (get_attr "href" link);
  mret (match re_search href with
        | Some m => {[m]} ∪ urls
        | None => urls
        end).

Definition collect_category_urls (soup : list node) : result (gset string) :=
  foldl add_category_url (Ok ∅) (find_all category_link soup).

(** ** Review records (lines 53-64) *)

Definition review_container : node → bool :=
  has_tag_class "div" "usersReviewsListItemInnerContainer".

(** The body of the [try]: the dictionary literal, fields in order. *)
Definition extract_comment (url : string) (comment : node) : result review :=
  author ← text_of (find (has_tag_class "span" "userName") (kids_of comment));
  date ← text_of (find (has_tag_class "div" "userReviewDate") (kids_of comment));
  content ← text_of (find (has_tag_class "div" "middleBlockItem") (kids_of comment));
  mret (mkReview url author (strip date) (strip content)).

(** The records appended, in document order; a container whose [try]
    raises is skipped ([except Exception: continue]). *)
Definition extract_comments (url : string) (soup : list node) : list review :=
  omap (λ c, match extract_comment url c with Ok r => Some r | Err _ => None end)
       (find_all review_container soup).

(** ** Product page (lines 74-77) *)

(** [try: count_pages = int(soup.find('div', class_='pages')
    .find_all('a')[-1].text) except (AttributeError, IndexError):
    count_pages = 1]; a [ValueError] of [int] is not handled. *)
Definition count_pages (soup : list node) : result Z :=
  except [AttributeError; IndexError]
    (pages ← of_opt AttributeError (find (has_tag_class "div" "pages") soup);
     last ← py_index (find_all (has_tag "a") (kids_of pages)) (-1);
     py_int (get_text last))
    1.

(** [soup.find('h1', class_='catalogItemDetailHd').text.replace('/', '_')]. *)
Definition product_name (soup : list node) : result string :=
  name ← text_of (find (has_tag_class "h1" "catalogItemDetailHd") soup);
  mret (replace_char "/"%char "_"%char name).

(** ** Listing page (line 95) *)

Definition product_link : node → bool := has_tag_class "a" "sG".

(** [a.get('href')] for each [a] of [soup.find_all('a', class_='sG')]. *)
Definition product_hrefs (soup : list node) : list (option string) :=
  get_attr "href" <$> find_all product_link soup.

(** ** Category page (lines 106-107) *)

(** [int(soup.find('div', class_='zr').find_all('li')[-2].text)]. *)
Definition category_count (soup : list node) : result Z :=
  zr ← of_opt AttributeError (find (has_tag_class "div" "zr") soup);
  li ← py_index (find_all (has_tag "li") (kids_of zr)) (-2);
  py_int (get_text li).

(** [soup.find('h1', class_='-K').text]. *)
Definition category_name (soup : list node) : result string :=
  text_of (find (has_tag_class "h1" "-K") soup).

(** * Lemmas *)

Lemma py_int_ok_or_value_error (s : string) :
  (∃ n, py_int s = Ok n) ∨ py_int s = Err ValueError.
Proof. unfold py_int, of_opt. case_match; eauto. Qed.

Lemma py_index_last {A} (l : list A) : py_index l (-1) = of_opt IndexError (last l).
Proof.
  unfold py_index. rewrite last_lookup. destruct l as [|x l]; [done|].
  replace (-1 <? 0) with true by reflexivity.
  simpl length. destruct (Z.ltb_spec (Z.of_nat (S (length l)) + -1) 0); [lia|].
  do 2 f_equal. lia.
Qed.

Lemma py_index_second_last {A} (l : list A) :
  py_index l (-2) =
  if (length l <? 2)%nat then Err IndexError else of_opt IndexError (l !! (length l - 2)%nat).
Proof.
  unfold py_index. replace (-2 <? 0) with true by reflexivity.
  destruct (Nat.ltb_spec (length l) 2);
    destruct (Z.ltb_spec (Z.of_nat (length l) + -2) 0); simpl; try lia; [done|].
  do 2 f_equal. lia.
Qed.

Lemma add_category_url_err (e : exn) (links : list node) :
  foldl add_category_url (Err e) links = Err e.
Proof. by induction links. Qed.

Lemma collect_foldl (links : list node) (U0 : gset string) :
  match foldl add_category_url (Ok U0) links with
  | Ok U => ∀ u, u ∈ U ↔ u ∈ U0 ∨ ∃ l h, l ∈ links ∧ get_attr "href" l = Some h ∧
                                          re_search h = Some u
  | Err e => e = TypeError ∧ ∃ l, l ∈ links ∧ get_attr "href" l = None
  end.
Proof.
  revert U0; induction links as [|l links IH]; intros U0; simpl.
  - intros u. split; [by left|]. intros [? | (? & ? & Hin & _)]; [done|]. by apply elem_of_nil in Hin.
  - destruct (get_attr "href" l) as [h|] eqn:Hh; simpl.
    + specialize (IH (match re_search h with Some m => {[m]} ∪ U0 | None => U0 end)).
      destruct (foldl _ _ links) as [U|e].
      * intros u. rewrite IH. split.
        -- intros [Hu | (l' & h' & ? & ? & ?)]; [|right; exists l', h'; set_solver].
           destruct (re_search h) eqn:Hr; [|by left].
           apply elem_of_union in Hu as [->%elem_of_singleton | Hu]; [|by left].
           right. exists l, h. set_solver.
        -- intros [Hu | (l' & h' & [-> | Hin]%elem_of_cons & Hh' & Hr')].
           ++ left. destruct (re_search h); set_solver.
           ++ left. rewrite Hh in Hh'. injection Hh' as <-. rewrite Hr'. set_solver.
           ++ right. exists l', h'. done.
      * destruct IH as [-> (l' & ? & ?)]. split; [done|]. exists l'. set_solver.
    + rewrite add_category_url_err. split; [done|]. exists l. set_solver.
Qed.

(** ** Category links *)

(** C17: [get_url_categories] collects, as a set (duplicates coalesced), the
    leftmost [/c/<slug>/] of the [href] of every [a.ss] link that has one;
    a link without [href] makes [re.search] raise [TypeError]. *)
Theorem collect_category_urls_spec (soup : list node) :
  match collect_category_urls soup with
  | Ok U => ∀ u, u ∈ U ↔ ∃ l h, l ∈ find_all category_link soup ∧
                          get_attr "href" l = Some h ∧ re_search h = Some u
  | Err e => e = TypeError ∧
             ∃ l, l ∈ find_all category_link soup ∧ get_attr "href" l = None
  end.
Proof.
  unfold collect_category_urls.
  pose proof (collect_foldl (find_all category_link soup) ∅) as H.
  destruct (foldl _ _ _); [|done]. intros u. rewrite H. set_solver.
Qed.

(** ** Review records *)

Lemma extract_comment_ok (url : string) (c : node) (r : review) :
  extract_comment url c = Ok r →
  rv_url r = url ∧ stripped (rv_date r) ∧ stripped (rv_content r).
Proof.
  unfold extract_comment. intros H. res_inv H. subst r. simpl. split; [done|]. split; apply strip_stripped.
Qed.

Lemma elem_of_extract_comments (url : string) (soup : list node) (r : review) :
  r ∈ extract_comments url soup ↔
  ∃ c, c ∈ find_all review_container soup ∧ extract_comment url c = Ok r.
Proof.
  unfold extract_comments. rewrite list_elem_of_omap.
  split; intros (c & Hc & Hr); exists c; split; try done;
    destruct (extract_comment url c); congruence.
Qed.

(** C16: the records a review page yields are exactly those of its
    containers [div.usersReviewsListItemInnerContainer] in which the three
    fields are found: each carries the page's URL, the text of
    [span.userName] as it is, and the stripped texts of [div.userReviewDate]
    and [div.middleBlockItem], in that order of fields; a container missing
    a field yields nothing. *)
Theorem extract_comments_records (url : string) (soup : list node) (r : review) :
  r ∈ extract_comments url soup ↔
  ∃ c a d t, c ∈ find_all review_container soup ∧
    find (has_tag_class "span" "userName") (kids_of c) = Some a ∧
    find (has_tag_class "div" "userReviewDate") (kids_of c) = Some d ∧
    find (has_tag_class "div" "middleBlockItem") (kids_of c) = Some t ∧
    r = mkReview url (get_text a) (strip (get_text d)) (strip (get_text t)).
Proof.
  rewrite elem_of_extract_comments. unfold extract_comment, text_of.
  split.
  - intros (c & Hc & Hok). exists c. revert Hok.
    destruct (find (has_tag_class "span" "userName") (kids_of c)) as [a|]; [|by intros [=]].
    destruct (find (has_tag_class "div" "userReviewDate") (kids_of c)) as [d|]; [|by intros [=]].
    destruct (find (has_tag_class "div" "middleBlockItem") (kids_of c)) as [t|]; [|by intros [=]].
    intros [= <-]. by exists a, d, t.
  - intros (c & a & d & t & Hc & Ha & Hd & Ht & ->). exists c. split; [done|].
    by rewrite Ha, Hd, Ht.
Qed.

(** ** Page counts *)

(** C13: the review-page count of a product is [int] of the text of the
    last anchor of [div.pages], with its [ValueError] when that text is not
    an integer: only [AttributeError] and [IndexError] are handled. *)
Theorem count_pages_last_anchor (soup : list node) (p a : node) :
  find (has_tag_class "div" "pages") soup = Some p →
  last (find_all (has_tag "a") (kids_of p)) = Some a →
  count_pages soup = py_int (get_text a).
Proof.
  intros Hp Ha. unfold count_pages. rewrite Hp. simpl.
  rewrite py_index_last, Ha. simpl.
  destruct (py_int_ok_or_value_error (get_text a)) as [[n ->] | ->]; done.
Qed.

(** C14: the fall-back of the review-page count: with no [div.pages], or
    no anchor in it, the count is 1. *)
Theorem count_pages_fallback (soup : list node) :
  (find (has_tag_class "div" "pages") soup = None ∨
   ∃ p, find (has_tag_class "div" "pages") soup = Some p ∧
        find_all (has_tag "a") (kids_of p) = []) →
  count_pages soup = Ok 1.
Proof.
  unfold count_pages. intros [-> | (p & -> & Ha)]; [done|]. simpl.
  by rewrite py_index_last, Ha.
Qed.

(** C15: the listing-page count of a category has no fall-back: when it
    is read it is [int] of the second-to-last [li] of [div.zr]; a missing
    block raises [AttributeError] and fewer than two items [IndexError]. *)
Theorem category_count_cases (soup : list node) :
  match find (has_tag_class "div" "zr") soup with
  | None => category_count soup = Err AttributeError
  | Some z =>
      let lis := find_all (has_tag "li") (kids_of z) in
      match lis !! (length lis - 2)%nat with
      | Some li => (2 ≤ length lis)%nat → category_count soup = py_int (get_text li)
      | None => category_count soup = Err IndexError
      end ∧ ((length lis < 2)%nat → category_count soup = Err IndexError)
  end.
Proof.
  unfold category_count. destruct (find _ soup) as [z|]; simpl; [|done].
  rewrite py_index_second_last.
  destruct (Nat.ltb_spec (length (find_all (has_tag "li") (kids_of z))) 2).
  - split; [|done]. case_match; [lia|done].
  - split; [|lia]. by case_match.
Qed.

(** * Concrete documents *)

Definition tag_text (t cls s : string) : node := Elem t [cls] [] [Text s].

Definition review_box (author date content : string) : node :=
  Elem "div" ["usersReviewsListItemInnerContainer"] []
    [tag_text "span" "userName" author; tag_text "div" "userReviewDate" date;
     tag_text "div" "middleBlockItem" content].

(** The scenario of the specification: the date and content are trimmed. *)
Example review_box_jane :
  extract_comments "u" [review_box "Jane" " 2021-01-01 " " Great product "] =
  [mkReview "u" "Jane" "2021-01-01" "Great product"].
Proof. reflexivity. Qed.

(** The author is not trimmed ([.text] without [.strip()], line 58). *)
Example review_box_author_untrimmed :
  extract_comments "u" [review_box " Jane " "d" "c"] = [mkReview "u" " Jane " "d" "c"].
Proof. reflexivity. Qed.

Definition pagination (last_text : string) : node :=
  Elem "div" ["pages"] [] [Elem "a" [] [] [Text "1"]; Elem "a" [] [] [Text last_text]].

Lemma extract_comments_records_witness :
  mkReview "u" "Jane" "2021-01-01" "Great product" ∈
    extract_comments "u" [review_box "Jane" " 2021-01-01 " " Great product "] ↔
  ∃ c a d t, c ∈ find_all review_container [review_box "Jane" " 2021-01-01 " " Great product "] ∧
    find (has_tag_class "span" "userName") (kids_of c) = Some a ∧
    find (has_tag_class "div" "userReviewDate") (kids_of c) = Some d ∧
    find (has_tag_class "div" "middleBlockItem") (kids_of c) = Some t ∧
    mkReview "u" "Jane" "2021-01-01" "Great product" =
      mkReview "u" (get_text a) (strip (get_text d)) (strip (get_text t)).
Proof. apply extract_comments_records. Defined.

(** A pagination whose last anchor reads "Next" makes the product crawl
    raise [ValueError] instead of falling back to one page. *)
Lemma count_pages_last_anchor_witness :
  count_pages [pagination "Next"] = Err ValueError.
Proof.
  rewrite (count_pages_last_anchor _ (pagination "Next") (Elem "a" [] [] [Text "Next"]));
    reflexivity.
Defined.

Lemma count_pages_fallback_witness : count_pages [Elem "div" ["pages"] [] []] = Ok 1.
Proof. apply count_pages_fallback. right. eexists. split; reflexivity. Defined.
