(* ===== verification/Json.v ===== *)
(** The file format: [json.dump(self.comments, file, ensure_ascii=False,
    indent=4)] (line 85).  With an [indent], [json.dump] runs the pure
    Python encoder of [json.encoder] ([_make_iterencode]): strings through
    [py_encode_basestring] (with [ensure_ascii=False] only the double
    quote, the backslash and the control characters are escaped), lists and dicts through
    [_iterencode_list] / [_iterencode_dict] with a newline and four spaces
    per level before each item, the item separator [","] and the key
    separator [": "] that [indent] selects.  [dumps_at] is that encoder on
    the values the crawler writes (strings, lists, dicts with string keys);
    [review_json] is the dict [user_info] of lines 56-61, keys in their
    insertion order.

    The reader [loads] is the decoder of [json.loads] ([json.decoder]
    with the C scanner, [strict=True]) on texts made of strings, arrays and
    objects; it is the specification of what a consumer of the files reads
    back.  Its recursion takes fuel; the theorems give it the length of the
    text and prove that this is enough for every text [dumps_at] writes. *)

From S2P Require Import Prelude PyBase Html Extract.

(** * JSON values *)

Section Json.
Unset Elimination Schemes.

Inductive json :=
| JStr (s : string)
| JArr (vs : list json)
| JObj (kvs : list (string * json)).

Set Elimination Schemes.

(** The induction principle through the lists of an array or an object. *)
Definition json_ind (P : json → Prop)
    (fstr : ∀ s, P (JStr s))
    (farr : ∀ vs, Forall P vs → P (JArr vs))
    (fobj : ∀ kvs, Forall (λ kv, P kv.2) kvs → P (JObj kvs)) : ∀ v, P v :=
  fix F v :=
    match v with
    | JStr s => fstr s
    | JArr vs => farr vs ((fix G vs : Forall P vs :=
                            match vs with
                            | [] => Forall_nil_2 _
                            | v :: vs => Forall_cons_2 _ _ _ (F v) (G vs)
                            end) vs)
    | JObj kvs => fobj kvs ((fix G kvs : Forall (λ kv, P kv.2) kvs :=
                              match kvs with
                              | [] => Forall_nil_2 _
                              | kv :: kvs => Forall_cons_2 _ _ _ (F kv.2) (G kvs)
                              end) kvs)
    end.
End Json.

(** * The encoder *)

Definition quote : ascii := "034".
Definition bslash : ascii := "092".

(** A digit of [format(i, '04x')]. *)
Definition hex_digit (n : nat) : ascii :=
  ascii_of_nat (if decide (n < 10)%nat then 48 + n else 87 + n).

(** [ESCAPE_DCT] of [json.encoder]: a backslash before the double quote
    and the backslash, the two-character escapes of backspace, form feed,
    newline, carriage return and tab, and [\u00XX] (lower-case hex) for
    the other characters below [0x20]. *)
Definition escape_char (c : ascii) : string :=
  let n := nat_of_ascii c in
  if decide (c = quote) then String bslash (String quote EmptyString)
  else if decide (c = bslash) then String bslash (String bslash EmptyString)
  else if decide (n = 8) then String bslash "b"
  else if decide (n = 12) then String bslash "f"
  else if decide (n = 10) then String bslash "n"
  else if decide (n = 13) then String bslash "r"
  else if decide (n = 9) then String bslash "t"
  else if decide (n < 32) then
    String bslash ("u00" +:+ String (hex_digit (n / 16)) (String (hex_digit (n mod 16)) EmptyString))
  else String c EmptyString.

Fixpoint escape (s : string) : string :=
  match s with
  | EmptyString => EmptyString
  | String c s => escape_char c +:+ escape s
  end.

(** [py_encode_basestring]: [ESCAPE.sub(replace, s)] between quotes. *)
Definition encode_string (s : string) : string :=
  String quote (escape s +:+ String quote EmptyString).

(** [newline_indent] at a level: ['\n' + ' ' * 4 * level]. *)
Fixpoint spaces (n : nat) : string :=
  match n with 0 => EmptyString | S n => String " " (spaces n) end.

Definition nl (lvl : nat) : string := String "010" (spaces (4 * lvl)).

Definition sconcat (ss : list string) : string := foldr String.append EmptyString ss.

(** [_iterencode(o, level)] for strings, lists and dicts with string keys:
    an empty list is [[]] and an empty dict [{}]; otherwise the first item
    follows [newline_indent], the others [',' + newline_indent], and the
    closing bracket follows ['\n' + ' ' * 4 * level]. *)
Fixpoint dumps_at (lvl : nat) (v : json) : string :=
  match v with
  | JStr s => encode_string s
  | JArr [] => "[]"
  | JArr (v :: vs) =>
      "[" +:+ nl (S lvl) +:+ dumps_at (S lvl) v +:+
      sconcat ((λ v, "," +:+ nl (S lvl) +:+ dumps_at (S lvl) v) <$> vs) +:+ nl lvl +:+ "]"
  | JObj [] => "{}"
  | JObj ((k, v) :: kvs) =>
      "{" +:+ nl (S lvl) +:+ encode_string k +:+ ": " +:+ dumps_at (S lvl) v +:+
      sconcat ((λ kv, "," +:+ nl (S lvl) +:+ encode_string kv.1 +:+ ": " +:+ dumps_at (S lvl) kv.2) <$> kvs) +:+
      nl lvl +:+ "}"
  end.

(** The dict [user_info] (lines 56-61). *)
Definition review_json (r : review) : json :=
  JObj [("url", JStr (rv_url r)); ("author", JStr (rv_author r));
        ("date", JStr (rv_date r)); ("content", JStr (rv_content r))].

(** [json.dump(self.comments, file, ensure_ascii=False, indent=4)]: the text
    of the file. *)
Definition json_dump (rs : list review) : string := dumps_at 0 (JArr (review_json <$> rs)).

(** * The reader *)

(** [WHITESPACE] of [json.decoder]: [[ \t\n\r]*]. *)
Definition is_ws (c : ascii) : bool :=
  bool_decide (c = " "%char ∨ c = "009"%char ∨ c = "010"%char ∨ c = "013"%char).

Fixpoint skip_ws (s : string) : string :=
  match s with
  | String c s' => if is_ws c then skip_ws s' else s
  | EmptyString => EmptyString
  end.

(** The next character after the white space, when it is [c]. *)
Definition expect (c : ascii) (s : string) : option string :=
  match skip_ws s with
  | String c' r => if decide (c' = c) then Some r else None
  | EmptyString => None
  end.

Definition hex_value (c : ascii) : option nat :=
  let n := nat_of_ascii c in
  if decide (48 ≤ n ≤ 57)%nat then Some (n - 48)%nat
  else if decide (97 ≤ n ≤ 102)%nat then Some (n - 87)%nat
  else if decide (65 ≤ n ≤ 70)%nat then Some (n - 55)%nat
  else None.

(** [\uXXXX]: four hex digits of either case (the C scanner); a code point
    above [0xff] is outside the 8-bit alphabet of the model. *)
Definition decode_u (a b c d : ascii) : option ascii :=
  x1 ← hex_value a; x2 ← hex_value b; x3 ← hex_value c; x4 ← hex_value d;
  let n := (4096 * x1 + 256 * x2 + 16 * x3 + x4)%nat in
  if decide (n < 256)%nat then Some (ascii_of_nat n) else None.

(** [BACKSLASH] of [json.decoder]: the escapes of one character. *)
Definition unescape_simple (e : ascii) : option ascii :=
  if decide (e = quote) then Some quote
  else if decide (e = bslash) then Some bslash
  else if decide (e = "/"%char) then Some "/"%char
  else if decide (e = "b"%char) then Some "008"%char
  else if decide (e = "f"%char) then Some "012"%char
  else if decide (e = "n"%char) then Some "010"%char
  else if decide (e = "r"%char) then Some "013"%char
  else if decide (e = "t"%char) then Some "009"%char
  else None.

(** [scanstring] after the opening quote: the string and the text after
    the closing quote; an unescaped control character is an error
    ([strict=True]). *)
Fixpoint scan_string (s : string) : option (string * string) :=
  match s with
  | EmptyString => None
  | String c s1 =>
      if decide (c = quote) then Some (EmptyString, s1)
      else if decide (c = bslash) then
        match s1 with
        | String e s2 =>
            if decide (e = "u"%char) then
              match s2 with
              | String a (String b (String c' (String d s3))) =>
                  x ← decode_u a b c' d; '(t, r) ← scan_string s3; Some (String x t, r)
              | _ => None
              end
            else x ← unescape_simple e; '(t, r) ← scan_string s2; Some (String x t, r)
        | EmptyString => None
        end
      else if decide (nat_of_ascii c < 32)%nat then None
      else '(t, r) ← scan_string s1; Some (String c t, r)
  end.

(** [scan_once], [JSONArray] and [JSONObject] on strings, arrays and
    objects, with fuel. *)
Fixpoint p_value (fuel : nat) (s : string) : option (json * string) :=
  match fuel with
  | 0 => None
  | S f =>
      match skip_ws s with
      | String c s1 =>
          if decide (c = quote) then '(t, r) ← scan_string s1; Some (JStr t, r)
          else if decide (c = "["%char) then
            match expect "]" s1 with
            | Some r => Some (JArr [], r)
            | None => '(vs, r) ← p_elems f s1; Some (JArr vs, r)
            end
          else if decide (c = "{"%char) then
            match expect "}" s1 with
            | Some r => Some (JObj [], r)
            | None => '(kvs, r) ← p_members f s1; Some (JObj kvs, r)
            end
          else None
      | EmptyString => None
      end
  end
with p_elems (fuel : nat) (s : string) : option (list json * string) :=
  match fuel with
  | 0 => None
  | S f =>
      '(v, r) ← p_value f s;
      match expect "," r with
      | Some r1 => '(vs, r2) ← p_elems f r1; Some (v :: vs, r2)
      | None => r1 ← expect "]" r; Some ([v], r1)
      end
  end
with p_members (fuel : nat) (s : string) : option (list (string * json) * string) :=
  match fuel with
  | 0 => None
  | S f =>
      r0 ← expect quote s;
      '(k, r1) ← scan_string r0;
      r2 ← expect ":" r1;
      '(v, r3) ← p_value f r2;
      match expect "," r3 with
      | Some r4 => '(kvs, r5) ← p_members f r4; Some ((k, v) :: kvs, r5)
      | None => r4 ← expect "}" r3; Some ([(k, v)], r4)
      end
  end.

(** [json.loads]: one value, then only white space ([Extra data]
    otherwise). *)
Definition loads (s : string) : option json :=
  '(v, r) ← p_value (S (String.length s)) s;
  if decide (skip_ws r = EmptyString) then Some v else None.

(** A field of a decoded object: [dict(pairs)[key]], the last pair with
    that key. *)
Definition json_get (k : string) (kvs : list (string * json)) : option json :=
  foldl (λ acc kv, if decide (kv.1 = k) then Some kv.2 else acc) None kvs.

Definition str_field (k : string) (kvs : list (string * json)) : option string :=
  match json_get k kvs with Some (JStr s) => Some s | _ => None end.

(** A record of the file: an object with the four string fields. *)
Definition review_of_json (v : json) : option review :=
  match v with
  | JObj kvs =>
      url ← str_field "url" kvs; author ← str_field "author" kvs;
      date ← str_field "date" kvs; content ← str_field "content" kvs;
      Some (mkReview url author date content)
  | _ => None
  end.

(** [json.load] of a product file, then its records. *)
Definition load_reviews (s : string) : option (list review) :=
  v ← loads s;
  match v with JArr vs => mapM review_of_json vs | _ => None end.

(** The fuel the reader needs for a value: one per value and one per
    item of an array or object. *)
Fixpoint jsize (v : json) : nat :=
  match v with
  | JStr _ => 1
  | JArr vs => S (sum_list ((λ v, S (jsize v)) <$> vs))
  | JObj kvs => S (sum_list ((λ kv, S (jsize kv.2)) <$> kvs))
  end.

(** * Lemmas *)

#[local] Arguments nl : simpl never.
#[local] Arguments sconcat : simpl never.

(** The items after the first one, as [dumps_at] writes them. *)
Definition arr_items (lvl : nat) (vs : list json) : string :=
  sconcat ((λ v, "," +:+ nl (S lvl) +:+ dumps_at (S lvl) v) <$> vs).
Definition obj_items (lvl : nat) (kvs : list (string * json)) : string :=
  sconcat ((λ kv, "," +:+ nl (S lvl) +:+ encode_string kv.1 +:+ ": " +:+ dumps_at (S lvl) kv.2) <$> kvs).

Lemma sconcat_nil : sconcat [] = EmptyString.
Proof. reflexivity. Qed.

Lemma sconcat_cons s ss : sconcat (s :: ss) = s +:+ sconcat ss.
Proof. reflexivity. Qed.

Lemma skip_ws_spaces n s : skip_ws (spaces n +:+ s) = skip_ws s.
Proof. induction n as [|n IH]; [done|]. exact IH. Qed.

Lemma skip_ws_nl lvl s : skip_ws (nl lvl +:+ s) = skip_ws s.
Proof. apply skip_ws_spaces. Qed.

Lemma p_value_skip_ws F s s' : skip_ws s = skip_ws s' → p_value F s = p_value F s'.
Proof. destruct F; [done|]. simpl. by intros ->. Qed.

(** Each escaped character reads back as itself. *)
Lemma scan_escape_char c t :
  scan_string (escape_char c +:+ t) = '(x, r) ← scan_string t; Some (String c x, r).
Proof. destruct c as [[] [] [] [] [] [] [] []]; reflexivity. Qed.

Lemma scan_escape s r : scan_string (escape s +:+ String quote r) = Some (s, r).
Proof.
  induction s as [|c s IH]; [done|]. cbn [escape].
  by rewrite <- sapp_assoc, scan_escape_char, IH.
Qed.

Lemma encode_string_head s r : encode_string s +:+ r = String quote (escape s +:+ String quote r).
Proof. unfold encode_string. by rewrite sapp_cons, <- sapp_assoc. Qed.

(** What [dumps_at] writes starts with a quote or an opening bracket. *)
Lemma dumps_at_head lvl v r :
  ∃ c t, dumps_at lvl v +:+ r = String c t ∧ is_ws c = false ∧ c ≠ "]"%char ∧ c ≠ "}"%char ∧
         c ≠ ","%char.
Proof.
  destruct v as [s|[|v vs]|[|[k v] kvs]]; simpl;
    [rewrite encode_string_head| | | |]; by do 2 eexists.
Qed.

Lemma skip_ws_dumps lvl v r : skip_ws (dumps_at lvl v +:+ r) = dumps_at lvl v +:+ r.
Proof. destruct (dumps_at_head lvl v r) as (c & t & -> & Hc & _). simpl. by rewrite Hc. Qed.

Lemma expect_dumps c lvl v r :
  c = "]"%char ∨ c = "}"%char ∨ c = ","%char → expect c (dumps_at lvl v +:+ r) = None.
Proof.
  intros Hc. unfold expect. rewrite skip_ws_dumps.
  destruct (dumps_at_head lvl v r) as (c' & t & -> & _ & H1 & H2 & H3).
  rewrite decide_False; [done|]. intros ->. naive_solver.
Qed.

Lemma expect_encode c k r : c ≠ quote → expect c (encode_string k +:+ r) = None.
Proof. intros Hc. rewrite encode_string_head. unfold expect. simpl. by rewrite decide_False. Qed.

Lemma expect_nl c lvl s : expect c (nl lvl +:+ s) = expect c s.
Proof. unfold expect. by rewrite skip_ws_nl. Qed.

Lemma expect_hd c s : is_ws c = false → expect c (String c s) = Some s.
Proof. unfold expect. simpl. intros ->. by rewrite decide_True. Qed.

(** The round trip of a value, when the round trip of its items holds. *)
Section Items.
Context (lvl : nat).
Abbreviation rt v := (∀ F lvl r, jsize v ≤ F → p_value F (dumps_at lvl v +:+ r) = Some (v, r)).

Lemma p_elems_dump v vs F r :
  Forall (λ v, rt v) (v :: vs) →
  sum_list ((λ v, S (jsize v)) <$> v :: vs) ≤ F →
  p_elems F (nl (S lvl) +:+ dumps_at (S lvl) v +:+ arr_items lvl vs +:+ nl lvl +:+ "]" +:+ r) =
    Some (v :: vs, r).
Proof.
  revert v F. induction vs as [|v' vs IH]; intros v [|f] Hall Hf; simpl in Hf; [lia| |lia|];
    apply Forall_cons in Hall as [Hv Hall]; cbn [p_elems];
    rewrite (p_value_skip_ws _ _ (dumps_at (S lvl) v +:+ _)) by apply skip_ws_nl;
    rewrite Hv by lia; cbn [mbind option_bind].
  - unfold arr_items. rewrite fmap_nil, sconcat_nil, sapp_nil_l, !expect_nl. done.
  - unfold arr_items. rewrite fmap_cons, sconcat_cons, <- !sapp_assoc. simpl.
    fold (arr_items lvl vs). rewrite sapp_nil_l, IH; [done|done|]. simpl. lia.
Qed.
Lemma p_members_dump k v kvs F r :
  Forall (λ kv, rt kv.2) ((k, v) :: kvs) →
  sum_list ((λ kv, S (jsize kv.2)) <$> (k, v) :: kvs) ≤ F →
  p_members F (nl (S lvl) +:+ encode_string k +:+ ": " +:+ dumps_at (S lvl) v +:+
               obj_items lvl kvs +:+ nl lvl +:+ "}" +:+ r) =
    Some ((k, v) :: kvs, r).
Proof.
  revert k v F. induction kvs as [|[k' v'] kvs IH]; intros k v [|f] Hall Hf; simpl in Hf; [lia| |lia|];
    apply Forall_cons in Hall as [Hv Hall]; cbn [p_members];
    rewrite expect_nl, encode_string_head, expect_hd by done; cbn [mbind option_bind];
    rewrite scan_escape; cbn [mbind option_bind]; simpl;
    cbn [mbind option_bind]; rewrite (p_value_skip_ws _ _ (dumps_at (S lvl) v +:+ _)) by done;
    rewrite Hv by (simpl in *; lia); cbn [mbind option_bind].
  - unfold obj_items. rewrite fmap_nil, sconcat_nil, sapp_nil_l, !expect_nl. done.
  - unfold obj_items. rewrite fmap_cons, sconcat_cons, <- !sapp_assoc. simpl.
    fold (obj_items lvl kvs). rewrite sapp_nil_l, IH; [done|done|]. simpl. lia.
Qed.
End Items.

(** [json.loads] reads back what [dumps_at] writes, followed by any text,
    given fuel [jsize v]. *)
Lemma p_value_dump v : ∀ F lvl r, jsize v ≤ F → p_value F (dumps_at lvl v +:+ r) = Some (v, r).
Proof.
  induction v as [s|vs IH|kvs IH] using json_ind; intros [|f] lvl r Hf; simpl in Hf; try lia.
  - cbn [p_value dumps_at]. rewrite encode_string_head. simpl. by rewrite scan_escape.
  - destruct vs as [|v vs]; [done|]. cbn [dumps_at p_value]. rewrite <- !sapp_assoc. simpl.
    fold (arr_items lvl vs). rewrite !sapp_nil_l, expect_nl, expect_dumps by auto.
    rewrite p_elems_dump; [done|done|lia].
  - destruct kvs as [|[k v] kvs]; [done|]. cbn [dumps_at p_value]. rewrite <- !sapp_assoc. simpl.
    fold (obj_items lvl kvs). rewrite !sapp_nil_l, expect_nl, expect_encode by done.
    rewrite p_members_dump; [done|done|lia].
Qed.

Lemma spaces_length n : String.length (spaces n) = n.
Proof. induction n; simpl; auto. Qed.

Lemma nl_length lvl : String.length (nl lvl) = S (4 * lvl).
Proof. unfold nl. simpl. by rewrite spaces_length. Qed.

Lemma encode_string_length s : 2 ≤ String.length (encode_string s).
Proof. unfold encode_string. simpl. rewrite sapp_length. simpl. lia. Qed.

#[local] Hint Rewrite sapp_length nl_length : crawl_rw.

(** The reader's fuel: at most one per character. *)
Lemma jsize_length v : ∀ lvl, jsize v ≤ String.length (dumps_at lvl v).
Proof.
  induction v as [s|vs IH|kvs IH] using json_ind; intros lvl.
  - simpl. pose proof (encode_string_length s). lia.
  - destruct vs as [|v vs]; [simpl; lia|]. cbn [dumps_at jsize].
    fold (arr_items lvl vs). apply Forall_cons in IH as [Hv IH].
    assert (sum_list ((λ v, S (jsize v)) <$> vs) ≤ String.length (arr_items lvl vs)).
    { unfold arr_items. induction IH as [|v' vs Hv' _ IH']; [simpl; lia|].
      rewrite !fmap_cons, sconcat_cons. simpl. autorewrite with crawl_rw. specialize (Hv' (S lvl)). lia. }
    rewrite fmap_cons. cbn [sum_list id]. rewrite !sapp_length, !nl_length. cbn [String.length]. specialize (Hv (S lvl)). lia.
  - destruct kvs as [|[k v] kvs]; [simpl; lia|]. cbn [dumps_at jsize].
    fold (obj_items lvl kvs). apply Forall_cons in IH as [Hv IH]. simpl in Hv.
    assert (sum_list ((λ kv, S (jsize kv.2)) <$> kvs) ≤ String.length (obj_items lvl kvs)).
    { unfold obj_items. induction IH as [|[k' v'] kvs Hv' _ IH']; [simpl; lia|].
      rewrite !fmap_cons, sconcat_cons. cbn [sum_list id snd fst] in *. rewrite !sapp_length, !nl_length. cbn [String.length]. specialize (Hv' (S lvl)). pose proof (encode_string_length k'). lia. }
    rewrite fmap_cons. cbn [sum_list id snd]. rewrite !sapp_length, !nl_length. cbn [String.length]. specialize (Hv (S lvl)). pose proof (encode_string_length k). lia.
Qed.

Lemma loads_dump lvl v : loads (dumps_at lvl v) = Some v.
Proof.
  unfold loads. rewrite <- (sapp_nil_r (dumps_at lvl v)) at 2.
  rewrite p_value_dump; [done|]. pose proof (jsize_length v lvl). lia.
Qed.

Lemma mapM_review_json rs : mapM review_of_json (review_json <$> rs) = Some rs.
Proof. induction rs as [|r rs IH]; [done|]. rewrite fmap_cons. cbn [mapM]. rewrite IH. by destruct r. Qed.

(** * The round trips *)

(** [json.loads] reads back every value the encoder writes, at any
    indentation level: strings with any characters (quotes, backslashes and
    control characters escaped), arrays and objects nested to any depth;
    the fuel [1 + length] of the text is enough. *)
Lemma dumps_at_loads lvl v : loads (dumps_at lvl v) = Some v.
Proof.
  unfold loads. rewrite <- (sapp_nil_r (dumps_at lvl v)) at 2.
  rewrite p_value_dump; [done|]. pose proof (jsize_length v lvl). lia.
Qed.

(** C22: a product file holds its records: [json.load] of the text that
    [json.dump(self.comments, file, ensure_ascii=False, indent=4)] writes
    gives back the list of records, in order, each with its four fields,
    whatever characters the fields hold (quotes, backslashes and control
    characters are escaped and read back). *)
Theorem json_dump_load rs : load_reviews (json_dump rs) = Some rs.
Proof.
  unfold load_reviews, json_dump. rewrite dumps_at_loads. apply mapM_review_json.
Qed.

(** * The text of a file *)

Definition lf : string := String "010" EmptyString.
Definition quoted (s : string) : string := String quote (s +:+ String quote EmptyString).

(** The file of one review, character for character as CPython writes it. *)
Example json_dump_one :
  json_dump [mkReview "https://www.eldorado.ru/a" "Ann" "01.01.2021" "ok"] =
    "[" +:+ lf +:+ "    {" +:+ lf +:+
    "        " +:+ quoted "url" +:+ ": " +:+ quoted "https://www.eldorado.ru/a" +:+ "," +:+ lf +:+
    "        " +:+ quoted "author" +:+ ": " +:+ quoted "Ann" +:+ "," +:+ lf +:+
    "        " +:+ quoted "date" +:+ ": " +:+ quoted "01.01.2021" +:+ "," +:+ lf +:+
    "        " +:+ quoted "content" +:+ ": " +:+ quoted "ok" +:+ lf +:+
    "    }" +:+ lf +:+ "]".
Proof. reflexivity. Qed.

(** A tab, a double quote and the unit separator [0x1f] in a field are
    escaped; the slash is not. *)
Example encode_string_escapes :
  encode_string (String "009" (String quote (String "031" "/"))) =
    quoted (String bslash ("t" +:+ String bslash (String quote (String bslash "u001f/")))).
Proof. reflexivity. Qed.
