(* ===== verification/Async.v ===== *)
(** asyncio as the crawler uses it.  The body of a coroutine is a [proc]:
    a tree of its synchronous actions on the shared state ([PAct], which may
    raise), its awaits ([PGet] for [session.get]/[res.text()], [PSleep] for
    [asyncio.sleep]), and [PGather ts k] for [asyncio.create_task] of each
    [t] followed by [await asyncio.gather(...)].  An [await] of a coroutine
    (not a task) is sequential composition [pseq].  A configuration is the
    shared state and the task list (a task's index is its identity, new
    tasks are appended); [step] is the cooperative scheduler: any task whose
    await can complete resumes and runs, without interruption, up to its
    next await ([settle]).  A [gather] whose child raised passes the
    exception to its awaiting task; the other children keep running.  The
    network is an oracle [fetch] from a request to a response or an
    exception.  The section proves the scheduler's invariants: task trees
    are well formed, a configuration with an unfinished task can always step
    (progress), every run is finite (a measure decreases), and the
    executable scheduler [run_sched] follows [step].  Three properties of a
    coroutine's tree are kept by every step for every task it creates: its
    requests satisfy a predicate ([reqs_ok]), its actions move the state
    along a preorder ([acts_ok]), and it raises along every answer
    ([must_raise], so the task never returns normally). *)

From S2P Require Import Prelude PyBase.
From stdpp Require Import list_numbers.

(** An HTTP GET: URL, query parameters, headers. *)
Record request := mkRequest {
  rq_url : string;
  rq_params : list (string * string);
  rq_headers : list (string * string)
}.

Section Async.
(** The shared state of the program's objects, and a response. *)
Context {W Resp : Type}.
(** The network. *)
Context (fetch : request → result Resp).

#[local] Set Warnings "-register-all".
Inductive proc :=
| PRet
| PRaise (e : exn)
| PAct (f : W → result W) (k : proc)
| PGet (rq : request) (k : Resp → proc)
| PSleep (ms : Z) (k : proc)
| PGather (ts : list proc) (k : proc).

(** [await coro()] followed by [q]. *)
Fixpoint pseq (p q : proc) : proc :=
  match p with
  | PRet => q
  | PRaise e => PRaise e
  | PAct f k => PAct f (pseq k q)
  | PGet rq k => PGet rq (λ r, pseq (k r) q)
  | PSleep ms k => PSleep ms (pseq k q)
  | PGather ts k => PGather ts (pseq k q)
  end.

Inductive task :=
| TRun (p : proc)                      (* created, or suspended at the await heading [p] *)
| TWait (ids : list nat) (k : proc)    (* awaiting the gather of the tasks [ids] *)
| TDone (r : option exn).              (* returned, or raised [e] *)

Record config := mkConfig { c_world : W; c_tasks : list task }.

(** Run the synchronous code at the head of [p], up to the next await. A
    [gather()] of no task completes without suspending. *)
Fixpoint settle (w : W) (p : proc) : W * proc :=
  match p with
  | PAct f k =>
      match f w with
      | Ok w' => settle w' k
      | Err e => (w, PRaise e)
      end
  | PGather [] k => settle w k
  | _ => (w, p)
  end.

(** The await at the head of [p] completes (a fetch returns or raises, a
    sleep ends), or a new task starts; then its code runs up to the next
    await. *)
Definition resume (w : W) (p : proc) : W * proc :=
  match p with
  | PGet rq k =>
      match fetch rq with
      | Ok r => settle w (k r)
      | Err e => (w, PRaise e)
      end
  | PSleep _ k => settle w k
  | _ => settle w p
  end.

(** Task [i] has run to [p]: it finished, raised, suspended, or created
    the tasks of a gather (appended, in order) and awaits them. *)
Definition park (i : nat) (p : proc) (ts : list task) : list task :=
  match p with
  | PRet => <[i := TDone None]> ts
  | PRaise e => <[i := TDone (Some e)]> ts
  | PGather cs k => <[i := TWait (seq (length ts) (length cs)) k]> ts ++ (TRun <$> cs)
  | _ => <[i := TRun p]> ts
  end.

Inductive step (c : config) : config → Prop :=
| step_run i p w' p' :
    c_tasks c !! i = Some (TRun p) →
    resume (c_world c) p = (w', p') →
    step c (mkConfig w' (park i p' (c_tasks c)))
| step_join i ids k w' p' :
    c_tasks c !! i = Some (TWait ids k) →
    Forall (λ j, c_tasks c !! j = Some (TDone None)) ids →
    settle (c_world c) k = (w', p') →
    step c (mkConfig w' (park i p' (c_tasks c)))
| step_fail i ids k j e :
    c_tasks c !! i = Some (TWait ids k) →
    j ∈ ids →
    c_tasks c !! j = Some (TDone (Some e)) →
    step c (mkConfig (c_world c) (<[i := TDone (Some e)]> (c_tasks c))).

(** ** The executable scheduler *)

Definition done_ok (ts : list task) (j : nat) : bool :=
  match ts !! j with Some (TDone None) => true | _ => false end.

(** The exception of the first child, in [ids] order, that raised. *)
Fixpoint first_failure (ts : list task) (ids : list nat) : option (nat * exn) :=
  match ids with
  | [] => None
  | j :: ids' =>
      match ts !! j with
      | Some (TDone (Some e)) => Some (j, e)
      | _ => first_failure ts ids'
      end
  end.

(** One step of task [i], when it can take one. *)
Definition step_task (c : config) (i : nat) : option config :=
  match c_tasks c !! i with
  | Some (TRun p) =>
      let '(w', p') := resume (c_world c) p in Some (mkConfig w' (park i p' (c_tasks c)))
  | Some (TWait ids k) =>
      match first_failure (c_tasks c) ids with
      | Some (_, e) => Some (mkConfig (c_world c) (<[i := TDone (Some e)]> (c_tasks c)))
      | None =>
          if forallb (done_ok (c_tasks c)) ids then
            let '(w', p') := settle (c_world c) k in
            Some (mkConfig w' (park i p' (c_tasks c)))
          else None
      end
  | _ => None
  end.

(** Run the tasks in the order of the schedule [s]. *)
Fixpoint run_sched (c : config) (s : list nat) : option config :=
  match s with
  | [] => Some c
  | i :: s' => c' ← step_task c i; run_sched c' s'
  end.

(** Keep running the first task that can step. *)
Definition first_enabled (c : config) : option config :=
  head (omap (step_task c) (seq 0 (length (c_tasks c)))).

Fixpoint run_first (fuel : nat) (c : config) : config :=
  match fuel with
  | O => c
  | S f => match first_enabled c with Some c' => run_first f c' | None => c end
  end.

(** ** Well-formedness, progress and termination *)

Definition finished (t : task) : Prop := ∃ r, t = TDone r.

(** The children of a waiting task come after it and exist. *)
Definition wf (c : config) : Prop :=
  ∀ i ids k, c_tasks c !! i = Some (TWait ids k) →
    ∀ j, j ∈ ids → i < j < length (c_tasks c).

(** The number of steps a proc can still take, along the oracle's
    answers. *)
Fixpoint psize (p : proc) : nat :=
  match p with
  | PRet | PRaise _ => 0
  | PAct _ k => S (psize k)
  | PGet rq k => S (match fetch rq with Ok r => psize (k r) | Err _ => 0 end)
  | PSleep _ k => S (psize k)
  | PGather ts k =>
      2 + (fix go (l : list proc) : nat :=
             match l with [] => 0 | t :: l' => S (psize t) + go l' end) ts + psize k
  end.

Definition tsize (t : task) : nat :=
  match t with
  | TRun p => S (psize p)
  | TWait _ k => 2 + psize k
  | TDone _ => 0
  end.

Definition measure (c : config) : nat := sum_list_with tsize (c_tasks c).

(** What [park] adds to the measure, in place of the parked task. *)
Definition park_cost (p : proc) : nat :=
  match p with
  | PRet | PRaise _ => 0
  | PGather _ _ => psize p
  | _ => S (psize p)
  end.

(** * Lemmas *)

(** ** The executable scheduler follows [step] *)

Lemma first_failure_some ts ids j e :
  first_failure ts ids = Some (j, e) → j ∈ ids ∧ ts !! j = Some (TDone (Some e)).
Proof.
  induction ids as [|j' ids IH]; simpl; [done|].
  destruct (ts !! j') as [[| |[e'|]]|] eqn:E; intros H;
    try (destruct (IH H); split; [by right|done]).
  injection H as <- <-. split; [left|done].
Qed.

Lemma first_failure_none ts ids j e :
  first_failure ts ids = None → j ∈ ids → ts !! j ≠ Some (TDone (Some e)).
Proof.
  induction ids as [|j' ids IH]; simpl; [by intros _ ?%elem_of_nil|].
  destruct (ts !! j') as [[| |[e'|]]|] eqn:E; intros H [->|Hin]%elem_of_cons;
    try congruence; by apply IH.
Qed.

Lemma forallb_done_ok ts ids :
  forallb (done_ok ts) ids = true → Forall (λ j, ts !! j = Some (TDone None)) ids.
Proof.
  intros H. rewrite forallb_forall in H. apply Forall_forall. intros j Hj.
  apply list_elem_of_In, H in Hj. unfold done_ok in Hj. by repeat case_match.
Qed.

Lemma step_task_sound c i c' : step_task c i = Some c' → step c c'.
Proof.
  unfold step_task. destruct (c_tasks c !! i) as [[p|ids k|r]|] eqn:Hi; try done.
  - destruct (resume _ p) as [w' p'] eqn:Hr. intros [= <-]. by eapply step_run.
  - destruct (first_failure _ ids) as [[j e]|] eqn:Hf.
    + intros [= <-]. apply first_failure_some in Hf as [Hj He]. by eapply step_fail.
    + destruct (forallb _ ids) eqn:Hall; [|done].
      destruct (settle _ k) as [w' p'] eqn:Hs. intros [= <-].
      eapply step_join; [done| |done]. by apply forallb_done_ok.
Qed.

Lemma run_sched_sound c s c' : run_sched c s = Some c' → rtc step c c'.
Proof.
  revert c; induction s as [|i s IH]; intros c; simpl; [by intros [= ->]|].
  destruct (step_task c i) as [c1|] eqn:E; simpl; [|done].
  intros H. apply rtc_l with c1; [by apply step_task_sound with i|]. by apply IH.
Qed.

Lemma first_enabled_sound c c' : first_enabled c = Some c' → step c c'.
Proof.
  unfold first_enabled. destruct (omap _ _) as [|c1 l] eqn:E; simpl; [done|].
  intros [= <-]. assert (Hin : c1 ∈ omap (step_task c) (seq 0 (length (c_tasks c))))
    by (rewrite E; left).
  apply list_elem_of_omap in Hin as (i & _ & Hi). by eapply step_task_sound.
Qed.

Lemma run_first_sound fuel c : rtc step c (run_first fuel c).
Proof.
  revert c; induction fuel as [|fuel IH]; intros c; simpl; [done|].
  destruct (first_enabled c) as [c1|] eqn:E; [|done].
  apply rtc_l with c1; [by apply first_enabled_sound|]. apply IH.
Qed.

(** ** Every step decreases the measure *)

Lemma psize_gather cs k :
  psize (PGather cs k) = 2 + sum_list_with (λ t, S (psize t)) cs + psize k.
Proof. induction cs as [|t cs IH]; [reflexivity|]. simpl in *. lia. Qed.

Lemma park_cost_le p : park_cost p ≤ S (psize p).
Proof. destruct p; simpl; lia. Qed.

Lemma settle_cost w p w' p' : settle w p = (w', p') → park_cost p' ≤ park_cost p.
Proof.
  revert w; induction p as [|e|f k IH|rq k IHk|ms k IHk|ts k IH]; intros w; simpl;
    try (intros [= <- <-]; simpl; lia).
  - destruct (f w) as [w1|e']; [|intros [= <- <-]; simpl; lia].
    intros H%IH. pose proof (park_cost_le k). lia.
  - destruct ts as [|t ts]; [|intros [= <- <-]; simpl; lia].
    intros H%IH. pose proof (park_cost_le k). simpl. lia.
Qed.

Lemma resume_cost w p w' p' : resume w p = (w', p') → park_cost p' < S (psize p).
Proof.
  destruct p as [|e|f k|rq k|ms k|[|t ts] k]; simpl; try (intros [= <- <-]; simpl; lia).
  - destruct (f w) as [w1|e']; [|intros [= <- <-]; simpl; lia].
    intros H%settle_cost. pose proof (park_cost_le k). lia.
  - destruct (fetch rq) as [r|e']; [|intros [= <- <-]; simpl; lia].
    intros H%settle_cost. pose proof (park_cost_le (k r)). lia.
  - intros H%settle_cost. pose proof (park_cost_le k). lia.
  - intros H%settle_cost. pose proof (park_cost_le k). simpl. lia.
Qed.

Lemma sum_insert {A} (f : A → nat) (l : list A) i x y :
  l !! i = Some y → sum_list_with f (<[i:=x]> l) + f y = sum_list_with f l + f x.
Proof.
  revert i; induction l as [|z l IH]; intros [|i]; simpl; try done.
  - intros [= ->]. lia.
  - intros H. specialize (IH i H). lia.
Qed.

Lemma sum_fmap_TRun cs :
  sum_list_with tsize (TRun <$> cs) = sum_list_with (λ t, S (psize t)) cs.
Proof. induction cs; simpl; auto. Qed.

Lemma park_measure i p ts t :
  ts !! i = Some t →
  sum_list_with tsize (park i p ts) + tsize t = sum_list_with tsize ts + park_cost p.
Proof.
  intros Hi. destruct p as [|e|f k|rq k|ms k|cs k]; unfold park, park_cost;
    try (rewrite (sum_insert _ _ _ _ t); simpl; [lia|done]).
  rewrite sum_list_with_app, sum_fmap_TRun, psize_gather.
  pose proof (sum_insert tsize ts i (TWait (seq (length ts) (length cs)) k) t Hi).
  simpl in *. lia.
Qed.

Lemma measure_step c c' : step c c' → measure c' < measure c.
Proof.
  unfold measure. intros [i p w' p' Hi Hr|i ids k w' p' Hi _ Hs|i ids k j e Hi _ _];
    simpl.
  - apply resume_cost in Hr. pose proof (park_measure i p' _ _ Hi). simpl in *. lia.
  - apply settle_cost in Hs. pose proof (park_measure i p' _ _ Hi).
    pose proof (park_cost_le k). simpl in *. lia.
  - pose proof (sum_insert tsize _ i (TDone (Some e)) _ Hi). simpl in *. lia.
Qed.

(** Every run of the scheduler is finite: it takes at most [measure c]
    steps. *)
Lemma nsteps_measure n c c' : nsteps step n c c' → n ≤ measure c.
Proof.
  induction 1 as [|n c1 c2 c3 Hs _ IH]; [lia|].
  apply measure_step in Hs. lia.
Qed.

(** ** Well-formed task trees *)

(** [park] overwrites task [i] whatever it held. *)
Lemma park_insert i p x ts : park i p (<[i := x]> ts) = park i p ts.
Proof. destruct p; simpl; by rewrite ?length_insert, list_insert_insert_eq. Qed.

(** Parking a task after a prefix that does not create tasks leaves the
    prefix alone. *)
Lemma park_app_r l1 l2 j p :
  (∀ cs k, p ≠ PGather cs k) → park (length l1 + j) p (l1 ++ l2) = l1 ++ park j p l2.
Proof. intros Hp. destruct p as [| | | | |cs k]; simpl; try apply insert_app_r. by destruct (Hp cs k). Qed.

Lemma park_length i p ts : length ts ≤ length (park i p ts).
Proof. destruct p; simpl; rewrite ?length_app, length_insert; lia. Qed.

Lemma park_wait i p ts j ids k :
  i < length ts → park i p ts !! j = Some (TWait ids k) →
  (j = i ∧ ∃ cs, p = PGather cs k ∧ ids = seq (length ts) (length cs) ∧
                 length (park i p ts) = length ts + length cs) ∨
  (j ≠ i ∧ ts !! j = Some (TWait ids k)).
Proof.
  intros Hi Hj. destruct (decide (j = i)) as [->|Hne].
  - revert Hj. destruct p as [|e|f k'|rq k'|ms k'|cs k']; simpl;
      rewrite ?lookup_app_l, ?list_lookup_insert_eq by (rewrite ?length_insert; done);
      try done.
    intros [= <- <-]. left. split; [done|]. exists cs.
    by rewrite length_app, length_insert, length_fmap.
  - right. split; [done|]. revert Hj.
    destruct p as [|e|f k'|rq k'|ms k'|cs k']; simpl;
      try (by rewrite list_lookup_insert_ne).
    destruct (decide (j < length ts)).
    + rewrite lookup_app_l, list_lookup_insert_ne by (rewrite ?length_insert; done). done.
    + rewrite lookup_app_r by (rewrite length_insert; lia).
      rewrite length_insert, list_lookup_fmap.
      by destruct (cs !! _).
Qed.

Lemma wf_park w w' i t p ts :
  wf (mkConfig w ts) → ts !! i = Some t → wf (mkConfig w' (park i p ts)).
Proof.
  intros Hwf Hi i' ids k Hi' j Hj. simpl in *.
  apply lookup_lt_Some in Hi as Hlt. pose proof (park_length i p ts).
  destruct (park_wait i p ts i' ids k Hlt Hi') as [(-> & cs & -> & -> & Hlen) | (_ & Hold)].
  - apply elem_of_seq in Hj. lia.
  - specialize (Hwf i' ids k Hold j Hj). simpl in Hwf. lia.
Qed.

Lemma wf_step c c' : wf c → step c c' → wf c'.
Proof.
  intros Hwf [i p w' p' Hi _|i ids k w' p' Hi _ _|i ids k j e Hi _ _].
  - destruct c. by eapply wf_park.
  - destruct c. by eapply wf_park.
  - intros i' ids' k' Hi' j' Hj'. simpl in *. rewrite length_insert.
    destruct (decide (i' = i)) as [->|Hne].
    + rewrite list_lookup_insert_eq in Hi' by (by eapply lookup_lt_Some). done.
    + rewrite list_lookup_insert_ne in Hi' by done. by apply (Hwf i' ids' k').
Qed.

Lemma wf_rtc c c' : wf c → rtc step c c' → wf c'.
Proof. intros Hwf Hs. induction Hs; eauto using wf_step. Qed.

(** ** Progress and completion *)

Definition unfinished_at (ts : list task) (i : nat) : bool :=
  match ts !! i with Some (TRun _) | Some (TWait _ _) => true | _ => false end.

Lemma unfinished_lt ts i : unfinished_at ts i = true → i < length ts.
Proof.
  unfold unfinished_at. destruct (ts !! i) eqn:E; [|done].
  intros _. by eapply lookup_lt_Some.
Qed.

(** The last unfinished task: every task after it has finished. *)
Lemma last_unfinished ts i0 :
  unfinished_at ts i0 = true →
  ∃ i, unfinished_at ts i = true ∧ ∀ j, i < j → unfinished_at ts j = false.
Proof.
  intros H0. set (l := List.filter (unfinished_at ts) (seq 0 (length ts))).
  assert (Hmem : ∀ j, j ∈ l ↔ unfinished_at ts j = true).
  { intros j. unfold l. rewrite list_elem_of_In, filter_In, <- list_elem_of_In, elem_of_seq.
    split; [naive_solver|]. intros Hj. apply unfinished_lt in Hj as ?. split; [lia|done]. }
  exists (max_list l). split.
  - apply Hmem, max_list_elem_of. intros Hl. apply (proj2 (Hmem i0)) in H0.
    rewrite Hl in H0. by apply elem_of_nil in H0.
  - intros j Hj. destruct (unfinished_at ts j) eqn:E; [|done].
    apply Hmem, max_list_elem_of_le in E. lia.
Qed.

(** A configuration with an unfinished task can step. *)
Lemma progress c i0 :
  wf c → unfinished_at (c_tasks c) i0 = true → ∃ c', step c c'.
Proof.
  intros Hwf H0. destruct (last_unfinished _ _ H0) as (i & Hi & Hmax).
  unfold unfinished_at in Hi. destruct (c_tasks c !! i) as [[p|ids k|r]|] eqn:E; try done.
  - destruct (resume (c_world c) p) as [w' p'] eqn:Hr. eexists. by eapply step_run.
  - destruct (first_failure (c_tasks c) ids) as [[j e]|] eqn:Hf.
    + apply first_failure_some in Hf as [Hj He]. eexists. by eapply step_fail.
    + destruct (settle (c_world c) k) as [w' p'] eqn:Hs. eexists.
      eapply step_join; [done| |done]. apply Forall_forall. intros j Hj.
      destruct (Hwf i ids k E j Hj) as [Hij Hlt].
      specialize (Hmax j Hij). unfold unfinished_at in Hmax.
      destruct (lookup_lt_is_Some_2 _ _ Hlt) as [t Ht]. rewrite Ht in Hmax |- *.
      destruct t as [| |[e|]]; try done. exfalso. by apply (first_failure_none _ _ j e Hf Hj).
Qed.

(** From every well-formed configuration some schedule finishes every
    task. *)
Lemma run_to_completion c :
  wf c → ∃ c', rtc step c c' ∧ ∀ i, unfinished_at (c_tasks c') i = false.
Proof.
  remember (measure c) as n eqn:Hn. revert c Hn.
  induction n as [n IH] using lt_wf_ind. intros c -> Hwf.
  destruct (existsb (unfinished_at (c_tasks c)) (seq 0 (length (c_tasks c)))) eqn:E.
  - apply existsb_exists in E as (i0 & _ & Hi0).
    destruct (progress c i0 Hwf Hi0) as [c1 Hs].
    destruct (IH (measure c1) (measure_step c c1 Hs) c1 eq_refl (wf_step c c1 Hwf Hs))
      as (c' & Hs' & Hfin).
    exists c'. split; [by eapply rtc_l|done].
  - exists c. split; [done|]. intros i.
    destruct (unfinished_at (c_tasks c) i) eqn:Hi; [|done].
    apply unfinished_lt in Hi as Hlt.
    assert (existsb (unfinished_at (c_tasks c)) (seq 0 (length (c_tasks c))) = true);
      [|congruence].
    apply existsb_exists. exists i. split; [|done].
    apply list_elem_of_In, elem_of_seq. lia.
Qed.
(** ** The executable scheduler runs to completion *)

Lemma done_ok_forallb ts ids :
  Forall (λ j, ts !! j = Some (TDone None)) ids → forallb (done_ok ts) ids = true.
Proof.
  intros H. apply forallb_forall. intros j Hj%list_elem_of_In.
  unfold done_ok. by rewrite (proj1 (Forall_forall _ _) H j Hj).
Qed.

(** Whenever [step] can move, some task can take a [step_task]. *)
Lemma step_task_complete c c' : step c c' → ∃ i, is_Some (step_task c i).
Proof.
  intros [i p w' p' Hi _|i ids k w' p' Hi Hall _|i ids k j e Hi Hj Hje];
    exists i; unfold step_task; rewrite Hi.
  - destruct (resume _ p). by eexists.
  - destruct (first_failure _ ids) as [[??]|]; [by eexists|].
    rewrite done_ok_forallb by done. destruct (settle _ k). by eexists.
  - destruct (first_failure _ ids) as [[??]|] eqn:Hf; [by eexists|].
    exfalso. by apply (first_failure_none _ _ j e Hf Hj).
Qed.

Lemma first_enabled_none c c' : first_enabled c = None → ¬ step c c'.
Proof.
  intros Hn Hs. destruct (step_task_complete c c' Hs) as [i [c1 Hi]].
  assert (Hlt : i < length (c_tasks c)).
  { unfold step_task in Hi. destruct (c_tasks c !! i) eqn:E; [by eapply lookup_lt_Some|done]. }
  assert (Hin : c1 ∈ omap (step_task c) (seq 0 (length (c_tasks c)))).
  { apply list_elem_of_omap. exists i. split; [apply elem_of_seq; lia|done]. }
  unfold first_enabled in Hn. destruct (omap _ _); [by apply elem_of_nil in Hin|done].
Qed.

(** Tasks are never removed. *)
Lemma rtc_length c c' : rtc step c c' → length (c_tasks c) ≤ length (c_tasks c').
Proof.
  induction 1 as [|c1 c2 c3 Hs _ IH]; [done|].
  destruct Hs as [i p w' p' _ _|i ids k w' p' _ _ _|i ids k j e _ _ _]; simpl in *;
    [pose proof (park_length i p' (c_tasks c1))|pose proof (park_length i p' (c_tasks c1))
    |rewrite length_insert in IH]; lia.
Qed.

Lemma wf_single w p : wf (mkConfig w [TRun p]).
Proof. intros [|[]] ids k; simpl; done. Qed.
Lemma step_lookup_some c c' i :
  step c c' → is_Some (c_tasks c !! i) → is_Some (c_tasks c' !! i).
Proof.
  intros Hs. rewrite !lookup_lt_is_Some. pose proof (rtc_length _ _ (rtc_once _ _ Hs)). lia.
Qed.

(** ** [asyncio.run]: the loop runs until the main task has finished *)

(** The main task is task [0]; when it has finished the loop stops and the
    tasks still pending are cancelled. *)
Fixpoint run_until_complete (fuel : nat) (c : config) : config :=
  match fuel with
  | O => c
  | S f =>
      match c_tasks c !! 0 with
      | Some (TDone _) => c
      | _ => match first_enabled c with Some c' => run_until_complete f c' | None => c end
      end
  end.

Lemma run_until_complete_sound fuel c : rtc step c (run_until_complete fuel c).
Proof.
  revert c; induction fuel as [|fuel IH]; intros c; simpl; [done|].
  destruct (c_tasks c !! 0) as [[| |]|]; try done;
    destruct (first_enabled c) as [c1|] eqn:E; try done;
    (eapply rtc_l; [by apply first_enabled_sound|apply IH]).
Qed.

Lemma run_until_complete_stop fuel c r :
  c_tasks c !! 0 = Some (TDone r) → run_until_complete fuel c = c.
Proof. intros H. destruct fuel; simpl; by rewrite ?H. Qed.

(** With fuel [measure c], the main task of a well-formed configuration has
    finished when [run_until_complete] stops. *)
Lemma run_until_complete_done fuel c :
  wf c → is_Some (c_tasks c !! 0) → measure c ≤ fuel →
  ∃ r, c_tasks (run_until_complete fuel c) !! 0 = Some (TDone r).
Proof.
  revert c; induction fuel as [|fuel IH]; intros c Hwf [t0 H0] Hle.
  all: destruct t0 as [p|ids k|r]; [| |exists r; by rewrite run_until_complete_stop with (r := r)].
  all: destruct (progress c 0 Hwf) as [c' Hs]; [unfold unfinished_at; by rewrite H0|].
  1,2: apply measure_step in Hs; lia.
  all: simpl; rewrite H0.
  all: destruct (first_enabled c) as [c1|] eqn:E; [|by destruct (first_enabled_none c c' E)].
  all: apply first_enabled_sound in E; apply IH;
    [by eapply wf_step|by eapply step_lookup_some|apply measure_step in E; lia].
Qed.
(** ** Who awaits whom *)

(** Every task except the main one that has not returned normally is
    awaited by an earlier task, or has an earlier task that raised. *)
Definition owned (c : config) : Prop :=
  ∀ j t, c_tasks c !! j = Some t → t ≠ TDone None → 0 < j →
    ∃ i, i < j ∧ ((∃ ids k, c_tasks c !! i = Some (TWait ids k) ∧ j ∈ ids) ∨
                  ∃ e, c_tasks c !! i = Some (TDone (Some e))).

Lemma park_lookup_ne i p ts j : j ≠ i → j < length ts → park i p ts !! j = ts !! j.
Proof.
  intros Hne Hlt. destruct p; simpl;
    try rewrite lookup_app_l by (by rewrite length_insert); by rewrite list_lookup_insert_ne.
Qed.

Lemma park_lookup_new i p ts j t :
  i < length ts → length ts ≤ j → park i p ts !! j = Some t →
  ∃ (cs : list proc) k, park i p ts !! i = Some (TWait (seq (length ts) (length cs)) k) ∧
          j ∈ seq (length ts) (length cs).
Proof.
  intros Hi Hj. destruct p as [| | | | |cs k]; simpl;
    try (rewrite lookup_ge_None_2; [intros [=]|rewrite length_insert; lia]).
  rewrite lookup_app_r, length_insert, list_lookup_fmap by (rewrite length_insert; lia).
  intros Ht. exists cs, k. split.
  - by rewrite lookup_app_l, list_lookup_insert_eq by (rewrite ?length_insert; done).
  - apply elem_of_seq. destruct (cs !! (j - length ts)) eqn:E; [|done].
    apply lookup_lt_Some in E. lia.
Qed.

(** Parking a running task, or a waiting task none of whose children is
    pending, keeps every task owned. *)
Lemma owned_park w w' i p t ts :
  owned (mkConfig w ts) → ts !! i = Some t → (∀ r, t ≠ TDone r) →
  (∀ ids k j, t = TWait ids k → j ∈ ids → ts !! j = Some (TDone None)) →
  owned (mkConfig w' (park i p ts)).
Proof.
  intros Ho Hi H1 H2 j t' Hj Ht' Hj0; simpl in *. apply lookup_lt_Some in Hi as Hlt.
  destruct (decide (j = i)) as [->|Hne].
  { destruct (Ho i t Hi (H1 None) Hj0) as (i' & Hi' & Hw); simpl in Hw. exists i'.
    by rewrite park_lookup_ne by lia. }
  destruct (decide (j < length ts)) as [Hjl|Hjl].
  - rewrite park_lookup_ne in Hj by done. destruct (Ho j t' Hj Ht' Hj0) as (i' & Hi' & Hw); simpl in Hw.
    destruct (decide (i' = i)) as [->|Hne'].
    + exfalso. destruct Hw as [(ids & k & Hw & Hin)|(e & Hw)]; rewrite Hi in Hw;
        injection Hw as ->; [|by apply (H1 (Some e))].
      rewrite (H2 ids k j eq_refl Hin) in Hj. congruence.
    + exists i'. split; [done|]. by rewrite park_lookup_ne by lia.
  - destruct (park_lookup_new i p ts j t' Hlt ltac:(lia) Hj) as (cs & k & Hw & Hin).
    exists i. split; [lia|]. left. eauto.
Qed.

Lemma owned_fail w i ids k e ts :
  owned (mkConfig w ts) → ts !! i = Some (TWait ids k) →
  owned (mkConfig w (<[i := TDone (Some e)]> ts)).
Proof.
  intros Ho Hi j t Hj Ht Hj0; simpl in *.
  destruct (decide (j = i)) as [->|Hne].
  - destruct (Ho i _ Hi ltac:(done) Hj0) as (i' & Hi' & Hw); simpl in Hw. exists i'.
    by rewrite list_lookup_insert_ne by lia.
  - rewrite list_lookup_insert_ne in Hj by done.
    destruct (Ho j t Hj Ht Hj0) as (i' & Hi' & Hw); simpl in Hw. exists i'. split; [done|].
    destruct (decide (i' = i)) as [->|Hne'].
    + right. exists e. by rewrite list_lookup_insert_eq by (by eapply lookup_lt_Some).
    + by rewrite list_lookup_insert_ne.
Qed.

Lemma owned_step c c' : owned c → step c c' → owned c'.
Proof.
  destruct c as [w ts]. intros Ho [i p w' p' Hi _|i ids k w' p' Hi Hall _|i ids k j e Hi _ _].
  - eapply owned_park; [done|done|by intros ? ?|by intros ??? ?].
  - eapply owned_park; [done|done|by intros ? ?|]. intros ?? j [= <- <-] Hj.
    by apply (proj1 (Forall_forall _ _) Hall j).
  - by eapply owned_fail.
Qed.

Lemma owned_rtc c c' : owned c → rtc step c c' → owned c'.
Proof. intros Ho Hs. induction Hs; eauto using owned_step. Qed.

Lemma owned_single w p : owned (mkConfig w [TRun p]).
Proof. intros [|j] t Hj _ ?; [lia|by destruct j]. Qed.

(** In an owned configuration whose main task returned normally, every
    task returned normally. *)
Lemma owned_done c :
  owned c → c_tasks c !! 0 = Some (TDone None) →
  ∀ j t, c_tasks c !! j = Some t → t = TDone None.
Proof.
  intros Ho H0 j. induction j as [j IH] using lt_wf_ind. intros t Hj.
  destruct j as [|j]; [congruence|].
  destruct t as [p|ids k|[e|]]; [| | |done]; exfalso;
    (destruct (Ho _ _ Hj ltac:(done) ltac:(lia)) as (i & Hlt & [(ids' & k' & Hi & _)|(e' & Hi)]);
    discriminate (IH i Hlt _ Hi)).
Qed.

(** When the main task of a coroutine run alone returns normally, whatever
    the schedule, every task it created has returned normally. *)
Theorem returned_main_all_done w p c' :
  rtc step (mkConfig w [TRun p]) c' → c_tasks c' !! 0 = Some (TDone None) →
  ∀ j t, c_tasks c' !! j = Some t → t = TDone None.
Proof.
  intros Hs. apply owned_done. eapply owned_rtc; [apply owned_single|done].
Qed.
(** A configuration whose tasks have all finished cannot step. *)
Lemma finished_stuck c c' :
  (∀ j t, c_tasks c !! j = Some t → ∃ r, t = TDone r) → ¬ step c c'.
Proof.
  intros Hall [i p w' p' Hi _|i ids k w' p' Hi _ _|i ids k j e Hi _ _];
    destruct (Hall _ _ Hi); discriminate.
Qed.

Lemma rtc_stuck c c' : (∀ c'', ¬ step c c'') → rtc step c c' → c' = c.
Proof. intros Hst Hs. destruct Hs as [|c c1 c' H1 _]; [done|]. by destruct (Hst c1). Qed.
(** ** The requests a task can make *)

Section Requests.
Context (P : request → Prop).

(** Every request [p] can await, along every answer, satisfies [P]. *)
Inductive reqs_ok : proc → Prop :=
| reqs_ret : reqs_ok PRet
| reqs_raise e : reqs_ok (PRaise e)
| reqs_act f k : reqs_ok k → reqs_ok (PAct f k)
| reqs_get rq k : P rq → (∀ r, reqs_ok (k r)) → reqs_ok (PGet rq k)
| reqs_sleep ms k : reqs_ok k → reqs_ok (PSleep ms k)
| reqs_gather ts k : Forall reqs_ok ts → reqs_ok k → reqs_ok (PGather ts k).

Definition task_reqs_ok (t : task) : Prop :=
  match t with
  | TRun p => reqs_ok p
  | TWait _ k => reqs_ok k
  | TDone _ => True
  end.

Lemma reqs_ok_pseq p q : reqs_ok p → reqs_ok q → reqs_ok (pseq p q).
Proof.
  intros Hp Hq. induction p as [|e|f k IH|rq k IH|ms k IH|ts k IH]; simpl;
    inversion Hp; subst; try assumption; constructor; auto.
Qed.

Lemma reqs_ok_settle w p : reqs_ok p → reqs_ok (settle w p).2.
Proof.
  revert w; induction p as [|e|f k IH|rq k IH|ms k IH|[|t ts] k IH]; intros w Hp; simpl;
    try done; inversion Hp; subst.
  - destruct (f w); simpl; [by apply IH|constructor].
  - by apply IH.
Qed.

Lemma reqs_ok_resume w p : reqs_ok p → reqs_ok (resume w p).2.
Proof.
  intros Hp. unfold resume. destruct p as [| |f k|rq k|ms k|ts k]; try by apply reqs_ok_settle.
  - inversion Hp; subst. destruct (fetch rq); simpl; [by apply reqs_ok_settle|constructor].
  - inversion Hp; subst. by apply reqs_ok_settle.
Qed.

Lemma reqs_ok_park i p ts :
  reqs_ok p → Forall task_reqs_ok ts → Forall task_reqs_ok (park i p ts).
Proof.
  intros Hp Hts. destruct p; simpl; try (apply Forall_insert; [done|]); try done.
  inversion Hp as [| | | | |? ? Hcs Hk]; subst.
  apply Forall_app. split; [by apply Forall_insert|].
  apply Forall_fmap. eapply Forall_impl; [exact Hcs|done].
Qed.

Lemma reqs_ok_step c c' :
  Forall task_reqs_ok (c_tasks c) → step c c' → Forall task_reqs_ok (c_tasks c').
Proof.
  intros Hc [i p w' p' Hi Hr|i ids k w' p' Hi _ Hs|i ids k j e Hi _ _]; simpl.
  - apply reqs_ok_park; [|done]. rewrite Forall_lookup in Hc.
    specialize (Hc i _ Hi). simpl in Hc. apply (reqs_ok_resume (c_world c)) in Hc. by rewrite Hr in Hc.
  - apply reqs_ok_park; [|done]. rewrite Forall_lookup in Hc.
    specialize (Hc i _ Hi). simpl in Hc. apply (reqs_ok_settle (c_world c)) in Hc. by rewrite Hs in Hc.
  - by apply Forall_insert.
Qed.

(** In every configuration reached from a task whose requests satisfy
    [P], every request a task awaits satisfies [P]. *)
Lemma reqs_ok_rtc w p c' i rq k :
  reqs_ok p → rtc step (mkConfig w [TRun p]) c' →
  c_tasks c' !! i = Some (TRun (PGet rq k)) → P rq.
Proof.
  intros Hp Hs Hi.
  assert (Hc : Forall task_reqs_ok (c_tasks c')).
  { clear Hi. remember (mkConfig w [TRun p]) as c0 eqn:E.
    assert (H0 : Forall task_reqs_ok (c_tasks c0)) by (subst; by repeat constructor).
    clear E. induction Hs as [|c1 c2 c3 H12 _ IH]; [done|]. apply IH. by eapply reqs_ok_step. }
  rewrite Forall_lookup in Hc. specialize (Hc i _ Hi). simpl in Hc. by inversion Hc.
Qed.
End Requests.

(** ** What the synchronous code can do to the state *)

Section Actions.
Context (R : W → W → Prop) `{!PreOrder R}.

(** Every action [p] can run, along every answer, moves the state along
    [R]. *)
Inductive acts_ok : proc → Prop :=
| acts_ret : acts_ok PRet
| acts_raise e : acts_ok (PRaise e)
| acts_act f k : (∀ w w', f w = Ok w' → R w w') → acts_ok k → acts_ok (PAct f k)
| acts_get rq k : (∀ r, acts_ok (k r)) → acts_ok (PGet rq k)
| acts_sleep ms k : acts_ok k → acts_ok (PSleep ms k)
| acts_gather ts k : Forall acts_ok ts → acts_ok k → acts_ok (PGather ts k).

Definition task_acts_ok (t : task) : Prop :=
  match t with
  | TRun p => acts_ok p
  | TWait _ k => acts_ok k
  | TDone _ => True
  end.

Lemma acts_ok_pseq p q : acts_ok p → acts_ok q → acts_ok (pseq p q).
Proof.
  intros Hp Hq. induction p as [|e|f k IH|rq k IH|ms k IH|ts k IH]; simpl;
    inversion Hp; subst; try assumption; constructor; auto.
Qed.

Lemma acts_ok_settle w p : acts_ok p → R w (settle w p).1 ∧ acts_ok (settle w p).2.
Proof.
  revert w; induction p as [|e|f k IH|rq k IH|ms k IH|[|t ts] k IH]; intros w Hp; simpl;
    try done; inversion Hp as [| |? ? Hf Hk| | |? ? _ Hk]; subst.
  - destruct (f w) as [w1|e] eqn:E; simpl; [|split; [done|constructor]].
    destruct (IH w1 Hk) as [H1 H2]. split; [|done]. etrans; [by apply Hf|exact H1].
  - by apply IH.
Qed.

Lemma acts_ok_resume w p : acts_ok p → R w (resume w p).1 ∧ acts_ok (resume w p).2.
Proof.
  intros Hp. unfold resume. destruct p as [| |f k|rq k|ms k|ts k]; try by apply acts_ok_settle.
  - inversion Hp; subst. destruct (fetch rq); simpl; [by apply acts_ok_settle|].
    split; [done|constructor].
  - inversion Hp; subst. by apply acts_ok_settle.
Qed.

Lemma acts_ok_park i p ts :
  acts_ok p → Forall task_acts_ok ts → Forall task_acts_ok (park i p ts).
Proof.
  intros Hp Hts. destruct p; simpl; try (apply Forall_insert; [done|]); try done.
  inversion Hp as [| | | | |? ? Hcs Hk]; subst.
  apply Forall_app. split; [by apply Forall_insert|].
  apply Forall_fmap. eapply Forall_impl; [exact Hcs|done].
Qed.

Lemma acts_ok_step c c' :
  Forall task_acts_ok (c_tasks c) → step c c' →
  R (c_world c) (c_world c') ∧ Forall task_acts_ok (c_tasks c').
Proof.
  intros Hc [i p w' p' Hi Hr|i ids k w' p' Hi _ Hs|i ids k j e Hi _ _]; simpl.
  - rewrite Forall_lookup in Hc. pose proof (Hc i _ Hi) as Hp. simpl in Hp.
    destruct (acts_ok_resume (c_world c) p Hp) as [H1 H2]. rewrite Hr in H1, H2.
    split; [done|]. apply acts_ok_park; [done|]. by apply Forall_lookup.
  - rewrite Forall_lookup in Hc. pose proof (Hc i _ Hi) as Hk. simpl in Hk.
    destruct (acts_ok_settle (c_world c) k Hk) as [H1 H2]. rewrite Hs in H1, H2.
    split; [done|]. apply acts_ok_park; [done|]. by apply Forall_lookup.
  - split; [reflexivity|]. by apply Forall_insert.
Qed.

(** Along every run from a configuration whose actions move the state
    along [R], the state moves along [R], and the actions still do. *)
Lemma acts_ok_steps c c' :
  Forall task_acts_ok (c_tasks c) → rtc step c c' →
  R (c_world c) (c_world c') ∧ Forall task_acts_ok (c_tasks c').
Proof.
  intros Hc Hs. induction Hs as [c|c1 c2 c3 H12 _ IH]; [split; [reflexivity|done]|].
  destruct (acts_ok_step c1 c2 Hc H12) as [H1 H2]. destruct (IH H2) as [H3 H4].
  split; [by etrans|done].
Qed.

Lemma acts_ok_single p : acts_ok p → Forall task_acts_ok [TRun p : task].
Proof. by repeat constructor. Qed.

End Actions.

(** ** Coroutines that cannot return normally *)

(** Along every answer of the network, [p] raises: no path of [p] reaches
    [PRet] (a gather's continuation raises too, whether the children
    fail or not). *)
Inductive must_raise : proc → Prop :=
| mr_raise e : must_raise (PRaise e)
| mr_act f k : must_raise k → must_raise (PAct f k)
| mr_get rq k : (∀ r, fetch rq = Ok r → must_raise (k r)) → must_raise (PGet rq k)
| mr_sleep ms k : must_raise k → must_raise (PSleep ms k)
| mr_gather ts k : must_raise k → must_raise (PGather ts k).

Definition task_raises (t : task) : Prop :=
  match t with
  | TRun p => must_raise p
  | TWait _ k => must_raise k
  | TDone r => r ≠ None
  end.

(** [await p] followed by [q] raises when [p] raises, or when [q] does. *)
Lemma must_raise_pseq_l p q : must_raise p → must_raise (pseq p q).
Proof. induction 1; simpl; constructor; auto. Qed.

Lemma must_raise_pseq_r p q : must_raise q → must_raise (pseq p q).
Proof. intros Hq. induction p as [|e|f k IH|rq k IH|ms k IH|ts k IH]; simpl; try constructor; auto. Qed.

Lemma must_raise_settle w p : must_raise p → must_raise (settle w p).2.
Proof.
  revert w; induction p as [|e|f k IH|rq k IH|ms k IH|[|t ts] k IH]; intros w Hp; simpl;
    try done; inversion Hp; subst.
  - destruct (f w); simpl; [by apply IH|constructor].
  - by apply IH.
Qed.

Lemma must_raise_resume w p : must_raise p → must_raise (resume w p).2.
Proof.
  intros Hp. unfold resume. destruct p as [| |f k|rq k|ms k|ts k]; try by apply must_raise_settle.
  - inversion Hp as [| |? ? Hk| | ]; subst. destruct (fetch rq) eqn:E; simpl; [|constructor].
    by apply must_raise_settle, Hk.
  - inversion Hp; subst. by apply must_raise_settle.
Qed.

Lemma park_lookup_raises i p ts :
  i < length ts → must_raise p → ∀ t, park i p ts !! i = Some t → task_raises t.
Proof.
  intros Hi Hp t. inversion Hp; subst; simpl;
    rewrite ?lookup_app_l by (rewrite length_insert; lia);
    rewrite list_lookup_insert_eq by done; intros [= <-]; simpl; done.
Qed.

Definition raises_at (c : config) (k : nat) : Prop :=
  ∃ t, c_tasks c !! k = Some t ∧ task_raises t.

Lemma raises_park w i p ts : i < length ts → must_raise p → raises_at (mkConfig w (park i p ts)) i.
Proof.
  intros Hi Hp. destruct (lookup_lt_is_Some_2 (park i p ts) i) as [t Ht];
    [pose proof (park_length i p ts); lia|].
  exists t. split; [done|]. by apply (park_lookup_raises i p ts).
Qed.

(** A task that cannot return normally never does, in any schedule. *)
Lemma raises_step c c' k : raises_at c k → step c c' → raises_at c' k.
Proof.
  intros (t & Ht & Hraise) Hs. apply lookup_lt_Some in Ht as Hlt.
  destruct Hs as [i p w' p' Hi Hr|i ids k0 w' p' Hi _ Hs|i ids k0 j e Hi _ He]; simpl;
    unfold raises_at; simpl.
  - destruct (decide (k = i)) as [->|Hne].
    + rewrite Hi in Ht. injection Ht as <-. simpl in Hraise.
      apply (must_raise_resume (c_world c)) in Hraise. rewrite Hr in Hraise. simpl in Hraise.
      by apply (raises_park w').
    + exists t. split; [|done]. by rewrite park_lookup_ne.
  - destruct (decide (k = i)) as [->|Hne].
    + rewrite Hi in Ht. injection Ht as <-. simpl in Hraise.
      apply (must_raise_settle (c_world c)) in Hraise. rewrite Hs in Hraise. simpl in Hraise.
      by apply (raises_park w').
    + exists t. split; [|done]. by rewrite park_lookup_ne.
  - destruct (decide (k = i)) as [->|Hne].
    + exists (TDone (Some e)). by rewrite list_lookup_insert_eq.
    + exists t. by rewrite list_lookup_insert_ne.
Qed.

Lemma raises_rtc c c' k : raises_at c k → rtc step c c' → raises_at c' k.
Proof. intros Hk Hs. induction Hs as [|c1 c2 c3 H12 _ IH]; [done|]. apply IH. by eapply raises_step. Qed.
End Async.

Arguments PRet {W Resp}.
Arguments PRaise {W Resp} e.
Arguments TDone {W Resp} r.
