(* ===== verification/Product.v ===== *)
(** The product crawl of [EldoradoParser]: the state the parser object
    shares between all its tasks ([world]: the buffer [self.comments], the
    files written, the directories, the log), the constants of [__init__],
    and the coroutines [_parse_comments] (one review page: fetch, extract,
    append to the buffer) and [_queue_parse_comments] (one product: fetch its
    page, read the page count and name, gather one [_parse_comments] task per
    page, then write the buffer to [<dir>/<name>.json] if it is not empty
    and reset it).  The theorems: the fan-out (one task per page, with the
    page URLs of the code), and the crawl of a product as a [phase]: the
    crawl runs in task [i] of a configuration whose other tasks have
    returned or await task [i] ([frame_ok]), its code [body] followed by
    [k]; every run from its start stays in the phase (before the fetch, or
    awaiting the pages with the records of the pages done in the buffer) or
    leaves it at [phase_exit], the buffer written.  A product crawled alone
    (C1, C3, C12) is the phase in a frame of one task; [Listing] composes
    phases, one per product of a listing page. *)

From S2P Require Import Prelude PyBase Html Extract Async.

#[local] Open Scope Z_scope.

(** ** The shared state *)

(** The result of [session.get] and [await res.text()] (parsed). *)
Record response := mkResponse { res_status : Z; res_soup : list node }.

Inductive level := INFO | WARNING.

#[export] Instance level_eq_dec : EqDecision level.
Proof. solve_decision. Defined.

(** The state of the parser object and of the disk: [self.comments], the
    [json.dump] of each [open(path, 'w')] (oldest first), the directories,
    and the records of [self.logger]. *)
Record world := mkWorld {
  w_comments : list review;
  w_files : list (string * list review);
  w_dirs : gset string;
  w_log : list (level * string)
}.

Abbreviation cproc := (@proc world response).
Abbreviation ctask := (@task world response).
Abbreviation cconfig := (@config world response).

(** ** [__init__] (lines 23-28) *)

Definition home_url : string := "https://www.eldorado.ru".

Definition category_urls : string := home_url +:+ "/d".

Definition headers : list (string * string) :=
  [("accept", "text/html,application/xhtml+xml,application/xml;q=0.9,image/avif,image/webp,image/apng,*/*;q=0.8,application/signed-exchange;v=b3;q=0.9");
   ("user-agent", "Mozilla/5.0 (X11; Linux x86_64) AppleWebKit/537.36 (KHTML, like Gecko) Chrome/94.0.4606.81 Safari/537.36")].

(** [session.get(url=url, params=params, headers=self.headers)]. *)
Definition get_request (url : string) (params : list (string * string)) : request :=
  mkRequest url params headers.

(** ** Actions on the shared state *)

(** [self.comments.append(user_info)] for each record of a page. *)
Definition append_comments (rs : list review) (w : world) : world :=
  mkWorld (w_comments w ++ rs) (w_files w) (w_dirs w) (w_log w).

(** Lines 83-86: [if self.comments: json.dump(self.comments, open(path,
    'w')); self.comments = []]. *)
Definition dump_comments (path : string) (w : world) : world :=
  match w_comments w with
  | [] => w
  | _ :: _ => mkWorld [] (w_files w ++ [(path, w_comments w)]) (w_dirs w) (w_log w)
  end.

(** [self.logger.info(msg)] / [self.logger.warning(msg)]. *)
Definition log_msg (lvl : level) (msg : string) (w : world) : world :=
  mkWorld (w_comments w) (w_files w) (w_dirs w) (w_log w ++ [(lvl, msg)]).

(** ** [_parse_comments] (lines 43-64) *)

(** Lines 45-48: page 1 is the product URL itself. *)
Definition comments_page_url (url : string) (page : Z) : string :=
  if bool_decide (page = 1) then url else url +:+ "/page/" +:+ py_str_int page.

Definition review_params : list (string * string) := [("show", "response")].

(** After the sleep: the fetch of the page, and the appends. *)
Definition parse_comments_fetch (url : string) : cproc :=
  PGet (get_request url review_params) (λ res,
    PAct (λ w, Ok (append_comments (extract_comments url (res_soup res)) w)) PRet).

Definition _parse_comments (url : string) (page : Z) : cproc :=
  PSleep 100 (parse_comments_fetch (comments_page_url url page)).

(** ** [_queue_parse_comments] (lines 66-88) *)

(** [f'{self.home_url}/{url}'] of an [href] that may be [None]. *)
Definition product_url (href : option string) : string :=
  home_url +:+ "/" +:+ py_str_opt href.

Definition product_file (path_dir name : string) : string :=
  path_dir +:+ "/" +:+ name +:+ ".json".

(** One task per page [1 .. count_pages] (lines 78-81). *)
Definition page_tasks (url : string) (count : Z) : list cproc :=
  (λ page, _parse_comments url (page + 1)) <$> py_range count.

(** The continuation of the gather (lines 83-86). *)
Definition dump_k (path_dir name : string) : cproc :=
  PAct (λ w, Ok (dump_comments (product_file path_dir name) w)) PRet.

(** After the base page returned with status 200 (lines 72-86). *)
Definition crawl_product_page (url path_dir : string) (soup : list node) : cproc :=
  match count_pages soup with
  | Err e => PRaise e
  | Ok count =>
      match product_name soup with
      | Err e => PRaise e
      | Ok name =>
          PGather (page_tasks url count) (dump_k path_dir name)
      end
  end.

Definition _queue_parse_comments (href : option string) (path_dir : string) : cproc :=
  let url := product_url href in
  PGet (get_request url review_params) (λ response,
    if bool_decide (res_status response = 200) then
      crawl_product_page url path_dir (res_soup response)
    else PAct (λ w, Ok (log_msg WARNING ("Error parse " +:+ url) w)) PRet).

(** * The fan-out of a product *)

(** C7: after its page answers with status 200, a page count [n > 0] and
    a name, the product task creates exactly [n] review-page tasks, the
    [j]-th for page [j + 1], and awaits them, before writing the buffer. *)
Theorem product_fanout fetch w href path_dir resp n name :
  fetch (get_request (product_url href) review_params) = Ok resp →
  res_status resp = 200 → count_pages (res_soup resp) = Ok n →
  product_name (res_soup resp) = Ok name → 0 < n →
  step_task fetch (mkConfig w [TRun (_queue_parse_comments href path_dir)]) 0 =
    Some (mkConfig w (TWait (seq 1 (Z.to_nat n)) (dump_k path_dir name) ::
                      (TRun <$> page_tasks (product_url href) n))) ∧
  length (page_tasks (product_url href) n) = Z.to_nat n ∧
  ∀ j, (j < Z.to_nat n)%nat →
    page_tasks (product_url href) n !! j = Some (_parse_comments (product_url href) (Z.of_nat j + 1)).
Proof.
  intros Hb H200 Hc Hn Hpos.
  assert (Hlen : length (page_tasks (product_url href) n) = Z.to_nat n)
    by (unfold page_tasks, py_range; by rewrite !length_fmap, length_seq).
  split; [|split; [done|]].
  - assert (Hr : resume fetch w (_queue_parse_comments href path_dir) =
                 (w, PGather (page_tasks (product_url href) n) (dump_k path_dir name))).
    { unfold resume, _queue_parse_comments. rewrite Hb.
      rewrite bool_decide_eq_true_2 by done. unfold crawl_product_page. rewrite Hc, Hn.
      destruct (page_tasks (product_url href) n) as [|t ts] eqn:Ht; [simpl in Hlen; lia|].
      reflexivity. }
    unfold step_task. cbn -[resume park]. rewrite Hr. unfold park.
    by rewrite insert0_singleton_app, Hlen.
  - intros j Hj. unfold page_tasks, py_range. rewrite !list_lookup_fmap, lookup_seq_lt by done.
    done.
Qed.

(** A page URL after the first is longer than the product URL. *)
Lemma page_url_longer (url r : string) : url ≠ url +:+ "/page/" +:+ r.
Proof.
  intros H. apply (f_equal String.length) in H. rewrite !sapp_length in H. simpl in H. lia.
Qed.

(** C19: the review-page tasks of a product whose page count is [n ≥ 1]
    are, in order, the fetch of the product URL itself (page 1) and of
    [<url>/page/2], ..., [<url>/page/<n>] (lines 45-48), each after its
    sleep; these [n] URLs are pairwise different. *)
Theorem page_tasks_urls (url : string) (n : Z) :
  1 ≤ n →
  let urls := url :: ((λ p, url +:+ "/page/" +:+ py_str_int (p + 2)) <$> py_range (n - 1)) in
  page_tasks url n = (λ u, PSleep 100 (parse_comments_fetch u)) <$> urls ∧ NoDup urls.
Proof.
  intros Hn urls. assert (Hr : py_range n = 0 :: ((λ p, p + 1) <$> py_range (n - 1))).
  { unfold py_range. replace (Z.to_nat n) with (S (Z.to_nat (n - 1))) by lia.
    cbn [seq fmap list_fmap]. f_equal. rewrite <- fmap_S_seq, <- !list_fmap_compose.
    apply list_fmap_ext. intros _ x _. simpl. lia. }
  split.
  - unfold page_tasks, urls. rewrite Hr, fmap_cons, fmap_cons, <- !list_fmap_compose. f_equal.
    apply list_fmap_ext. intros i p Hp.
    assert (0 ≤ p). { apply list_elem_of_lookup_2 in Hp. unfold py_range in Hp.
                      apply list_elem_of_fmap in Hp as (k & Hk & _). lia. }
    unfold compose, _parse_comments, comments_page_url. rewrite bool_decide_eq_false_2 by lia.
    by replace (p + 1 + 1) with (p + 2) by lia.
  - apply NoDup_cons. split.
    + intros (p & Hp & _)%list_elem_of_fmap. by apply (page_url_longer url (py_str_int (p + 2))).
    + apply NoDup_fmap_2; [|apply NoDup_fmap_2; [apply _|apply NoDup_seq]].
      intros p q H. apply sapp_inv_l, sapp_inv_l, py_str_int_inj in H. lia.
Qed.

(** * The crawl of a product *)

(** The stage of the task of page [j + 1]: created, after its sleep (its
    fetch pending), or finished after appending its records. *)
Inductive stage := SNew | SSlept | SDone.

#[export] Instance stage_eq_dec : EqDecision stage.
Proof. solve_decision. Defined.

(** Every task of [ts] but [i] has returned normally, or awaits task [i]
    and no task it awaits has raised: none of them can step while task [i]
    has not finished. *)
Definition frame_ok (ts : list ctask) (i : nat) : Prop :=
  ∀ j t, j ≠ i → ts !! j = Some t →
    t = TDone None ∨ ∃ ids k', t = TWait ids k' ∧ i ∈ ids ∧
      ∀ j' e, j' ∈ ids → ts !! j' ≠ Some (TDone (Some e)).

Lemma frame_ok_app ts i m : frame_ok ts i → frame_ok (ts ++ replicate m (TDone None)) i.
Proof.
  intros Hf j t Hne Hj. destruct (decide (j < length ts)%nat) as [Hlt|Hge].
  - rewrite lookup_app_l in Hj by done.
    destruct (Hf j t Hne Hj) as [?|(ids & k' & -> & Hin & Hno)]; [by left|right].
    exists ids, k'. do 2 (split; [done|]). intros j' e Hj'.
    destruct (decide (j' < length ts)%nat).
    + rewrite lookup_app_l by done. by apply Hno.
    + rewrite lookup_app_r by lia. by intros [[=] _]%lookup_replicate.
  - rewrite lookup_app_r in Hj by lia. apply lookup_replicate in Hj as [-> _]. by left.
Qed.

Lemma frame_ok_single t : frame_ok [t] 0.
Proof. intros [|j] t' ? ?; [done|by destruct j]. Qed.

Section Phase.
Context (fetch : request → result response).
Context (href : option string) (path_dir : string).
Context (resp : response) (n : Z) (name : string).

(** The product page answers with status 200, a page count [n] and a
    name; every review page answers. *)
Hypothesis Hbase : fetch (get_request (product_url href) review_params) = Ok resp.
Hypothesis H200 : res_status resp = 200.
Hypothesis Hcount : count_pages (res_soup resp) = Ok n.
Hypothesis Hname : product_name (res_soup resp) = Ok name.

Definition page_url (j : nat) : string :=
  comments_page_url (product_url href) (Z.of_nat j + 1).

Hypothesis Hpages : ∀ j, (j < Z.to_nat n)%nat →
  ∃ r, fetch (get_request (page_url j) review_params) = Ok r.

(** The records of page [j + 1]. *)
Definition page_reviews (j : nat) : list review :=
  match fetch (get_request (page_url j) review_params) with
  | Ok r => extract_comments (page_url j) (res_soup r)
  | Err _ => []
  end.

Definition stage_task (j : nat) (s : stage) : ctask :=
  match s with
  | SNew => TRun (_parse_comments (product_url href) (Z.of_nat j + 1))
  | SSlept => TRun (parse_comments_fetch (page_url j))
  | SDone => TDone None
  end.

(** The state once the pages of [order] have answered, in that order, and
    the buffer has been written. *)
Definition phase_world (w0 : world) (order : list nat) : world :=
  dump_comments (product_file path_dir name) (append_comments (concat (page_reviews <$> order)) w0).

Lemma append_comments_nil w : append_comments [] w = w.
Proof. destruct w. unfold append_comments. simpl. by rewrite app_nil_r. Qed.

Lemma append_comments_app rs1 rs2 w :
  append_comments rs2 (append_comments rs1 w) = append_comments (rs1 ++ rs2) w.
Proof. unfold append_comments. simpl. by rewrite app_assoc. Qed.

Lemma page_tasks_stages :
  TRun <$> page_tasks (product_url href) n =
  imap stage_task (replicate (Z.to_nat n) SNew).
Proof.
  unfold page_tasks, py_range. rewrite <- !list_fmap_compose.
  rewrite (imap_ext _ (λ j _, TRun (_parse_comments (product_url href) (Z.of_nat j + 1))))
    by (intros j x [-> _]%lookup_replicate; done).
  by rewrite imap_seq_0, length_replicate.
Qed.

Lemma resume_parse_comments w url page :
  resume fetch w (_parse_comments url page) =
  (w, parse_comments_fetch (comments_page_url url page)).
Proof. reflexivity. Qed.

Lemma park_parse_comments_fetch i u (ts : list ctask) :
  park i (parse_comments_fetch u) ts = <[i := TRun (parse_comments_fetch u)]> ts.
Proof. reflexivity. Qed.

Lemma settle_dump w k :
  settle w (pseq (dump_k path_dir name) k) = settle (dump_comments (product_file path_dir name) w) k.
Proof. reflexivity. Qed.

Lemma stages_no_wait stages j ids kk : imap stage_task stages !! j ≠ Some (TWait ids kk).
Proof. rewrite list_lookup_imap. destruct (stages !! j) as [[]|]; simpl; done. Qed.

Lemma stages_no_fail stages j e : imap stage_task stages !! j ≠ Some (TDone (Some e)).
Proof. rewrite list_lookup_imap. destruct (stages !! j) as [[]|]; simpl; done. Qed.

Lemma imap_all_done stages :
  (∀ j, (j < length stages)%nat → stages !! j = Some SDone) →
  imap stage_task stages = replicate (length stages) (TDone None).
Proof.
  intros Hall. apply list_eq. intros j. rewrite list_lookup_imap.
  destruct (decide (j < length stages)%nat) as [Hj|Hj].
  - rewrite Hall, lookup_replicate_2 by done. done.
  - rewrite (proj1 (lookup_replicate_None _ _ _)), lookup_ge_None_2 by lia. done.
Qed.

(** ** The crawl of the product inside a task

    Task [i] of the configuration crawls the product: its code [body]
    reaches the gather of the page tasks and has [k] to run after the
    buffer is written.  Every other task of [ts0] has returned normally or
    awaits task [i] (and no task it awaits has raised), so it cannot step
    while the product is crawled. *)
Section Frame.
Context (ts0 : list ctask) (i : nat) (body k : cproc).
Hypothesis Hi : (i < length ts0)%nat.
Hypothesis Hbody : ∀ w, resume fetch w body =
  settle w (PGather (page_tasks (product_url href) n) (pseq (dump_k path_dir name) k)).
Hypothesis Hframe : frame_ok ts0 i.

(** Before the fetch of the product page, or awaiting the pages (the
    buffer has received the records of the pages done, in the order they
    finished). *)
Inductive phase (w0 : world) : cconfig → Prop :=
| phase_init : phase w0 (mkConfig w0 (<[i := TRun body]> ts0))
| phase_pages stages order :
    (0 < n) → length stages = Z.to_nat n → NoDup order →
    (∀ j, j ∈ order ↔ stages !! j = Some SDone) →
    phase w0 (mkConfig (append_comments (concat (page_reviews <$> order)) w0)
               (<[i := TWait (seq (length ts0) (Z.to_nat n)) (pseq (dump_k path_dir name) k)]> ts0 ++
                imap stage_task stages)).

(** Where the crawl of the product ends: the buffer written, task [i] runs
    on with [k]. *)
Definition phase_exit (w0 : world) (order : list nat) : cconfig :=
  mkConfig (settle (phase_world w0 order) k).1
           (park i (settle (phase_world w0 order) k).2 (ts0 ++ replicate (Z.to_nat n) (TDone None))).

Lemma frame_lookup x M j t :
  (<[i:=x]> ts0 ++ M) !! j = Some t →
  (j = i ∧ t = x) ∨ (j ≠ i ∧ ts0 !! j = Some t) ∨
  ∃ j', j = (length ts0 + j')%nat ∧ M !! j' = Some t.
Proof.
  intros H. destruct (decide (j < length ts0)%nat) as [Hlt|Hge].
  - rewrite lookup_app_l in H by (by rewrite length_insert).
    destruct (decide (j = i)) as [->|Hne].
    + rewrite list_lookup_insert_eq in H by done. left. naive_solver.
    + rewrite list_lookup_insert_ne in H by done. right; left. done.
  - rewrite lookup_app_r, length_insert in H by (rewrite length_insert; lia).
    right; right. exists (j - length ts0)%nat. split; [lia|done].
Qed.

Lemma frame_lookup_i x M : (<[i:=x]> ts0 ++ M) !! i = Some x.
Proof. rewrite lookup_app_l by (by rewrite length_insert). by apply list_lookup_insert_eq. Qed.

Lemma frame_lookup_M x M j : (<[i:=x]> ts0 ++ M) !! (length ts0 + j)%nat = M !! j.
Proof. rewrite lookup_app_r, length_insert by (rewrite length_insert; lia). f_equal. lia. Qed.

Lemma frame_park_M x M j p :
  (∀ cs kk, p ≠ PGather cs kk) →
  park (length ts0 + j) p (<[i:=x]> ts0 ++ M) = <[i:=x]> ts0 ++ park j p M.
Proof. intros Hp. rewrite <- park_app_r by done. by rewrite length_insert. Qed.

(** While task [i] has not finished and no task of [M] waits or has
    raised, only task [i] and the tasks of [M] can step. *)
Lemma frame_step w x M c' :
  (∀ r, x ≠ TDone r) →
  (∀ j ids kk, M !! j ≠ Some (TWait ids kk)) → (∀ j e, M !! j ≠ Some (TDone (Some e))) →
  step fetch (mkConfig w (<[i:=x]> ts0 ++ M)) c' →
  (∃ p w' p', x = TRun p ∧ resume fetch w p = (w', p') ∧
     c' = mkConfig w' (park i p' (<[i:=x]> ts0 ++ M))) ∨
  (∃ ids kk w' p', x = TWait ids kk ∧
     Forall (λ j, (<[i:=x]> ts0 ++ M) !! j = Some (TDone None)) ids ∧
     settle w kk = (w', p') ∧ c' = mkConfig w' (park i p' (<[i:=x]> ts0 ++ M))) ∨
  (∃ ids kk j e, x = TWait ids kk ∧ j ∈ ids ∧
     (<[i:=x]> ts0 ++ M) !! j = Some (TDone (Some e))) ∨
  (∃ j p w' p', M !! j = Some (TRun p) ∧ resume fetch w p = (w', p') ∧
     c' = mkConfig w' (park (length ts0 + j) p' (<[i:=x]> ts0 ++ M))).
Proof.
  intros Hx HMw HMf [j p w' p' Hj Hr|j ids kk w' p' Hj Hall Hs|j ids kk j' e Hj Hj' He];
    cbn [c_tasks c_world] in *;
    apply frame_lookup in Hj as [[-> <-]|[(Hne & Hj)|(j0 & -> & Hj)]].
  - left. eauto 10.
  - destruct (Hframe j _ Hne Hj) as [?|(? & ? & ? & _)]; discriminate.
  - right; right; right. eauto 10.
  - right; left. eauto 10.
  - destruct (Hframe j _ Hne Hj) as [?|(ids' & k' & [= <- <-] & Hin & _)]; [discriminate|].
    rewrite Forall_forall in Hall. specialize (Hall i Hin). rewrite frame_lookup_i in Hall.
    injection Hall as ->. by destruct (Hx None).
  - by destruct (HMw j0 ids kk).
  - right; right; left. eauto 10.
  - destruct (Hframe j _ Hne Hj) as [?|(ids' & k' & [= <- <-] & _ & Hno)]; [discriminate|].
    apply frame_lookup in He as [[_ <-]|[(_ & He)|(j1 & _ & He)]].
    + by destruct (Hx (Some e)).
    + by destruct (Hno j' e Hj').
    + by destruct (HMf j1 e).
  - by destruct (HMw j0 ids kk).
Qed.

(** Task [i] running alone in the frame: its step is the only one. *)
Lemma frame_run w p c' :
  step fetch (mkConfig w (<[i:=TRun p]> ts0)) c' →
  ∃ w' p', resume fetch w p = (w', p') ∧ c' = mkConfig w' (park i p' ts0).
Proof.
  rewrite <- (app_nil_r (<[i:=TRun p]> ts0)). intros Hs.
  apply frame_step in Hs
    as [(p0 & w' & p' & [= <-] & Hr & ->)|[(? & ? & ? & ? & [=] & _)
       |[(? & ? & ? & ? & [=] & _)|(? & ? & ? & ? & [=] & _)]]];
    [|by intros ? [=]|by intros ??? [=]|by intros ?? [=]].
  exists w', p'. split; [done|]. by rewrite app_nil_r, park_insert.
Qed.

Lemma rtc_frame_run w p w' p' c' :
  resume fetch w p = (w', p') →
  rtc (step fetch) (mkConfig w (<[i:=TRun p]> ts0)) c' →
  c' = mkConfig w (<[i:=TRun p]> ts0) ∨ rtc (step fetch) (mkConfig w' (park i p' ts0)) c'.
Proof.
  intros Hr [->|(c1 & H1 & H1')]%rtc_inv; [by left|right].
  apply frame_run in H1 as (w1 & p1 & Hr1 & ->). rewrite Hr in Hr1. by injection Hr1 as <- <-.
Qed.

(** The first step of task [i]: the product page answers and the page
    tasks are created (or, with no page, the buffer is written at once). *)
Lemma phase_first_step w0 w' p' :
  resume fetch w0 body = (w', p') →
  phase w0 (mkConfig w' (park i p' (<[i:=TRun body]> ts0 ++ []))) ∨
  ∃ order, order ≡ₚ seq 0 (Z.to_nat n) ∧
    mkConfig w' (park i p' (<[i:=TRun body]> ts0 ++ [])) = phase_exit w0 order.
Proof.
  rewrite Hbody, app_nil_r, park_insert.
  destruct (page_tasks (product_url href) n) as [|t ts] eqn:Ht; intros Hs.
  - assert (Hn0 : Z.to_nat n = 0%nat).
    { unfold page_tasks, py_range in Ht. apply fmap_nil_inv, fmap_nil_inv in Ht.
      by destruct (Z.to_nat n). }
    right. exists []. split; [by rewrite Hn0|].
    unfold phase_exit, phase_world. simpl. rewrite Hn0, append_comments_nil. simpl.
    rewrite app_nil_r. cbn [settle] in Hs. rewrite settle_dump in Hs. by rewrite Hs.
  - left. injection Hs as <- <-. rewrite <- Ht.
    assert (0 < n).
    { unfold page_tasks, py_range in Ht. destruct (Z.to_nat n) eqn:E; [done|lia]. }
    unfold park. rewrite page_tasks_stages.
    replace (length (page_tasks (product_url href) n)) with (Z.to_nat n)
      by (unfold page_tasks, py_range; by rewrite !length_fmap, length_seq).
    rewrite <- (append_comments_nil w0) at 2.
    replace (@nil review) with (concat (page_reviews <$> [])) by done.
    apply phase_pages; [done|by rewrite length_replicate|constructor|].
    intros j. rewrite lookup_replicate. split; [by intros ?%elem_of_nil|naive_solver].
Qed.

(** A page task steps: from created to slept, or from slept to done,
    appending its records to the buffer. *)
Lemma phase_page_step w0 stages order j p w' p' :
  (0 < n) → length stages = Z.to_nat n → NoDup order →
  (∀ j, j ∈ order ↔ stages !! j = Some SDone) →
  imap stage_task stages !! j = Some (TRun p) →
  resume fetch (append_comments (concat (page_reviews <$> order)) w0) p = (w', p') →
  phase w0 (mkConfig w' (park (length ts0 + j) p'
    (<[i := TWait (seq (length ts0) (Z.to_nat n)) (pseq (dump_k path_dir name) k)]> ts0 ++
     imap stage_task stages))).
Proof.
  intros Hn Hlen Hnd Hord Hj Hr. rewrite list_lookup_imap in Hj.
  destruct (stages !! j) as [s|] eqn:Hs; [|done]. simpl in Hj. injection Hj as Hj.
  apply lookup_lt_Some in Hs as Hlt.
  destruct s; simpl in Hj; try discriminate; injection Hj as <-.
  - rewrite resume_parse_comments in Hr. injection Hr as <- <-.
    rewrite frame_park_M by done. rewrite park_parse_comments_fetch.
    change (TRun (parse_comments_fetch (comments_page_url (product_url href) (Z.of_nat j + 1))))
      with (stage_task j SSlept).
    rewrite (imap_insert stage_task stages j SSlept).
    apply phase_pages; [done|by rewrite length_insert|done|].
    intros j'. rewrite Hord. destruct (decide (j' = j)) as [->|Hne].
    + rewrite Hs, list_lookup_insert_eq by done. done.
    + by rewrite list_lookup_insert_ne.
  - destruct (Hpages j) as [r Hf]; [lia|].
    unfold resume, parse_comments_fetch in Hr. rewrite Hf in Hr. simpl in Hr.
    injection Hr as <- <-. rewrite frame_park_M by done. simpl park.
    change (TDone None) with (stage_task j SDone).
    rewrite (imap_insert stage_task stages j SDone), append_comments_app.
    replace (concat (page_reviews <$> order) ++ extract_comments (page_url j) (res_soup r))
      with (concat (page_reviews <$> (order ++ [j])))
      by (rewrite fmap_app, concat_app; simpl; unfold page_reviews; by rewrite Hf, app_nil_r).
    apply phase_pages; [done|by rewrite length_insert| |].
    + apply NoDup_app. split; [done|]. split; [|apply NoDup_singleton].
      intros x Hx ->%list_elem_of_singleton. apply Hord in Hx. congruence.
    + intros j'. rewrite elem_of_app, list_elem_of_singleton, Hord.
      destruct (decide (j' = j)) as [->|Hne].
      * rewrite Hs, list_lookup_insert_eq by done. naive_solver.
      * rewrite list_lookup_insert_ne by done. naive_solver.
Qed.

(** The gather completes when every page task is done: the buffer is
    written and task [i] goes on with [k]. *)
Lemma phase_join w0 stages order w' p' :
  length stages = Z.to_nat n → NoDup order →
  (∀ j, j ∈ order ↔ stages !! j = Some SDone) →
  Forall (λ j, (<[i := TWait (seq (length ts0) (Z.to_nat n)) (pseq (dump_k path_dir name) k)]> ts0 ++
                imap stage_task stages) !! j = Some (TDone None)) (seq (length ts0) (Z.to_nat n)) →
  settle (append_comments (concat (page_reviews <$> order)) w0) (pseq (dump_k path_dir name) k) =
    (w', p') →
  ∃ order', order' ≡ₚ seq 0 (Z.to_nat n) ∧
    mkConfig w' (park i p' (<[i := TWait (seq (length ts0) (Z.to_nat n)) (pseq (dump_k path_dir name) k)]> ts0 ++
                            imap stage_task stages)) = phase_exit w0 order'.
Proof.
  intros Hlen Hnd Hord Hall Hs.
  assert (Hdone : ∀ j, (j < length stages)%nat → stages !! j = Some SDone).
  { intros j Hj. rewrite Forall_forall in Hall.
    specialize (Hall (length ts0 + j)%nat). rewrite frame_lookup_M, list_lookup_imap in Hall.
    destruct (lookup_lt_is_Some_2 stages j Hj) as [s Hs'].
    rewrite Hs' in Hall |- *. destruct s; [| |done];
      discriminate Hall; apply elem_of_seq; lia. }
  exists order. split.
  - apply nodup_indices_perm; [done|]. intros j. rewrite Hord. split.
    + intros Hj. apply lookup_lt_Some in Hj. lia.
    + intros Hj. apply Hdone. lia.
  - unfold phase_exit, phase_world. rewrite settle_dump in Hs. rewrite Hs. simpl.
    rewrite imap_all_done, Hlen by done. rewrite <- insert_app_l by done. by rewrite park_insert.
Qed.

(** Every step from a configuration of the crawl stays in the crawl or
    leaves it at its exit. *)
Lemma phase_step w0 c c' :
  phase w0 c → step fetch c c' →
  phase w0 c' ∨ ∃ order, order ≡ₚ seq 0 (Z.to_nat n) ∧ c' = phase_exit w0 order.
Proof.
  intros [|stages order Hn Hlen Hnd Hord] Hs.
  - rewrite <- (app_nil_r (<[i:=TRun body]> ts0)) in Hs.
    apply frame_step in Hs
      as [(p & w' & p' & [= <-] & Hr & ->)|[(? & ? & ? & ? & [=] & _)
         |[(? & ? & ? & ? & [=] & _)|(? & ? & ? & ? & [=] & _)]]];
      [by apply phase_first_step|by intros ? [=]|exact (stages_no_wait [])
      |exact (stages_no_fail [])].
  - apply frame_step in Hs
      as [(? & ? & ? & [=] & _)|[(ids & kk & w' & p' & [= <- <-] & Hall & Hset & ->)
         |[(ids & kk & j & e & [= <- <-] & Hj & He)|(j & p & w' & p' & Hj & Hr & ->)]]];
      [by right; eapply phase_join| |by left; eapply phase_page_step
      |by intros ? [=]|apply stages_no_wait|apply stages_no_fail].
    exfalso. apply elem_of_seq in Hj.
    apply frame_lookup in He as [[-> _]|[(_ & He)|(j1 & _ & He)]]; [lia| |by eapply stages_no_fail].
    apply lookup_lt_Some in He. lia.
Qed.

Lemma phase_unfinished w0 c : phase w0 c → unfinished_at (c_tasks c) i = true.
Proof.
  intros [|stages order]; unfold unfinished_at; simpl;
    [by rewrite list_lookup_insert_eq|by rewrite frame_lookup_i].
Qed.

(** The crawl has at most the tasks of the frame and one per page. *)
Lemma phase_length w0 c : phase w0 c → (length (c_tasks c) ≤ length ts0 + Z.to_nat n)%nat.
Proof.
  intros [|stages order _ Hlen _ _]; simpl;
    rewrite ?length_app, length_insert, ?length_imap; lia.
Qed.

(** A run from inside the crawl is still inside, or has left it at its
    exit and run on from there. *)
Lemma phase_rtc w0 c c' :
  phase w0 c → rtc (step fetch) c c' →
  phase w0 c' ∨ ∃ order, order ≡ₚ seq 0 (Z.to_nat n) ∧ rtc (step fetch) (phase_exit w0 order) c'.
Proof.
  intros Hc Hs. induction Hs as [c|c1 c2 c3 H12 H23 IH]; [by left|].
  destruct (phase_step _ _ _ Hc H12) as [Hc2|(order & Hp & ->)]; [by apply IH|].
  right. by exists order.
Qed.
End Frame.

(** ** The product crawled alone *)

Lemma resume_queue_parse_comments w :
  resume fetch w (_queue_parse_comments href path_dir) =
  settle w (PGather (page_tasks (product_url href) n) (pseq (dump_k path_dir name) PRet)).
Proof.
  unfold resume, _queue_parse_comments. rewrite Hbase, bool_decide_eq_true_2 by done.
  unfold crawl_product_page. by rewrite Hcount, Hname.
Qed.

(** The product awaited by a coroutine that goes on with [k]. *)
Lemma resume_queue_then k w :
  resume fetch w (pseq (_queue_parse_comments href path_dir) k) =
  settle w (PGather (page_tasks (product_url href) n) (pseq (dump_k path_dir name) k)).
Proof.
  unfold _queue_parse_comments. cbn [pseq resume]. rewrite Hbase, bool_decide_eq_true_2 by done.
  unfold crawl_product_page. by rewrite Hcount, Hname.
Qed.

Lemma replicate_done_stuck w m (c' : cconfig) :
  ¬ step fetch (mkConfig w (TDone None :: replicate m (TDone None))) c'.
Proof.
  apply finished_stuck. intros [|j] t; simpl; [intros [= <-]; by eexists|].
  intros [-> _]%lookup_replicate. by eexists.
Qed.

(** The product crawled alone, as the crawl inside task [0] of a frame of
    one task: every run is still crawling or has ended with the buffer
    written, and then nothing can step. *)
Lemma alone_rtc w0 c' :
  rtc (step fetch) (mkConfig w0 [TRun (_queue_parse_comments href path_dir)]) c' →
  (unfinished_at (c_tasks c') 0 = true ∧ (length (c_tasks c') ≤ 1 + Z.to_nat n)%nat) ∨
  ∃ order, order ≡ₚ seq 0 (Z.to_nat n) ∧
    c' = mkConfig (phase_world w0 order) (TDone None :: replicate (Z.to_nat n) (TDone None)).
Proof.
  intros Hs.
  assert (Hphase : phase [TDone None] 0 (_queue_parse_comments href path_dir) PRet w0
                     (mkConfig w0 [TRun (_queue_parse_comments href path_dir)])) by apply phase_init.
  destruct (phase_rtc [TDone None] 0 (_queue_parse_comments href path_dir) PRet
              ltac:(simpl; lia) resume_queue_parse_comments
              (frame_ok_single _) w0 _ c' Hphase Hs)
    as [Hc|(order & Hperm & Hx)].
  - left. split; [exact (phase_unfinished [TDone None] 0 (_queue_parse_comments href path_dir) PRet
                           ltac:(simpl; lia) w0 c' Hc)|].
    exact (phase_length [TDone None] 0 (_queue_parse_comments href path_dir) PRet
             ltac:(simpl; lia) w0 c' Hc).
  - right. exists order. split; [done|].
    by apply rtc_stuck in Hx; [|intros c''; apply replicate_done_stuck].
Qed.

(** C1: a product crawled alone (its page returns status 200 with a page
    count [n] and a name, and every review page answers): when its task
    has finished, it returned normally, and the only change to the state
    is the write, if the buffer is not empty, of what the buffer held
    before followed by all the records of the pages [1 .. n] in some
    order, to [<dir>/<name>.json]; the buffer is then empty. *)
Theorem product_alone_writes w0 c' r :
  rtc (step fetch) (mkConfig w0 [TRun (_queue_parse_comments href path_dir)]) c' →
  c_tasks c' !! 0%nat = Some (TDone r) →
  r = None ∧ w_comments (c_world c') = [] ∧ w_dirs (c_world c') = w_dirs w0 ∧
  w_log (c_world c') = w_log w0 ∧
  ∃ L, L ≡ₚ concat (page_reviews <$> seq 0 (Z.to_nat n)) ∧
    w_files (c_world c') =
      w_files w0 ++ match w_comments w0 ++ L with
                    | [] => []
                    | _ :: _ => [(product_file path_dir name, w_comments w0 ++ L)]
                    end.
Proof.
  intros Hs H0. destruct (alone_rtc w0 c' Hs) as [[Hun _]|(order & Hperm & ->)].
  { unfold unfinished_at in Hun. by rewrite H0 in Hun. }
  simpl in H0. injection H0 as <-. split; [done|].
  unfold phase_world, dump_comments, append_comments; simpl.
  destruct (w_comments w0 ++ concat (page_reviews <$> order)) eqn:E; simpl.
  - repeat split; try done. exists (concat (page_reviews <$> order)).
    split; [by apply concat_perm, fmap_Permutation|]. rewrite E. by rewrite app_nil_r.
  - repeat split; try done. exists (concat (page_reviews <$> order)).
    split; [by apply concat_perm, fmap_Permutation|]. by rewrite E.
Qed.

(** C6: the product crawled alone always can run to its end: some
    schedule finishes its task, and it returns normally. *)
Theorem product_alone_completes w0 :
  ∃ c', rtc (step fetch) (mkConfig w0 [TRun (_queue_parse_comments href path_dir)]) c' ∧
        c_tasks c' !! 0%nat = Some (TDone None).
Proof.
  destruct (run_to_completion fetch (mkConfig w0 [TRun (_queue_parse_comments href path_dir)]))
    as (c' & Hs & Hfin); [apply wf_single|].
  exists c'. split; [done|].
  destruct (alone_rtc w0 c' Hs) as [[Hun _]|(order & _ & ->)]; [|done].
  by rewrite Hfin in Hun.
Qed.
(** C12: the fan-out of a product crawled alone is its page count: no
    configuration of any schedule has more than [1 + n] tasks (the product
    task and one per review page, with no cap), and a finished one has
    exactly [1 + n]. *)
Theorem product_alone_task_bound w0 c' :
  rtc (step fetch) (mkConfig w0 [TRun (_queue_parse_comments href path_dir)]) c' →
  (length (c_tasks c') ≤ 1 + Z.to_nat n)%nat ∧
  (c_tasks c' !! 0%nat = Some (TDone None) → length (c_tasks c') = (1 + Z.to_nat n)%nat).
Proof.
  intros Hs. destruct (alone_rtc w0 c' Hs) as [[Hun Hlen]|(order & _ & ->)].
  - split; [done|]. intros H0. unfold unfinished_at in Hun. by rewrite H0 in Hun.
  - simpl. rewrite length_replicate. split; [lia|done].
Qed.
End Phase.

(** ** A concrete product *)

Definition sample_base : list node :=
  [Elem "div" ["pages"] [] [Elem "a" [] [] [Text "1"]; Elem "a" [] [] [Text "2"]];
   Elem "h1" ["catalogItemDetailHd"] [] [Text "TV 50/55"]].

Definition sample_page (author : string) : list node :=
  [Elem "div" ["usersReviewsListItemInnerContainer"] []
     [Elem "span" ["userName"] [] [Text author];
      Elem "div" ["userReviewDate"] [] [Text "01.01.2021"];
      Elem "div" ["middleBlockItem"] [] [Text "ok"]]].

(** A site where the product [/tv] has two review pages. *)
Definition sample_fetch (rq : request) : result response :=
  if bool_decide (rq_url rq = "https://www.eldorado.ru/tv" ∧ rq_params rq = review_params) then
    Ok (mkResponse 200 sample_base)
  else Ok (mkResponse 200 (sample_page (rq_url rq))).

Definition sample_world : world := mkWorld [] [] ∅ [].

Lemma sample_pages_answer (j : nat) :
  (j < Z.to_nat 2)%nat →
  ∃ r, sample_fetch (get_request (page_url (Some "tv") j) review_params) = Ok r.
Proof. intros _. unfold sample_fetch. case_bool_decide; eauto. Qed.

Lemma product_alone_completes_witness :
  ∃ c', rtc (step sample_fetch)
          (mkConfig sample_world [TRun (_queue_parse_comments (Some "tv") "reviews/TV")]) c' ∧
        c_tasks c' !! 0%nat = Some (TDone None).
Proof.
  apply (product_alone_completes sample_fetch (Some "tv") "reviews/TV"
           (mkResponse 200 sample_base) 2 "TV 50_55");
    [reflexivity|reflexivity|reflexivity|reflexivity|apply sample_pages_answer].
Defined.

Definition sample_run : cconfig :=
  run_first sample_fetch 20
    (mkConfig sample_world [TRun (_queue_parse_comments (Some "tv") "reviews/TV")]).

Lemma product_alone_writes_witness :
  w_comments (c_world sample_run) = [] ∧ w_dirs (c_world sample_run) = ∅ ∧
  w_log (c_world sample_run) = [] ∧
  ∃ L, L ≡ₚ concat (page_reviews sample_fetch (Some "tv") <$> seq 0 (Z.to_nat 2)) ∧
    w_files (c_world sample_run) =
      [] ++ match [] ++ L with
            | [] => []
            | _ :: _ => [(product_file "reviews/TV" "TV 50_55", [] ++ L)]
            end.
Proof.
  destruct (product_alone_writes sample_fetch (Some "tv") "reviews/TV"
              (mkResponse 200 sample_base) 2 "TV 50_55" eq_refl eq_refl eq_refl eq_refl
              sample_pages_answer sample_world sample_run None)
    as (_ & H).
  - apply run_first_sound.
  - vm_compute. reflexivity.
  - exact H.
Defined.

Lemma product_alone_task_bound_witness :
  (length (c_tasks sample_run) ≤ 1 + Z.to_nat 2)%nat ∧
  (c_tasks sample_run !! 0%nat = Some (TDone None) → length (c_tasks sample_run) = (1 + Z.to_nat 2)%nat).
Proof.
  apply (product_alone_task_bound sample_fetch (Some "tv") "reviews/TV"
           (mkResponse 200 sample_base) 2 "TV 50_55" eq_refl eq_refl eq_refl eq_refl
           sample_pages_answer sample_world).
  apply run_first_sound.
Defined.

Lemma page_tasks_urls_witness :
  let urls := "u" :: ((λ p, "u" +:+ "/page/" +:+ py_str_int (p + 2)) <$> py_range (3 - 1)) in
  page_tasks "u" 3 = (λ u, PSleep 100 (parse_comments_fetch u)) <$> urls ∧ NoDup urls.
Proof. apply (page_tasks_urls "u" 3). lia. Defined.

Lemma product_fanout_witness :
  step_task sample_fetch (mkConfig sample_world [TRun (_queue_parse_comments (Some "tv") "reviews/TV")]) 0 =
    Some (mkConfig sample_world (TWait (seq 1 (Z.to_nat 2)) (dump_k "reviews/TV" "TV 50_55") ::
                      (TRun <$> page_tasks (product_url (Some "tv")) 2))) ∧
  length (page_tasks (product_url (Some "tv")) 2) = Z.to_nat 2 ∧
  ∀ j, (j < Z.to_nat 2)%nat →
    page_tasks (product_url (Some "tv")) 2 !! j = Some (_parse_comments (product_url (Some "tv")) (Z.of_nat j + 1)).
Proof.
  apply (product_fanout sample_fetch sample_world (Some "tv") "reviews/TV" (mkResponse 200 sample_base));
    reflexivity || lia.
Defined.
