(* ===== verification/Category.v ===== *)
(** The category crawl of [EldoradoParser]: [_parse_category] (one listing
    page: fetch it, then for each product link, one after the other, sleep
    a second and await [_queue_parse_comments]) and [_queue_parse_category]
    (fetch the category page, read its page count and name, create
    [reviews/<name>] with [os.makedirs], gather one [_parse_category] task
    per listing page).  The theorems: the fan-out and the failure of
    [os.makedirs] on an existing directory, and an explicit schedule of a
    category with two listing pages in which the buffer [self.comments],
    shared by the two product crawls in flight, puts a review of one
    product into the file of the other. *)

From S2P Require Import Prelude PyBase Html Extract Async Product.

#[local] Open Scope Z_scope.

(** ** [os.makedirs] *)

(** The directories [os.makedirs] creates for [path]: every prefix that
    ends before a [/], and [path]. *)
Fixpoint path_parents (pre s : string) : list string :=
  match s with
  | EmptyString => []
  | String c s' =>
      if Ascii.eqb c "/"%char then pre :: path_parents (pre +:+ "/") s'
      else path_parents (pre +:+ String c EmptyString) s'
  end.

(** [os.makedirs(path)]: [FileExistsError] when [path] exists. *)
Definition makedirs (path : string) (w : world) : result world :=
  if decide (path ∈ w_dirs w) then Err FileExistsError
  else Ok (mkWorld (w_comments w) (w_files w)
             (list_to_set (path :: path_parents EmptyString path) ∪ w_dirs w) (w_log w)).

(** ** [_parse_category] (lines 90-98) *)

(** [for a in links: await asyncio.sleep(1); await
    self._queue_parse_comments(a.get('href'), path_dir)]. *)
Definition crawl_products (hrefs : list (option string)) (path_dir : string) : cproc :=
  foldr (λ href acc, PSleep 1000 (pseq (_queue_parse_comments href path_dir) acc)) PRet hrefs.

Definition listing_params (page : Z) : list (string * string) := [("page", py_str_int page)].

Definition _parse_category (url : string) (page : Z) (path_dir : string) : cproc :=
  PSleep 100 (PGet (get_request url (listing_params page)) (λ res,
    crawl_products (product_hrefs (res_soup res)) path_dir)).

(** ** [_queue_parse_category] (lines 100-116) *)

Definition category_url (url_path : string) : string := home_url +:+ url_path.

Definition category_dir (name : string) : string := "reviews/" +:+ name.

(** One task per listing page [1 .. count_page] (lines 110-113). *)
Definition listing_tasks (url : string) (count : Z) (path_dir : string) : list cproc :=
  (λ page, _parse_category url (page + 1) path_dir) <$> py_range count.

(** After the category page returned with status 200 (lines 105-114). *)
Definition crawl_category_page (url : string) (soup : list node) : cproc :=
  match category_count soup with
  | Err e => PRaise e
  | Ok count =>
      match category_name soup with
      | Err e => PRaise e
      | Ok name =>
          PAct (makedirs (category_dir name))
            (PGather (listing_tasks url count (category_dir name)) PRet)
      end
  end.

Definition _queue_parse_category (url_path : string) : cproc :=
  let url := category_url url_path in
  PGet (get_request url []) (λ response,
    if bool_decide (res_status response = 200) then crawl_category_page url (res_soup response)
    else PAct (λ w, Ok (log_msg WARNING ("Error parse " +:+ url) w)) PRet).

(** * The fan-out of a category *)

Lemma resume_queue_parse_category fetch w url_path resp n name :
  fetch (get_request (category_url url_path) []) = Ok resp →
  res_status resp = 200 → category_count (res_soup resp) = Ok n →
  category_name (res_soup resp) = Ok name →
  resume fetch w (_queue_parse_category url_path) =
    settle w (PAct (makedirs (category_dir name))
                (PGather (listing_tasks (category_url url_path) n (category_dir name)) PRet)).
Proof.
  intros Hb H200 Hc Hn. unfold resume, _queue_parse_category. rewrite Hb.
  rewrite bool_decide_eq_true_2 by done. unfold crawl_category_page. by rewrite Hc, Hn.
Qed.

(** C8: after the category page answers with status 200, a page count
    [n > 0] and a name whose directory does not exist yet, the category
    task creates [reviews/<name>] and exactly [n] listing-page tasks, the
    [j]-th for page [j + 1], and awaits them. *)
Theorem category_fanout fetch w url_path resp n name :
  fetch (get_request (category_url url_path) []) = Ok resp →
  res_status resp = 200 → category_count (res_soup resp) = Ok n →
  category_name (res_soup resp) = Ok name → 0 < n →
  category_dir name ∉ w_dirs w →
  ∃ w', makedirs (category_dir name) w = Ok w' ∧ category_dir name ∈ w_dirs w' ∧
    step_task fetch (mkConfig w [TRun (_queue_parse_category url_path)]) 0 =
      Some (mkConfig w' (TWait (seq 1 (Z.to_nat n)) PRet ::
                          (TRun <$> listing_tasks (category_url url_path) n (category_dir name)))) ∧
    length (listing_tasks (category_url url_path) n (category_dir name)) = Z.to_nat n ∧
    ∀ j, (j < Z.to_nat n)%nat →
      listing_tasks (category_url url_path) n (category_dir name) !! j =
        Some (_parse_category (category_url url_path) (Z.of_nat j + 1) (category_dir name)).
Proof.
  intros Hb H200 Hc Hn Hpos Hnew.
  assert (Hlen : length (listing_tasks (category_url url_path) n (category_dir name)) = Z.to_nat n)
    by (unfold listing_tasks, py_range; by rewrite !length_fmap, length_seq).
  unfold makedirs. rewrite decide_False by done.
  eexists. split; [done|]. split; [simpl; set_solver|]. split; [|split; [done|]].
  - unfold step_task. cbn -[resume park].
    erewrite resume_queue_parse_category by done.
    destruct (listing_tasks _ n _) as [|t ts] eqn:Ht; [simpl in Hlen; lia|].
    rewrite <- Hlen. simpl. unfold makedirs. rewrite decide_False by done. reflexivity.
  - intros j Hj. unfold listing_tasks, py_range.
    by rewrite !list_lookup_fmap, lookup_seq_lt.
Qed.

(** When the directory [reviews/<name>] already exists, [os.makedirs]
    raises [FileExistsError] and the category task ends with that
    exception before any listing page is fetched: the error is not handled
    (the exception leaves [asyncio.run] and [run_parse]). *)
Theorem category_dir_exists_raises fetch w url_path resp n name :
  fetch (get_request (category_url url_path) []) = Ok resp →
  res_status resp = 200 → category_count (res_soup resp) = Ok n →
  category_name (res_soup resp) = Ok name →
  category_dir name ∈ w_dirs w →
  step_task fetch (mkConfig w [TRun (_queue_parse_category url_path)]) 0 =
    Some (mkConfig w [TDone (Some FileExistsError)]).
Proof.
  intros Hb H200 Hc Hn Hold. unfold step_task. cbn -[resume park].
  erewrite resume_queue_parse_category by done. simpl. unfold makedirs.
  by rewrite decide_True.
Qed.

(** * Two products in flight share the buffer *)

Definition sample_category : list node :=
  [Elem "div" ["zr"] []
     [Elem "li" [] [] [Text "1"]; Elem "li" [] [] [Text "2"]; Elem "li" [] [] [Text ">"]];
   Elem "h1" ["-K"] [] [Text "TV"]].

Definition sample_listing (href : string) : list node :=
  [Elem "a" ["sG"] [("href", href)] [Text href]].

Definition sample_product (title author : string) : list node :=
  Elem "h1" ["catalogItemDetailHd"] [] [Text title] :: sample_page author.

(** A category [/c/tv/] with two listing pages, each listing one product
    ([/a] and [/b]), each product with one review page and one review. *)
Definition mix_fetch (rq : request) : result response :=
  if bool_decide (rq_url rq = "https://www.eldorado.ru/c/tv/") then
    if bool_decide (rq_params rq = []) then Ok (mkResponse 200 sample_category)
    else if bool_decide (rq_params rq = listing_params 1) then Ok (mkResponse 200 (sample_listing "a"))
    else Ok (mkResponse 200 (sample_listing "b"))
  else if bool_decide (rq_url rq = "https://www.eldorado.ru/a") then
    Ok (mkResponse 200 (sample_product "A" "Ann"))
  else Ok (mkResponse 200 (sample_product "B" "Bob")).

(** Both listing tasks reach their product's gather, both review pages
    append, then product A's task writes the buffer. *)
Definition mix_schedule : list nat := [0; 1; 1; 1; 1; 2; 2; 2; 2; 3; 4; 3; 4; 1; 2; 0]%nat.

Definition mix_start : cconfig :=
  mkConfig sample_world [TRun (_queue_parse_category "/c/tv/")].

Definition review_of (url author : string) : review := mkReview url author "01.01.2021" "ok".

(** C2: the buffer [self.comments] is shared by the product crawls of
    the listing-page tasks of a category: in the category above, one
    schedule of the two listing tasks finishes the category with a single
    file, [reviews/TV/A.json], holding the review of product A and the
    review of product B, and no file for product B. *)
Theorem shared_buffer_mixes_products :
  ∃ c', rtc (step mix_fetch) mix_start c' ∧
        c_tasks c' !! 0%nat = Some (TDone None) ∧
        w_files (c_world c') =
          [(product_file (category_dir "TV") "A",
            [review_of "https://www.eldorado.ru/a" "Ann"; review_of "https://www.eldorado.ru/b" "Bob"])].
Proof.
  assert (Hsum : (λ c', (c_tasks c' !! 0%nat, w_files (c_world c'))) <$>
                   run_sched mix_fetch mix_start mix_schedule =
                 Some (Some (TDone None),
                       [(product_file (category_dir "TV") "A",
                         [review_of "https://www.eldorado.ru/a" "Ann";
                          review_of "https://www.eldorado.ru/b" "Bob"])]))
    by (vm_compute; reflexivity).
  revert Hsum. destruct (run_sched mix_fetch mix_start mix_schedule) as [c'|] eqn:Hr;
    simpl; intros [= H0 Hf].
  exists c'. split; [by apply (run_sched_sound _ _ mix_schedule)|done].
Qed.

Lemma category_fanout_witness :
  ∃ w', makedirs (category_dir "TV") sample_world = Ok w' ∧ category_dir "TV" ∈ w_dirs w' ∧
    step_task mix_fetch (mkConfig sample_world [TRun (_queue_parse_category "/c/tv/")]) 0 =
      Some (mkConfig w' (TWait (seq 1 (Z.to_nat 2)) PRet ::
                          (TRun <$> listing_tasks (category_url "/c/tv/") 2 (category_dir "TV")))) ∧
    length (listing_tasks (category_url "/c/tv/") 2 (category_dir "TV")) = Z.to_nat 2 ∧
    ∀ j, (j < Z.to_nat 2)%nat →
      listing_tasks (category_url "/c/tv/") 2 (category_dir "TV") !! j =
        Some (_parse_category (category_url "/c/tv/") (Z.of_nat j + 1) (category_dir "TV")).
Proof.
  apply (category_fanout mix_fetch sample_world "/c/tv/" (mkResponse 200 sample_category));
    try reflexivity; try lia; simpl; set_solver.
Defined.
