(* ===== verification/Requests.v ===== *)
(** The requests of the crawl.  Every [session.get] of the coroutines
    (lines 50, 70, 92, 103) and the [requests.get] of [get_url_categories]
    (line 33) pass [headers=self.headers], and every URL they build starts
    with [self.home_url].  [Async.reqs_ok] says that every request a
    coroutine can await, along every answer of the network, satisfies a
    predicate; the scheduler keeps it for every task it creates.  The
    theorem: in every schedule of the crawl of a category, every request a
    task awaits goes to [https://www.eldorado.ru] with the fixed header set
    of section 4.1 of the specification. *)

From S2P Require Import Prelude PyBase Html Extract Async Product Category.

#[local] Open Scope Z_scope.

(** A request of the crawler: to the shop, with [self.headers]. *)
Definition eldorado_request (rq : request) : Prop :=
  rq_headers rq = headers ∧ ∃ s, rq_url rq = home_url +:+ s.

(** A coroutine whose every request is awaited right after an
    [asyncio.sleep] of at least [d] milliseconds in the same coroutine
    (section 4.1 of the specification: a pre-request delay before every
    request).  A [PGet] is allowed only as the body of such a sleep. *)
#[local] Set Warnings "-register-all".
Inductive paced (d : Z) : cproc → Prop :=
| paced_ret : paced d PRet
| paced_raise e : paced d (PRaise e)
| paced_act f k : paced d k → paced d (PAct f k)
| paced_sleep ms k : paced d k → paced d (PSleep ms k)
| paced_sleep_get ms rq k : d ≤ ms → (∀ r, paced d (k r)) → paced d (PSleep ms (PGet rq k))
| paced_gather ts k : Forall (paced d) ts → paced d k → paced d (PGather ts k).

Lemma get_request_ok url params :
  (∃ s, url = home_url +:+ s) → eldorado_request (get_request url params).
Proof. done. Qed.

Lemma comments_page_url_home url page :
  (∃ s, url = home_url +:+ s) → ∃ s, comments_page_url url page = home_url +:+ s.
Proof.
  intros [s ->]. unfold comments_page_url. case_bool_decide; [by exists s|].
  exists (s +:+ "/page/" +:+ py_str_int page). by rewrite <- sapp_assoc.
Qed.

Lemma parse_comments_reqs url page :
  (∃ s, url = home_url +:+ s) → reqs_ok eldorado_request (_parse_comments url page).
Proof.
  intros Hu. unfold _parse_comments, parse_comments_fetch.
  apply reqs_sleep, reqs_get; [by apply get_request_ok, comments_page_url_home|].
  intros r. by apply reqs_act, reqs_ret.
Qed.

Lemma queue_parse_comments_reqs href path_dir :
  reqs_ok eldorado_request (_queue_parse_comments href path_dir).
Proof.
  constructor.
  { apply get_request_ok. exists ("/" +:+ py_str_opt href). done. }
  intros r. case_bool_decide; [|repeat constructor].
  unfold crawl_product_page.
  destruct (count_pages _) as [count|e]; [|constructor].
  destruct (product_name _) as [name|e]; [|constructor].
  constructor; [|repeat constructor].
  apply Forall_fmap, Forall_forall. intros page _. apply parse_comments_reqs.
  exists ("/" +:+ py_str_opt href). done.
Qed.

Lemma crawl_products_reqs hs path_dir : reqs_ok eldorado_request (crawl_products hs path_dir).
Proof.
  induction hs as [|h hs IH]; [constructor|].
  apply reqs_sleep, reqs_ok_pseq; [apply queue_parse_comments_reqs|exact IH].
Qed.

Lemma queue_parse_category_reqs url_path :
  reqs_ok eldorado_request (_queue_parse_category url_path).
Proof.
  constructor; [by apply get_request_ok; exists url_path|].
  intros r. case_bool_decide; [|repeat constructor].
  unfold crawl_category_page.
  destruct (category_count _) as [count|e]; [|constructor].
  destruct (category_name _) as [name|e]; [|constructor].
  constructor. constructor; [|constructor].
  apply Forall_fmap, Forall_forall. intros page _.
  constructor. constructor; [by apply get_request_ok; exists url_path|].
  intros res. apply crawl_products_reqs.
Qed.

(** ** The delays *)

Lemma paced_pseq d p q : paced d p → paced d q → paced d (pseq p q).
Proof.
  intros Hp Hq. induction Hp as [|e|f k _ IH|ms k _ IH|ms rq k Hd _ IH|ts k Hts _ IH]; simpl.
  - exact Hq.
  - constructor.
  - by apply paced_act.
  - by apply paced_sleep.
  - apply paced_sleep_get; [done|]. intros r. apply IH.
  - by apply paced_gather.
Qed.

Lemma parse_comments_paced url page : paced 100 (_parse_comments url page).
Proof. apply paced_sleep_get; [lia|]. intros r. by apply paced_act, paced_ret. Qed.

Lemma crawl_product_page_paced url path_dir soup : paced 100 (crawl_product_page url path_dir soup).
Proof.
  unfold crawl_product_page.
  destruct (count_pages _) as [count|e]; [|constructor].
  destruct (product_name _) as [name|e]; [|constructor].
  constructor; [|by apply paced_act, paced_ret].
  apply Forall_fmap, Forall_forall. intros page _. apply parse_comments_paced.
Qed.

(** Line 97: the sleep of a second before each product. *)
Lemma crawl_products_paced hs path_dir : paced 100 (crawl_products hs path_dir).
Proof.
  induction hs as [|h hs IH]; [constructor|]. cbn [crawl_products foldr].
  unfold _queue_parse_comments. simpl. apply paced_sleep_get; [lia|]. intros r.
  apply paced_pseq; [|exact IH]. case_bool_decide; [apply crawl_product_page_paced|].
  by apply paced_act, paced_ret.
Qed.

(** C20: in every schedule of the crawl of a category, every request a
    task awaits (the category page, its listing pages, its products' pages
    and their review pages) goes to [https://www.eldorado.ru] and carries
    [self.headers]. *)
Theorem category_requests_ok fetch w url_path c' i rq k :
  rtc (step fetch) (mkConfig w [TRun (_queue_parse_category url_path)]) c' →
  c_tasks c' !! i = Some (TRun (PGet rq k)) →
  rq_headers rq = headers ∧ ∃ s, rq_url rq = home_url +:+ s.
Proof.
  intros Hs Hi. apply (reqs_ok_rtc fetch eldorado_request w (_queue_parse_category url_path) c' i rq k); [|exact Hs|exact Hi].
  apply queue_parse_category_reqs.
Qed.

Lemma parse_category_paced url page path_dir : paced 100 (_parse_category url page path_dir).
Proof. apply paced_sleep_get; [lia|]. intros r. apply crawl_products_paced. Qed.

(** C21: the delays of the crawl of a category.  Every request after the
    first is awaited right after a sleep of at least 100 ms of its own
    coroutine (0.1 s before a listing or review page, 1 s before a product
    page), whatever the network answers; the first request, the category
    page (line 103), is awaited with no delay, so the coroutine as a whole
    is not paced. *)
Theorem category_requests_paced url_path :
  ¬ paced 100 (_queue_parse_category url_path) ∧
  ∃ k, _queue_parse_category url_path = PGet (get_request (category_url url_path) []) k ∧
       ∀ r, paced 100 (k r).
Proof.
  split; [intros Hp; inversion Hp|]. eexists; split; [reflexivity|]. intros r.
  cbv beta. case_bool_decide; [|by apply paced_act, paced_ret]. unfold crawl_category_page.
  destruct (category_count _) as [count|e]; [|constructor].
  destruct (category_name _) as [name|e]; [|constructor].
  apply paced_act, paced_gather; [|constructor].
  apply Forall_fmap, Forall_forall. intros page _. apply parse_category_paced.
Qed.

(** The index request of [get_url_categories] too. *)
Lemma index_request_ok : eldorado_request (get_request category_urls []).
Proof. apply get_request_ok. by exists "/d". Qed.

Lemma category_requests_ok_witness :
  rq_headers (get_request (category_url "/c/tv/") (listing_params 1)) = headers ∧
  ∃ s, rq_url (get_request (category_url "/c/tv/") (listing_params 1)) = home_url +:+ s.
Proof.
  apply (category_requests_ok mix_fetch sample_world "/c/tv/"
           (default mix_start (run_sched mix_fetch mix_start [0; 1]%nat)) 1
           (get_request (category_url "/c/tv/") (listing_params 1))
           (λ res, crawl_products (product_hrefs (res_soup res)) (category_dir "TV"))).
  - apply (run_sched_sound _ _ [0; 1]%nat). reflexivity.
  - reflexivity.
Defined.
