(* ===== verification/Conservation.v ===== *)
(** What the crawl does to the state of the parser, in every schedule.
    The synchronous code between two awaits runs without interruption, so
    the write of the buffer and its reset ([json.dump(self.comments, ...)];
    [self.comments = []], lines 85-86) happen in one step: no review-page
    task can append in between.  [kept w w'] says that [w'] has only added
    to [w]: the writes, the directories and the log records of [w] are
    still there, and the records of [w] (those written, then those in the
    buffer) are still among those of [w'].  [Async.acts_ok] says that
    every action of a coroutine, along every answer of the network, keeps
    the state in this sense; the scheduler preserves it for every task it
    creates.  The theorem: between any two configurations of a run of a
    category crawl, no write is undone and no collected review is ever
    dropped, whatever the schedule, including the schedules where the
    reviews of two products are mixed in one file (C2). *)

From S2P Require Import Prelude PyBase Html Extract Async Product Category.

#[local] Open Scope Z_scope.

(** The records of the parser's state: those of the writes, in order, then
    the buffer. *)
Definition stored (w : world) : list review := concat (snd <$> w_files w) ++ w_comments w.

Definition kept (w w' : world) : Prop :=
  w_files w `prefix_of` w_files w' ∧ w_dirs w ⊆ w_dirs w' ∧ w_log w `prefix_of` w_log w' ∧
  ∃ L, stored w' ≡ₚ stored w ++ L.

#[export] Instance kept_preorder : PreOrder kept.
Proof.
  split.
  - intros w. do 3 (split; [done|]). exists []. by rewrite app_nil_r.
  - intros w1 w2 w3 (Hf1 & Hd1 & Hl1 & L1 & H1) (Hf2 & Hd2 & Hl2 & L2 & H2).
    split; [by etrans|]. split; [by etrans|]. split; [by etrans|].
    exists (L1 ++ L2). by rewrite H2, H1, app_assoc.
Qed.

(** * The actions of the crawl keep the state *)

Lemma append_comments_kept L w : kept w (append_comments L w).
Proof.
  unfold kept, append_comments, stored. simpl. do 3 (split; [done|]).
  exists L. by rewrite <- app_assoc.
Qed.

(** The write and the reset together keep every record. *)
Lemma dump_comments_kept path w : kept w (dump_comments path w).
Proof.
  unfold dump_comments. destruct (w_comments w) as [|r rs] eqn:E; [reflexivity|].
  unfold kept, stored. simpl. split; [by eexists|]. do 2 (split; [done|]).
  exists []. rewrite E, fmap_app, concat_app. simpl. by rewrite !app_nil_r.
Qed.

Lemma log_msg_kept lvl msg w : kept w (log_msg lvl msg w).
Proof. unfold kept, log_msg, stored. simpl. split; [done|]. split; [done|]. split; [by eexists|]. exists []. by rewrite app_nil_r. Qed.

Lemma makedirs_kept path w w' : makedirs path w = Ok w' → kept w w'.
Proof.
  unfold makedirs. case_decide; [done|]. intros [= <-]. unfold kept, stored. simpl.
  split; [done|]. split; [set_solver|]. split; [done|]. exists []. by rewrite app_nil_r.
Qed.

(** * The actions of the coroutines *)

(** A relation between states that every synchronous action of the crawl
    moves along: the appends of the review-page tasks, the write of a
    product's buffer, the warnings and [os.makedirs]. *)
Section CrawlActions.
Context (R : world → world → Prop) `{!PreOrder R}.
Hypothesis Happend : ∀ L w, R w (append_comments L w).
Hypothesis Hdump : ∀ path w, R w (dump_comments path w).
Hypothesis Hwarn : ∀ msg w, R w (log_msg WARNING msg w).
Hypothesis Hmakedirs : ∀ path w w', makedirs path w = Ok w' → R w w'.

Lemma ok_acts (g : world → world) (k : cproc) :
  (∀ w, R w (g w)) → acts_ok R k → acts_ok R (PAct (λ w, Ok (g w)) k).
Proof. intros Hg Hk. apply acts_act; [|done]. intros w w' [= <-]. apply Hg. Qed.

Lemma warning_acts url : acts_ok R (PAct (λ w, Ok (log_msg WARNING ("Error parse " +:+ url) w)) PRet : cproc).
Proof. apply ok_acts; [done|constructor]. Qed.

Lemma crawl_product_page_acts url path_dir soup : acts_ok R (crawl_product_page url path_dir soup).
Proof.
  unfold crawl_product_page.
  destruct (count_pages _) as [count|e]; [|constructor].
  destruct (product_name _) as [name|e]; [|constructor].
  apply acts_gather; [|apply ok_acts; [done|constructor]].
  apply Forall_fmap, Forall_forall. intros page _.
  apply acts_sleep, acts_get. intros r. apply ok_acts; [done|constructor].
Qed.

Lemma crawl_products_acts hs path_dir : acts_ok R (crawl_products hs path_dir).
Proof.
  induction hs as [|h hs IH]; [constructor|]. apply acts_sleep, acts_ok_pseq; [|exact IH].
  apply acts_get. intros r. cbv beta. case_bool_decide; [apply crawl_product_page_acts|apply warning_acts].
Qed.

Lemma queue_parse_category_acts url_path : acts_ok R (_queue_parse_category url_path).
Proof.
  apply acts_get. intros r. cbv beta. case_bool_decide; [|apply warning_acts].
  unfold crawl_category_page.
  destruct (category_count _) as [count|e]; [|constructor].
  destruct (category_name _) as [name|e]; [|constructor].
  apply acts_act; [apply Hmakedirs|]. apply acts_gather; [|constructor].
  apply Forall_fmap, Forall_forall. intros page _.
  apply acts_sleep, acts_get. intros res. apply crawl_products_acts.
Qed.

(** Every run of the crawl of a category moves the state along [R]. *)
Lemma category_steps_acts fetch w url_path c1 :
  rtc (step fetch) (mkConfig w [TRun (_queue_parse_category url_path)]) c1 →
  R w (c_world c1) ∧ Forall (task_acts_ok R) (c_tasks c1).
Proof.
  apply (acts_ok_steps fetch R (mkConfig w [TRun (_queue_parse_category url_path)]) c1).
  apply acts_ok_single, queue_parse_category_acts.
Qed.
End CrawlActions.

Lemma category_steps_kept fetch w url_path c1 :
  rtc (step fetch) (mkConfig w [TRun (_queue_parse_category url_path)]) c1 →
  kept w (c_world c1) ∧ Forall (task_acts_ok kept) (c_tasks c1).
Proof.
  apply (category_steps_acts kept append_comments_kept dump_comments_kept
           (λ msg, log_msg_kept WARNING msg) makedirs_kept).
Qed.

(** C25: the crawl of a category only adds to the state of the parser:
    between any two configurations of any schedule, the writes, the
    directories and the log records of the earlier one are still there,
    and every record it holds, written or in the buffer, is still held by
    the later one.  The reset of the buffer after its write drops nothing,
    since no task runs between them. *)
Theorem category_keeps_records fetch w url_path c1 c2 :
  rtc (step fetch) (mkConfig w [TRun (_queue_parse_category url_path)]) c1 →
  rtc (step fetch) c1 c2 →
  kept (c_world c1) (c_world c2).
Proof.
  intros H1 H2.
  destruct (category_steps_kept fetch w url_path c1 H1) as [_ Hc1].
  by destruct (acts_ok_steps fetch kept _ _ Hc1 H2).
Qed.

(** * Witness *)

(** In the schedule of C2, from the configuration where both review pages
    have been appended to the end of the run. *)
Definition mix_mid : cconfig := default mix_start (run_sched mix_fetch mix_start (take 13 mix_schedule)).

Lemma category_keeps_records_witness :
  kept (c_world mix_mid) (c_world (default mix_mid (run_sched mix_fetch mix_mid (drop 13 mix_schedule)))).
Proof.
  apply (category_keeps_records mix_fetch sample_world "/c/tv/").
  - apply (run_sched_sound _ _ (take 13 mix_schedule)). reflexivity.
  - apply (run_sched_sound _ _ (drop 13 mix_schedule)). reflexivity.
Defined.
