(* ===== verification/Listing.v ===== *)
(** The products of one listing page, crawled one after another.
    [_parse_category] (lines 90-98) awaits [_queue_parse_comments] for each
    product link in turn inside the one listing task, so the crawl of a
    product, its buffer written, is over before the next one starts.

    [ListingSpec] states what the specification (section 4.4) asks of the
    product crawls: [crawl] runs the products one after another, each
    merging the reviews of its pages, in some order, into the buffer and
    writing the buffer when it is not empty; [writes] is the exclusive
    buffer of section 4.4, each product with reviews has its own file
    holding exactly them.  [crawl_writes] relates the two from an empty
    buffer.

    [product_of] is the abstraction function: what the network's answers
    make of a product link.  The refinement theorems show that a listing
    task run alone, whatever the schedule of the page tasks of its
    products, ends in a state [ListingSpec.crawl] allows, and so, from an
    empty buffer, writes one file per product with exactly its reviews.
    The proof composes the phase of [Product] (one product's crawl inside
    a task whose frame cannot step), once per product. *)

From S2P Require Import Prelude PyBase Html Extract Async Product Category.

#[local] Open Scope Z_scope.

(** * The specification *)

Module ListingSpec.

(** A product as the specification sees it: the file its reviews go to and
    the reviews of its pages in page order. *)
Record product := mkProduct { p_file : string; p_reviews : list review }.

(** What section 4.4 asks of one product, on the parser's state: its
    reviews [L] are merged into the buffer; the merged buffer, when it is
    not empty, is written to the product's file; the buffer is then
    empty.  Nothing else changes. *)
Definition buffer_step (file : string) (L : list review) (w : world) : world :=
  match w_comments w ++ L with
  | [] => mkWorld [] (w_files w) (w_dirs w) (w_log w)
  | b => mkWorld [] (w_files w ++ [(file, b)]) (w_dirs w) (w_log w)
  end.

(** The products crawled one after another. *)
Inductive crawl : world → list product → world → Prop :=
| crawl_nil w : crawl w [] w
| crawl_cons w p ps L w' :
    L ≡ₚ p_reviews p →
    crawl (buffer_step (p_file p) L w) ps w' →
    crawl w (p :: ps) w'.

(** One exclusive buffer per product: the files written, in order. *)
Inductive writes : list product → list (string * list review) → Prop :=
| writes_nil : writes [] []
| writes_skip p ps fs : p_reviews p = [] → writes ps fs → writes (p :: ps) fs
| writes_file p ps L fs :
    L ≡ₚ p_reviews p → L ≠ [] → writes ps fs → writes (p :: ps) ((p_file p, L) :: fs).

(** From an empty buffer, crawling the products one after another writes
    the files of [writes] and leaves the buffer empty; nothing else
    changes. *)
Lemma crawl_writes w ps w' :
  crawl w ps w' → w_comments w = [] →
  w_comments w' = [] ∧ w_dirs w' = w_dirs w ∧ w_log w' = w_log w ∧
  ∃ fs, writes ps fs ∧ w_files w' = w_files w ++ fs.
Proof.
  induction 1 as [w|w p ps L w' HL _ IH]; intros H0.
  { do 3 (split; [done|]). exists []. split; [constructor|]. by rewrite app_nil_r. }
  destruct w as [cs fs0 ds lg]; simpl in H0; subst cs.
  unfold buffer_step in IH; simpl in IH.
  destruct L as [|x L'].
  - destruct (IH eq_refl) as (? & ? & ? & fs & Hw & ->). do 3 (split; [done|]).
    exists fs. split; [|done]. apply writes_skip; [by apply Permutation_nil|done].
  - destruct (IH eq_refl) as (? & ? & ? & fs & Hw & ->). do 3 (split; [done|]).
    exists ((p_file p, x :: L') :: fs). split; [by apply writes_file|].
    simpl. by rewrite <- app_assoc.
Qed.

End ListingSpec.

(** The crawl of a product, its appends then its write, is the step of
    the specification. *)
Lemma dump_append_step file L w :
  dump_comments file (append_comments L w) = ListingSpec.buffer_step file L w.
Proof. unfold dump_comments, append_comments, ListingSpec.buffer_step. simpl. by destruct (w_comments w ++ L). Qed.

(** * The abstraction function *)

(** The product page of a link answers with status 200, a page count and a
    name, and each of its review pages answers. *)
Definition product_ok (fetch : request → result response) (href : option string) : Prop :=
  ∃ resp n name, fetch (get_request (product_url href) review_params) = Ok resp ∧
    res_status resp = 200 ∧ count_pages (res_soup resp) = Ok n ∧
    product_name (res_soup resp) = Ok name ∧
    ∀ j, (j < Z.to_nat n)%nat → ∃ r, fetch (get_request (page_url href j) review_params) = Ok r.

(** What the network's answers make of a product link. *)
Definition product_of (fetch : request → result response) (path_dir : string)
    (href : option string) : option ListingSpec.product :=
  match fetch (get_request (product_url href) review_params) with
  | Ok resp =>
      if bool_decide (res_status resp = 200) then
        match count_pages (res_soup resp), product_name (res_soup resp) with
        | Ok n, Ok name =>
            Some (ListingSpec.mkProduct (product_file path_dir name)
                    (concat (page_reviews fetch href <$> seq 0 (Z.to_nat n))))
        | _, _ => None
        end
      else None
  | Err _ => None
  end.

Section Products.
Context (fetch : request → result response) (path_dir : string).

Lemma product_of_ok href resp n name :
  fetch (get_request (product_url href) review_params) = Ok resp →
  res_status resp = 200 → count_pages (res_soup resp) = Ok n →
  product_name (res_soup resp) = Ok name →
  product_of fetch path_dir href =
    Some (ListingSpec.mkProduct (product_file path_dir name)
            (concat (page_reviews fetch href <$> seq 0 (Z.to_nat n)))).
Proof.
  intros Hb H200 Hc Hn. unfold product_of. rewrite Hb, bool_decide_eq_true_2 by done.
  by rewrite Hc, Hn.
Qed.

Lemma settle_crawl_products w hs :
  settle w (crawl_products hs path_dir) = (w, crawl_products hs path_dir).
Proof. by destruct hs. Qed.

(** The products [hs] crawled by task [i] of a frame: every run is still
    crawling, or task [i] has returned in a state [ListingSpec.crawl]
    allows, the tasks of the products all returned. *)
Lemma products_rtc hs : ∀ ts i w c',
  (i < length ts)%nat → frame_ok ts i → Forall (product_ok fetch) hs →
  rtc (step fetch) (mkConfig w (park i (crawl_products hs path_dir) ts)) c' →
  unfinished_at (c_tasks c') i = true ∨
  ∃ ps w' m, Forall2 (λ h p, product_of fetch path_dir h = Some p) hs ps ∧
    ListingSpec.crawl w ps w' ∧
    rtc (step fetch) (mkConfig w' (<[i := TDone None]> (ts ++ replicate m (TDone None)))) c'.
Proof.
  induction hs as [|h hs IH]; intros ts i w c' Hi Hf Hok Hs.
  { right. exists [], w, 0%nat. do 2 (split; [constructor|]). by rewrite app_nil_r. }
  apply Forall_cons in Hok as [(resp & n & name & Hb & H200 & Hc & Hn & Hp) Hok].
  destruct (rtc_frame_run fetch ts i Hi Hf w (crawl_products (h :: hs) path_dir) w
              (pseq (_queue_parse_comments h path_dir) (crawl_products hs path_dir)) c'
              eq_refl Hs) as [->|Hs1].
  { left. unfold unfinished_at. simpl. by rewrite list_lookup_insert_eq. }
  destruct (phase_rtc fetch h path_dir n name Hp ts i
              (pseq (_queue_parse_comments h path_dir) (crawl_products hs path_dir))
              (crawl_products hs path_dir) Hi
              (resume_queue_then fetch h path_dir resp n name Hb H200 Hc Hn _) Hf w _ c'
              (phase_init _ _ _ _ _ _ _ _ _ _) Hs1) as [Hph|(order & Hperm & Hx)].
  { left. by eapply phase_unfinished. }
  unfold phase_exit in Hx. rewrite settle_crawl_products in Hx. simpl in Hx.
  destruct (IH (ts ++ replicate (Z.to_nat n) (TDone None)) i (phase_world fetch h path_dir name w order) c')
    as [Hu|(ps & w' & m & H2 & Hcr & Hx')];
    [rewrite length_app; lia|by apply frame_ok_app|done|done|by left|].
  right. exists (ListingSpec.mkProduct (product_file path_dir name)
                   (concat (page_reviews fetch h <$> seq 0 (Z.to_nat n))) :: ps), w',
                 (Z.to_nat n + m)%nat.
  split; [constructor; [by apply (product_of_ok h resp)|done]|]. split.
  - eapply ListingSpec.crawl_cons; [|unfold phase_world in Hcr; rewrite dump_append_step in Hcr; exact Hcr].
    simpl. by apply concat_perm, fmap_Permutation.
  - by rewrite replicate_add, app_assoc.
Qed.

(** The listing task: its sleep, the fetch of its page, then its
    products. *)
Lemma listing_rtc url page lresp ts i w c' :
  fetch (get_request url (listing_params page)) = Ok lresp →
  Forall (product_ok fetch) (product_hrefs (res_soup lresp)) →
  (i < length ts)%nat → frame_ok ts i →
  rtc (step fetch) (mkConfig w (<[i := TRun (_parse_category url page path_dir)]> ts)) c' →
  unfinished_at (c_tasks c') i = true ∨
  ∃ ps w' m, Forall2 (λ h p, product_of fetch path_dir h = Some p) (product_hrefs (res_soup lresp)) ps ∧
    ListingSpec.crawl w ps w' ∧
    rtc (step fetch) (mkConfig w' (<[i := TDone None]> (ts ++ replicate m (TDone None)))) c'.
Proof.
  intros Hl Hok Hi Hf Hs.
  set (q := PGet (get_request url (listing_params page))
              (λ res, crawl_products (product_hrefs (res_soup res)) path_dir) : cproc).
  destruct (rtc_frame_run fetch ts i Hi Hf w (_parse_category url page path_dir) w q c' eq_refl Hs)
    as [->|Hs1].
  { left. unfold unfinished_at. simpl. by rewrite list_lookup_insert_eq. }
  destruct (rtc_frame_run fetch ts i Hi Hf w q w (crawl_products (product_hrefs (res_soup lresp)) path_dir) c'
              ltac:(unfold resume, q; rewrite Hl; apply settle_crawl_products) Hs1) as [->|Hs2].
  { left. unfold unfinished_at. simpl. by rewrite list_lookup_insert_eq. }
  by apply products_rtc.
Qed.
(** The listing task run alone: still running, or returned with every
    task finished, in a state [ListingSpec.crawl] allows. *)
Lemma listing_alone url page lresp w0 c' :
  fetch (get_request url (listing_params page)) = Ok lresp →
  Forall (product_ok fetch) (product_hrefs (res_soup lresp)) →
  rtc (step fetch) (mkConfig w0 [TRun (_parse_category url page path_dir)]) c' →
  unfinished_at (c_tasks c') 0 = true ∨
  ∃ ps m, Forall2 (λ h p, product_of fetch path_dir h = Some p) (product_hrefs (res_soup lresp)) ps ∧
    ListingSpec.crawl w0 ps (c_world c') ∧ c_tasks c' = TDone None :: replicate m (TDone None).
Proof.
  intros Hl Hok Hs.
  destruct (listing_rtc url page lresp [TDone None] 0 w0 c' Hl Hok ltac:(simpl; lia)
              (frame_ok_single _) Hs) as [?|(ps & w' & m & H2 & Hcr & Hx)]; [by left|right].
  apply rtc_stuck in Hx; [|intros c''; apply replicate_done_stuck]. subst c'. eauto.
Qed.

(** A listing task run alone that has returned normally ended in a state
    [ListingSpec.crawl] allows. *)
Lemma listing_done url page lresp w0 c' :
  fetch (get_request url (listing_params page)) = Ok lresp →
  Forall (product_ok fetch) (product_hrefs (res_soup lresp)) →
  rtc (step fetch) (mkConfig w0 [TRun (_parse_category url page path_dir)]) c' →
  c_tasks c' !! 0%nat = Some (TDone None) →
  ∃ ps, Forall2 (λ h p, product_of fetch path_dir h = Some p) (product_hrefs (res_soup lresp)) ps ∧
        ListingSpec.crawl w0 ps (c_world c').
Proof.
  intros Hl Hok Hs H0.
  destruct (listing_alone url page lresp w0 c' Hl Hok Hs) as [Hu|(ps & m & H2 & Hcr & _)]; [|eauto].
  unfold unfinished_at in Hu. by rewrite H0 in Hu.
Qed.

(** C3: the crawl of the products of a listing page refines its
    specification: a listing task run alone whose page answers and whose
    products all answer, once it has finished, returned normally, in a
    state that [ListingSpec.crawl] allows from the state it started on for
    the products of the page in link order, whatever the order in which
    the review pages of each product answered. *)
Theorem listing_refines_crawl url page lresp w0 c' r :
  fetch (get_request url (listing_params page)) = Ok lresp →
  Forall (product_ok fetch) (product_hrefs (res_soup lresp)) →
  rtc (step fetch) (mkConfig w0 [TRun (_parse_category url page path_dir)]) c' →
  c_tasks c' !! 0%nat = Some (TDone r) →
  r = None ∧ ∃ ps, Forall2 (λ h p, product_of fetch path_dir h = Some p)
                     (product_hrefs (res_soup lresp)) ps ∧
                   ListingSpec.crawl w0 ps (c_world c').
Proof.
  intros Hl Hok Hs H0.
  destruct (listing_alone url page lresp w0 c' Hl Hok Hs) as [Hu|(ps & m & H2 & Hcr & Ht)].
  { unfold unfinished_at in Hu. by rewrite H0 in Hu. }
  rewrite Ht in H0. injection H0 as <-. eauto.
Qed.

(** C5: the products of one listing page never share the buffer: crawled
    alone from an empty buffer, the listing task writes, for its products
    in link order, one file per product with reviews, holding exactly the
    reviews of that product's pages in some order, and leaves the buffer
    empty.  Two listing tasks of one category do share it (C2). *)
Theorem listing_files_per_product url page lresp w0 c' :
  fetch (get_request url (listing_params page)) = Ok lresp →
  Forall (product_ok fetch) (product_hrefs (res_soup lresp)) →
  w_comments w0 = [] →
  rtc (step fetch) (mkConfig w0 [TRun (_parse_category url page path_dir)]) c' →
  c_tasks c' !! 0%nat = Some (TDone None) →
  ∃ ps fs, Forall2 (λ h p, product_of fetch path_dir h = Some p) (product_hrefs (res_soup lresp)) ps ∧
    ListingSpec.writes ps fs ∧ w_files (c_world c') = w_files w0 ++ fs ∧
    w_comments (c_world c') = [].
Proof.
  intros Hl Hok Hb Hs H0.
  destruct (listing_done url page lresp w0 c' Hl Hok Hs H0) as (ps & H2 & Hcr).
  destruct (ListingSpec.crawl_writes _ _ _ Hcr Hb) as (Hc & _ & _ & fs & Hw & Hf).
  exists ps, fs. done.
Qed.
End Products.

(** * A category with one listing page *)

Section OnePage.
Context (fetch : request → result response).

Lemma makedirs_ok path w w' :
  makedirs path w = Ok w' →
  w_comments w' = w_comments w ∧ w_files w' = w_files w ∧ w_log w' = w_log w.
Proof. unfold makedirs. case_decide; [done|]. by intros [= <-]. Qed.

(** The category task awaits its one listing task. *)
Lemma frame_ok_category : frame_ok [TWait [1%nat] PRet; TDone None : ctask] 1.
Proof.
  intros [|[|j]] t Hne; simpl; [|done|by destruct j].
  intros [= <-]. right. exists [1%nat], PRet. split; [done|]. split; [by left|].
  by intros j' e ->%list_elem_of_singleton.
Qed.

(** The first step of the category task: the directory is created and the
    listing task of page 1 starts. *)
Lemma category_first_rtc u resp name w0 c' :
  fetch (get_request (category_url u) []) = Ok resp → res_status resp = 200 →
  category_count (res_soup resp) = Ok 1 → category_name (res_soup resp) = Ok name →
  category_dir name ∉ w_dirs w0 →
  rtc (step fetch) (mkConfig w0 [TRun (_queue_parse_category u)]) c' →
  c' = mkConfig w0 [TRun (_queue_parse_category u)] ∨
  ∃ w1, makedirs (category_dir name) w0 = Ok w1 ∧
    rtc (step fetch) (mkConfig w1 (<[1%nat := TRun (_parse_category (category_url u) 1 (category_dir name))]>
                                   [TWait [1%nat] PRet; TDone None])) c'.
Proof.
  intros Hb H200 Hc Hn Hnew Hs.
  destruct (makedirs (category_dir name) w0) as [w1|e] eqn:Hm;
    [|unfold makedirs in Hm; rewrite decide_False in Hm by done; discriminate].
  destruct (rtc_frame_run fetch [TDone None] 0 ltac:(simpl; lia) (frame_ok_single _) w0
              (_queue_parse_category u) w1
              (PGather [_parse_category (category_url u) 1 (category_dir name)] PRet) c'
              ltac:(rewrite (resume_queue_parse_category fetch w0 u resp 1 name Hb H200 Hc Hn);
                    simpl; by rewrite Hm) Hs) as [->|Hs1]; [by left|].
  right. by exists w1.
Qed.

(** Once its listing task has returned, the category task joins it and
    returns; the state does not change. *)
Lemma category_join_rtc w m (c' : cconfig) :
  rtc (step fetch) (mkConfig w (TWait [1%nat] PRet :: TDone None :: replicate m (TDone None))) c' →
  c_tasks c' !! 0%nat = Some (TDone None) → c_world c' = w.
Proof.
  intros Hs H0. apply rtc_inv in Hs as [<-|(c1 & H1 & H1')]; [discriminate H0|].
  inversion H1 as [j p w1 p1 Hj Hr|j ids k w1 p1 Hj Hall Hset|j ids k j' e Hj Hj' He];
    subst; simpl in *; (destruct j as [|[|j]]; simpl in Hj;
      [|discriminate|apply lookup_replicate in Hj as [? _]; discriminate]); try discriminate.
  - injection Hj as <- <-. injection Hset as <- <-.
    apply rtc_stuck in H1'; [by subst|]. intros c''. apply finished_stuck.
    intros [|[|j']] t; simpl; try (intros [= <-]; by eexists).
    intros [-> _]%lookup_replicate. by eexists.
  - injection Hj as <- <-. apply list_elem_of_singleton in Hj' as ->. discriminate He.
Qed.

(** C4: a category whose page count is 1 crawls its products one after
    another in its one listing task, so from an empty buffer they never
    share it: once the category task has returned normally, each product
    with reviews has its own file [reviews/<name>/<product>.json] holding
    exactly the reviews of its pages, in some order, and the buffer is
    empty (with two listing pages they can mix, C2). *)
Theorem category_one_page_files u resp name lresp w0 c' :
  fetch (get_request (category_url u) []) = Ok resp → res_status resp = 200 →
  category_count (res_soup resp) = Ok 1 → category_name (res_soup resp) = Ok name →
  category_dir name ∉ w_dirs w0 → w_comments w0 = [] →
  fetch (get_request (category_url u) (listing_params 1)) = Ok lresp →
  Forall (product_ok fetch) (product_hrefs (res_soup lresp)) →
  rtc (step fetch) (mkConfig w0 [TRun (_queue_parse_category u)]) c' →
  c_tasks c' !! 0%nat = Some (TDone None) →
  ∃ ps fs, Forall2 (λ h p, product_of fetch (category_dir name) h = Some p)
             (product_hrefs (res_soup lresp)) ps ∧
    ListingSpec.writes ps fs ∧ w_files (c_world c') = w_files w0 ++ fs ∧
    w_comments (c_world c') = [].
Proof.
  intros Hb H200 Hc Hn Hnew Hbuf Hl Hok Hs H0.
  pose proof (returned_main_all_done fetch _ _ _ Hs H0) as Hall.
  destruct (category_first_rtc u resp name w0 c' Hb H200 Hc Hn Hnew Hs) as [->|(w1 & Hm & Hs1)];
    [discriminate H0|].
  destruct (listing_rtc fetch (category_dir name) (category_url u) 1 lresp
              [TWait [1%nat] PRet; TDone None] 1 w1 c' Hl Hok
              ltac:(simpl; lia) frame_ok_category Hs1) as [Hu|(ps & w' & m & H2 & Hcr & Hx)].
  { unfold unfinished_at in Hu. destruct (c_tasks c' !! 1%nat) as [t|] eqn:E; [|done].
    by rewrite (Hall 1%nat t E) in Hu. }
  apply category_join_rtc in Hx as ->; [|done].
  destruct (makedirs_ok _ _ _ Hm) as (Hc1 & Hf1 & _).
  destruct (ListingSpec.crawl_writes _ _ _ Hcr ltac:(by rewrite Hc1)) as (? & _ & _ & fs & Hw & Hf).
  exists ps, fs. rewrite Hf, Hf1. done.
Qed.
End OnePage.

(** * A listing page with two products *)

Definition duo_listing : list node :=
  [Elem "a" ["sG"] [("href", "a")] [Text "a"]; Elem "a" ["sG"] [("href", "b")] [Text "b"]].

(** The listing page of [/c/tv/] links the products [/a] and [/b], each
    with one review page holding one review. *)
Definition duo_fetch (rq : request) : result response :=
  if bool_decide (rq_url rq = "https://www.eldorado.ru/c/tv/") then Ok (mkResponse 200 duo_listing)
  else if bool_decide (rq_url rq = "https://www.eldorado.ru/a") then
    Ok (mkResponse 200 (sample_product "A" "Ann"))
  else Ok (mkResponse 200 (sample_product "B" "Bob")).

Definition duo_run : cconfig :=
  run_first duo_fetch 40
    (mkConfig sample_world [TRun (_parse_category "https://www.eldorado.ru/c/tv/" 1 "reviews/TV")]).

(** Each product of the samples has one review page that answers. *)
Local Ltac sample_products_ok :=
  cbn; repeat (apply Forall_cons; split;
    [eexists _, 1, _; (repeat split; [vm_compute; reflexivity..|]);
     intros [|j] ?; [eexists; reflexivity|lia]|]);
  constructor.

Lemma duo_products_ok :
  Forall (product_ok duo_fetch) (product_hrefs (res_soup (mkResponse 200 duo_listing))).
Proof. sample_products_ok. Qed.

Lemma listing_refines_crawl_witness :
  (None : option exn) = None ∧
  ∃ ps, Forall2 (λ h p, product_of duo_fetch "reviews/TV" h = Some p)
          (product_hrefs (res_soup (mkResponse 200 duo_listing))) ps ∧
        ListingSpec.crawl sample_world ps (c_world duo_run).
Proof.
  apply (listing_refines_crawl duo_fetch "reviews/TV" "https://www.eldorado.ru/c/tv/" 1
           (mkResponse 200 duo_listing) sample_world duo_run None).
  - vm_compute. reflexivity.
  - exact duo_products_ok.
  - apply run_first_sound.
  - vm_compute. reflexivity.
Defined.

Lemma listing_files_per_product_witness :
  ∃ ps fs, Forall2 (λ h p, product_of duo_fetch "reviews/TV" h = Some p)
             (product_hrefs (res_soup (mkResponse 200 duo_listing))) ps ∧
    ListingSpec.writes ps fs ∧ w_files (c_world duo_run) = w_files sample_world ++ fs ∧
    w_comments (c_world duo_run) = [].
Proof.
  apply (listing_files_per_product duo_fetch "reviews/TV" "https://www.eldorado.ru/c/tv/" 1
           (mkResponse 200 duo_listing) sample_world duo_run).
  - vm_compute. reflexivity.
  - exact duo_products_ok.
  - reflexivity.
  - apply run_first_sound.
  - vm_compute. reflexivity.
Defined.

(** On this page, the two products get their own files. *)
Example duo_run_files :
  w_files (c_world duo_run) =
    [(product_file "reviews/TV" "A", [review_of "https://www.eldorado.ru/a" "Ann"]);
     (product_file "reviews/TV" "B", [review_of "https://www.eldorado.ru/b" "Bob"])].
Proof. vm_compute. reflexivity. Qed.

(** * A category with one listing page and two products *)

Definition single_category : list node :=
  [Elem "div" ["zr"] [] [Elem "li" [] [] [Text "1"]; Elem "li" [] [] [Text ">"]];
   Elem "h1" ["-K"] [] [Text "TV"]].

(** The category [/c/tv/] has one listing page, which links [/a] and [/b]. *)
Definition single_fetch (rq : request) : result response :=
  if bool_decide (rq_url rq = "https://www.eldorado.ru/c/tv/" ∧ rq_params rq = []) then
    Ok (mkResponse 200 single_category)
  else duo_fetch rq.

Definition single_run : cconfig :=
  run_first single_fetch 60 (mkConfig sample_world [TRun (_queue_parse_category "/c/tv/")]).

Lemma single_products_ok :
  Forall (product_ok single_fetch) (product_hrefs (res_soup (mkResponse 200 duo_listing))).
Proof. sample_products_ok. Qed.

Lemma category_one_page_files_witness :
  ∃ ps fs, Forall2 (λ h p, product_of single_fetch (category_dir "TV") h = Some p)
             (product_hrefs (res_soup (mkResponse 200 duo_listing))) ps ∧
    ListingSpec.writes ps fs ∧ w_files (c_world single_run) = w_files sample_world ++ fs ∧
    w_comments (c_world single_run) = [].
Proof.
  apply (category_one_page_files single_fetch "/c/tv/" (mkResponse 200 single_category) "TV"
           (mkResponse 200 duo_listing) sample_world single_run).
  1-4: vm_compute; reflexivity.
  - simpl. set_solver.
  - reflexivity.
  - vm_compute. reflexivity.
  - exact single_products_ok.
  - apply run_first_sound.
  - vm_compute. reflexivity.
Defined.

(** The two products of the one listing page get their own files. *)
Example single_run_files :
  w_files (c_world single_run) =
    [(product_file "reviews/TV" "A", [review_of "https://www.eldorado.ru/a" "Ann"]);
     (product_file "reviews/TV" "B", [review_of "https://www.eldorado.ru/b" "Bob"])].
Proof. vm_compute. reflexivity. Qed.
