(* ===== verification/Disk.v ===== *)
(** The product files on disk.  [_queue_parse_comments] writes its file
    with [open(f"{path_dir}/{product_name}.json", 'w')] and [json.dump]
    (lines 84-85): mode ['w'] truncates, so a later write to the same path
    replaces the text of an earlier one.  The state of the crawl keeps the
    sequence of writes ([w_files]); [disk] is the directory tree they leave,
    a map from path to text, each text the one [Json.json_dump] writes.

    The theorems: when the products of a listing page have pairwise
    different file names, each product with reviews has a file whose text
    is the dump of exactly its reviews, in some order; two products whose
    names differ only by [/] and [_] ([product_name] replaces one with the
    other) share a file, and the later one overwrites the earlier one's
    reviews, which then are on no file at all. *)

From S2P Require Import Prelude PyBase Html Extract Async Product Category Json Listing.

#[local] Open Scope Z_scope.

(** * The files *)

(** [with open(path, 'w') as file: json.dump(rs, file, ...)]. *)
Definition write_file (d : gmap string string) (f : string * list review) : gmap string string :=
  <[f.1 := json_dump f.2]> d.

(** The files the writes of a run leave, from a tree with no product
    file. *)
Definition disk (ws : list (string * list review)) : gmap string string :=
  foldl write_file ∅ ws.

(** The records of the last write to a path. *)
Fixpoint last_write (p : string) (ws : list (string * list review)) : option (list review) :=
  match ws with
  | [] => None
  | w :: ws =>
      match last_write p ws with
      | Some rs => Some rs
      | None => if decide (w.1 = p) then Some w.2 else None
      end
  end.

(** * Lemmas *)

Lemma foldl_write_lookup d ws p :
  foldl write_file d ws !! p =
    match last_write p ws with Some rs => Some (json_dump rs) | None => d !! p end.
Proof.
  revert d. induction ws as [|[q rs] ws IH]; intros d; [done|]. simpl. rewrite IH.
  destruct (last_write p ws); [done|]. unfold write_file. simpl.
  case_decide as Hq; [subst; by rewrite lookup_insert_eq|by rewrite lookup_insert_ne].
Qed.

Lemma disk_lookup ws p :
  disk ws !! p = json_dump <$> last_write p ws.
Proof. unfold disk. rewrite foldl_write_lookup. by destruct (last_write p ws). Qed.

Lemma last_write_app p ws1 ws2 rs :
  last_write p ws2 = Some rs → last_write p (ws1 ++ ws2) = Some rs.
Proof. induction ws1 as [|w ws1 IH]; [done|]. simpl. by intros ->%IH. Qed.

Lemma last_write_none p ws : Forall (λ w, w.1 ≠ p) ws → last_write p ws = None.
Proof. induction 1 as [|w ws Hw _ IH]; [done|]. simpl. rewrite IH. by case_decide. Qed.

(** The files [ListingSpec.writes] writes are those of its products. *)
Lemma writes_files ps fs :
  ListingSpec.writes ps fs → Forall (λ f, f.1 ∈ ListingSpec.p_file <$> ps) fs.
Proof.
  induction 1 as [|p ps fs _ _ IH|p ps L fs _ _ _ IH]; [constructor| |constructor].
  - eapply Forall_impl; [exact IH|]. intros f Hf. rewrite fmap_cons. by right.
  - simpl. by left.
  - eapply Forall_impl; [exact IH|]. intros f Hf. rewrite fmap_cons. by right.
Qed.

(** With pairwise different file names, the last write to the file of a
    product with reviews is that product's. *)
Lemma writes_last_write ps fs :
  ListingSpec.writes ps fs → NoDup (ListingSpec.p_file <$> ps) →
  ∀ p, p ∈ ps → ListingSpec.p_reviews p ≠ [] →
    ∃ L, last_write (ListingSpec.p_file p) fs = Some L ∧ L ≡ₚ ListingSpec.p_reviews p.
Proof.
  induction 1 as [|p' ps fs H0 _ IH|p' ps L fs HL _ Hw IH]; intros Hnd p Hp Hne;
    [by apply not_elem_of_nil in Hp| |];
    rewrite fmap_cons in Hnd; apply NoDup_cons in Hnd as [Hout Hnd];
    apply elem_of_cons in Hp as [->|Hp]; try by apply IH.
  - exists L. simpl. rewrite last_write_none; [by rewrite decide_True|].
    eapply Forall_impl; [by apply writes_files|]. intros f Hf Heq. apply Hout. rewrite <- Heq. exact Hf.
  - destruct (IH Hnd p Hp Hne) as (L' & HL' & Hperm). exists L'. simpl. by rewrite HL'.
Qed.

(** * The files of a listing page *)

Section Listing.
Context (fetch : request → result response) (path_dir : string).

(** C23: what a listing page leaves on disk.  Crawled alone from an empty
    buffer, once the listing task has returned, when its products have
    pairwise different file names, every product with reviews has its
    file [<dir>/<name>.json], whose text is the [json.dump] of exactly the
    reviews of its pages, in some order (the previous files at other
    paths are kept, a previous file at the same path is replaced). *)
Theorem listing_disk_files url page lresp w0 c' :
  fetch (get_request url (listing_params page)) = Ok lresp →
  Forall (product_ok fetch) (product_hrefs (res_soup lresp)) →
  w_comments w0 = [] →
  rtc (step fetch) (mkConfig w0 [TRun (_parse_category url page path_dir)]) c' →
  c_tasks c' !! 0%nat = Some (TDone None) →
  ∃ ps, Forall2 (λ h p, product_of fetch path_dir h = Some p) (product_hrefs (res_soup lresp)) ps ∧
    (NoDup (ListingSpec.p_file <$> ps) →
     ∀ p, p ∈ ps → ListingSpec.p_reviews p ≠ [] →
       ∃ L, disk (w_files (c_world c')) !! ListingSpec.p_file p = Some (json_dump L) ∧
            L ≡ₚ ListingSpec.p_reviews p).
Proof.
  intros Hl Hok Hb Hs H0.
  destruct (listing_done fetch path_dir url page lresp w0 c' Hl Hok Hs H0) as (ps & H2 & Hcr).
  destruct (ListingSpec.crawl_writes _ _ _ Hcr Hb) as (_ & _ & _ & fs & Hw & Hf).
  exists ps. split; [done|]. intros Hnd p Hp Hne.
  destruct (writes_last_write ps fs Hw Hnd p Hp Hne) as (L & HL & Hperm).
  exists L. split; [|done]. by rewrite disk_lookup, Hf, (last_write_app _ _ _ _ HL).
Qed.
End Listing.

(** * Two products, one file *)

(** The category [/c/tv/] has one listing page, which links [/a], named
    [TV 50/55], and [/b], named [TV 50_55]; each has one review. *)
Definition clash_fetch (rq : request) : result response :=
  if bool_decide (rq_url rq = "https://www.eldorado.ru/c/tv/") then
    if bool_decide (rq_params rq = []) then Ok (mkResponse 200 single_category)
    else Ok (mkResponse 200 duo_listing)
  else if bool_decide (rq_url rq = "https://www.eldorado.ru/a") then
    Ok (mkResponse 200 (sample_product "TV 50/55" "Ann"))
  else Ok (mkResponse 200 (sample_product "TV 50_55" "Bob")).

Definition clash_run : cconfig :=
  run_first clash_fetch 60 (mkConfig sample_world [TRun (_queue_parse_category "/c/tv/")]).

(** C24: [product_name] replaces [/] by [_], so two products of one
    listing page named [TV 50/55] and [TV 50_55] are written to the same
    path: even with one listing page, where the buffer is not shared, the
    crawl of the category returns normally after writing
    [reviews/TV/TV 50_55.json] twice, and the disk holds only the second
    product's review; the first product's review is on no file. *)
Theorem product_name_collision :
  ∃ c', rtc (step clash_fetch) (mkConfig sample_world [TRun (_queue_parse_category "/c/tv/")]) c' ∧
    c_tasks c' !! 0%nat = Some (TDone None) ∧
    w_files (c_world c') =
      [(product_file "reviews/TV" "TV 50_55", [review_of "https://www.eldorado.ru/a" "Ann"]);
       (product_file "reviews/TV" "TV 50_55", [review_of "https://www.eldorado.ru/b" "Bob"])] ∧
    disk (w_files (c_world c')) =
      {[product_file "reviews/TV" "TV 50_55" := json_dump [review_of "https://www.eldorado.ru/b" "Bob"]]}.
Proof.
  exists clash_run. split; [apply run_first_sound|].
  split; [vm_compute; reflexivity|]. split; vm_compute; reflexivity.
Qed.

(** * Witness *)

Lemma listing_disk_files_witness :
  ∃ ps, Forall2 (λ h p, product_of duo_fetch "reviews/TV" h = Some p)
          (product_hrefs (res_soup (mkResponse 200 duo_listing))) ps ∧
    (NoDup (ListingSpec.p_file <$> ps) →
     ∀ p, p ∈ ps → ListingSpec.p_reviews p ≠ [] →
       ∃ L, disk (w_files (c_world duo_run)) !! ListingSpec.p_file p = Some (json_dump L) ∧
            L ≡ₚ ListingSpec.p_reviews p).
Proof.
  apply (listing_disk_files duo_fetch "reviews/TV" "https://www.eldorado.ru/c/tv/" 1
           (mkResponse 200 duo_listing) sample_world duo_run).
  - vm_compute. reflexivity.
  - exact duo_products_ok.
  - reflexivity.
  - apply run_first_sound.
  - vm_compute. reflexivity.
Defined.
