(* ===== verification/Orchestrator.v ===== *)
(** The orchestration of [EldoradoParser]: the constructor ([__init__],
    lines 21-30), which fetches the category index synchronously with
    [requests.get] and collects the category paths into a Python [set]
    ([get_url_categories], lines 32-41), and [run_parse] (lines 118-122),
    which walks [list(self.url_categories)[3:]] and, for each path, logs,
    runs [_queue_parse_category] in a fresh event loop with [asyncio.run],
    and logs again.  [asyncio_run] is the executable loop of [Async]
    stopped as soon as the main task has finished (the tasks still pending
    are cancelled), with fuel [measure], which [asyncio_run_final] shows
    is enough: it always returns the main task's result (a fact of the
    model, whose network always answers).  It picks the first task that
    can run; the theorems that quantify over [step] hold for every order.
    The iteration order of a [set] of strings depends on the process's hash
    seed, so [run_parse] takes the enumeration as an argument and the
    theorems hold for every enumeration of the set: the first three
    enumerated categories are skipped (C10). *)

From S2P Require Import Prelude PyBase Html Regex Extract Async Product Category Conservation.

#[local] Open Scope Z_scope.

(** ** [get_url_categories] and [__init__] (lines 21-41) *)

(** [requests.get(url=self.category_urls, headers=self.headers)], then the
    loop over the links: the status of the answer is not looked at. *)
Definition get_url_categories (get : request → result response) : result (gset string) :=
  response ← get (get_request category_urls []);
  collect_category_urls (res_soup response).

(** [EldoradoParser()]: [self.url_categories = self.get_url_categories()]
    then [self.comments = []]; an exception of the request or of the loop
    leaves the constructor. *)
Definition EldoradoParser (get : request → result response) (w : world)
    : result (gset string * world) :=
  urls ← get_url_categories get;
  mret (urls, mkWorld [] (w_files w) (w_dirs w) (w_log w)).

(** ** [asyncio.run] and [run_parse] (lines 118-122) *)

(** [asyncio.run(coro)]: a fresh loop runs the main task (index 0) until it
    returns or raises; its result and the state are returned. *)
Definition asyncio_run (fetch : request → result response) (w : world) (p : cproc)
    : option (world * option exn) :=
  let c0 : cconfig := mkConfig w [TRun p] in
  let c := run_until_complete fetch (measure fetch c0) c0 in
  match c_tasks c !! 0%nat with
  | Some (TDone r) => Some (c_world c, r)
  | _ => None
  end.

(** The loop of [run_parse] over the category paths it keeps: an
    exception of [asyncio.run] leaves the loop and [run_parse]. *)
Fixpoint run_categories (fetch : request → result response) (urls : list string)
    (w : world) : option (world * option exn) :=
  match urls with
  | [] => Some (w, None)
  | u :: us =>
      '(w1, r) ← asyncio_run fetch (log_msg INFO ("Run parse " +:+ u) w) (_queue_parse_category u);
      match r with
      | Some e => Some (w1, Some e)
      | None => run_categories fetch us (log_msg INFO ("End parse " +:+ u) w1)
      end
  end.

(** [for url_category in list(self.url_categories)[3:]]; [enum] is
    [list(self.url_categories)]. *)
Definition run_parse (fetch : request → result response) (enum : list string) (w : world)
    : option (world * option exn) :=
  run_categories fetch (drop 3 enum) w.

(** Lines 125-126: [parser = EldoradoParser(); parser.run_parse()], where
    [enumerate] is the iteration order of the set in this process. *)
Definition main (get fetch : request → result response) (enumerate : gset string → list string)
    (w : world) : result (option (world * option exn)) :=
  '(urls, w0) ← EldoradoParser get w;
  mret (run_parse fetch (enumerate urls) w0).

(** * [asyncio.run] returns *)

Lemma asyncio_run_final fetch w p :
  ∃ c' r, rtc (step fetch) (mkConfig w [TRun p]) c' ∧ c_tasks c' !! 0%nat = Some (TDone r) ∧
          asyncio_run fetch w p = Some (c_world c', r).
Proof.
  set (c0 := mkConfig w [TRun p] : cconfig).
  destruct (run_until_complete_done fetch (measure fetch c0) c0 (wf_single w p)
              ltac:(by eexists) (le_n _)) as [r Hr].
  exists (run_until_complete fetch (measure fetch c0) c0), r.
  split; [apply run_until_complete_sound|]. split; [done|].
  unfold asyncio_run. fold c0. by rewrite Hr.
Qed.

(** When the first step of the main task finishes it, [asyncio.run]
    returns its result. *)
Lemma asyncio_run_one_step fetch w p w' r :
  step_task fetch (mkConfig w [TRun p]) 0 = Some (mkConfig w' [TDone r]) →
  asyncio_run fetch w p = Some (w', r).
Proof.
  intros H. unfold asyncio_run.
  assert (Hm : ∃ f, measure fetch (mkConfig w [TRun p]) = S f) by (eexists; reflexivity).
  destruct Hm as [f ->]. cbn [run_until_complete]. unfold first_enabled. cbn -[step_task].
  rewrite H. simpl. by rewrite run_until_complete_stop with (r := r).
Qed.

(** * What [run_parse] crawls *)

(** C9: when the directory [reviews/<name>] of a category that [run_parse]
    reaches already exists, [os.makedirs] raises [FileExistsError],
    [asyncio.run] raises it and [run_parse] ends with it: the state is the
    one before the category with its [Run parse] record, whatever the
    categories after it, which are never crawled. *)
Theorem run_parse_dir_exists_aborts fetch enum w u us resp n name :
  drop 3 enum = u :: us →
  fetch (get_request (category_url u) []) = Ok resp →
  res_status resp = 200 → category_count (res_soup resp) = Ok n →
  category_name (res_soup resp) = Ok name → category_dir name ∈ w_dirs w →
  run_parse fetch enum w = Some (log_msg INFO ("Run parse " +:+ u) w, Some FileExistsError).
Proof.
  intros Hd Hb H200 Hc Hn Hdir. unfold run_parse. rewrite Hd. cbn [run_categories].
  by rewrite (asyncio_run_one_step _ _ _ _ _
                (category_dir_exists_raises fetch (log_msg INFO ("Run parse " +:+ u) w)
                   u resp n name Hb H200 Hc Hn Hdir)).
Qed.

(** [asyncio.run] of a category only adds to the log. *)
Lemma asyncio_run_category_log fetch w u :
  ∃ w' r, asyncio_run fetch w (_queue_parse_category u) = Some (w', r) ∧ w_log w `prefix_of` w_log w'.
Proof.
  destruct (asyncio_run_final fetch w (_queue_parse_category u)) as (c' & r & Hs & _ & ->).
  destruct (category_steps_kept fetch w u c' Hs) as [(_ & _ & Hlog & _) _]. eauto.
Qed.

Lemma run_categories_log fetch us w :
  ∃ w' r, run_categories fetch us w = Some (w', r) ∧ w_log w `prefix_of` w_log w'.
Proof.
  revert w; induction us as [|u us IH]; intros w; simpl; [by exists w, None|].
  destruct (asyncio_run_category_log fetch (log_msg INFO ("Run parse " +:+ u) w) u)
    as (w1 & r & -> & H1). simpl. unfold log_msg in H1; simpl in H1.
  destruct r as [e|]; [exists w1, (Some e); split; [done|]; by eapply prefix_app_l|].
  destruct (IH (log_msg INFO ("End parse " +:+ u) w1)) as (w2 & r2 & -> & H2).
  exists w2, r2. split; [done|]. unfold log_msg in H2; simpl in H2.
  etrans; [|exact H2]. etrans; [|by apply prefix_app_r]. by eapply prefix_app_l.
Qed.

(** C10: [run_parse] walks [list(self.url_categories)[3:]]: with at most
    three categories it crawls nothing and logs nothing; with more, the
    first three of the enumeration are skipped and the first logger call
    is [Run parse] of the fourth. *)
Theorem run_parse_skips_three fetch enum w :
  ((length enum ≤ 3)%nat → run_parse fetch enum w = Some (w, None)) ∧
  (∀ a b c u us, enum = a :: b :: c :: u :: us →
     ∃ w' r, run_parse fetch enum w = Some (w', r) ∧
       (w_log w ++ [(INFO, "Run parse " +:+ u)]) `prefix_of` w_log w').
Proof.
  split.
  - intros Hl. unfold run_parse. by rewrite drop_ge.
  - intros a b c u us ->. unfold run_parse. cbn [drop run_categories].
    destruct (asyncio_run_category_log fetch (log_msg INFO ("Run parse " +:+ u) w) u)
      as (w1 & r & -> & H1). simpl.
    destruct r as [e|]; [by exists w1, (Some e)|].
    destruct (run_categories_log fetch us (log_msg INFO ("End parse " +:+ u) w1)) as (w2 & r2 & -> & H2).
    exists w2, r2. split; [done|]. etrans; [exact H1|]. etrans; [|exact H2].
    unfold log_msg; simpl. by eapply prefix_app_r.
Qed.

(** * Witnesses *)

Lemma run_parse_dir_exists_aborts_witness :
  run_parse mix_fetch ["/c/a/"; "/c/b/"; "/c/c/"; "/c/tv/"; "/c/pc/"] (mkWorld [] [] {["reviews/TV"]} []) =
    Some (log_msg INFO ("Run parse " +:+ "/c/tv/") (mkWorld [] [] {["reviews/TV"]} []),
          Some FileExistsError).
Proof.
  apply (run_parse_dir_exists_aborts mix_fetch _ _ "/c/tv/" ["/c/pc/"]
           (mkResponse 200 sample_category) 2 "TV"); try reflexivity; set_solver.
Defined.
