(* ===== verification/Logging.v ===== *)
(** The logging set-up of the module (lines 10-17) and what reaches its
    handlers.  [logging.basicConfig] installs the handlers [Log.log] and the
    console, the format and the date format, and no level: the root logger
    keeps Python's default level [WARNING], and the parser's logger
    ([logging.getLogger(__name__)], line 22) has no level of its own, so a
    record reaches the handlers only when its level is at least [WARNING].
    The state of the crawl keeps every call of the logger ([w_log]);
    [emitted] is what the handlers receive.  The theorem shows that a run
    of [run_parse] over categories whose page does not answer with status
    200 makes the [Run parse] / [End parse] calls of [run_parse], yet only
    the [Error parse] warnings reach [Log.log] and the console. *)

From S2P Require Import Prelude PyBase Html Extract Async Product Category Orchestrator.

#[local] Open Scope Z_scope.

(** ** The configuration (lines 10-17) *)

Inductive handler := FileHandler (path : string) | StreamHandler.

Record log_config := mkLogConfig {
  lc_handlers : list handler;
  lc_format : string;
  lc_datefmt : string;
  lc_level : Z
}.

(** The numeric levels of Python's [logging]. *)
Definition level_no (l : level) : Z :=
  match l with INFO => 20 | WARNING => 30 end.

(** [logging.basicConfig(handlers=(file_log, console_out), format=...,
    datefmt=...)]: no [level] argument, so the root logger's level stays
    [WARNING]. *)
Definition basic_config : log_config :=
  mkLogConfig [FileHandler "Log.log"; StreamHandler]
    "[%(asctime)s] [%(levelname)s]: %(message)s" "%m.%d.%Y %H:%M:%S" 30.

(** A record is handled when its level reaches the effective level of the
    logger, the root's. *)
Definition is_enabled (cfg : log_config) (l : level) : bool :=
  bool_decide (lc_level cfg ≤ level_no l).

(** The records every handler of [cfg] receives, in order. *)
Definition emitted (cfg : log_config) (log : list (level * string)) : list (level * string) :=
  filter (λ r, is_enabled cfg r.1) log.

(** ** [run_parse] over categories that do not answer *)

(** The three logger calls of a category whose page does not answer with
    status 200. *)
Definition skipped_calls (u : string) : list (level * string) :=
  [(INFO, "Run parse " +:+ u); (WARNING, "Error parse " +:+ category_url u);
   (INFO, "End parse " +:+ u)].

Definition not_200 (fetch : request → result response) (u : string) : Prop :=
  ∃ resp, fetch (get_request (category_url u) []) = Ok resp ∧ res_status resp ≠ 200.

Lemma asyncio_run_not_200 fetch w u :
  not_200 fetch u →
  asyncio_run fetch w (_queue_parse_category u) =
    Some (log_msg WARNING ("Error parse " +:+ category_url u) w, None).
Proof.
  intros (resp & Hb & Hs). apply asyncio_run_one_step.
  unfold step_task. simpl. unfold resume, _queue_parse_category. rewrite Hb.
  by rewrite bool_decide_eq_false_2.
Qed.

Lemma run_categories_not_200 fetch us w :
  Forall (not_200 fetch) us →
  run_categories fetch us w =
    Some (mkWorld (w_comments w) (w_files w) (w_dirs w) (w_log w ++ concat (skipped_calls <$> us)),
          None).
Proof.
  revert w; induction us as [|u us IH]; intros w Hall; simpl.
  { by rewrite app_nil_r; destruct w. }
  apply Forall_cons in Hall as [Hu Hall].
  rewrite asyncio_run_not_200 by done. simpl. rewrite IH by done. simpl.
  by rewrite <- !app_assoc.
Qed.

Lemma emitted_skipped u :
  emitted basic_config (skipped_calls u) = [(WARNING, "Error parse " +:+ category_url u)].
Proof. reflexivity. Qed.

Lemma emitted_app cfg l1 l2 : emitted cfg (l1 ++ l2) = emitted cfg l1 ++ emitted cfg l2.
Proof. apply filter_app. Qed.

(** C11: the [Run parse] and [End parse] records of [run_parse] never
    reach [Log.log] or the console: over categories whose page does not
    answer with status 200, [run_parse] returns normally, the logger is
    called three times per category kept, and the handlers receive only
    the [Error parse] warning of each category, in order. *)
Theorem run_parse_log_handlers fetch enum w :
  Forall (not_200 fetch) (drop 3 enum) →
  ∃ w', run_parse fetch enum w = Some (w', None) ∧
    w_log w' = w_log w ++ concat (skipped_calls <$> drop 3 enum) ∧
    emitted basic_config (w_log w') =
      emitted basic_config (w_log w) ++
      ((λ u, (WARNING, "Error parse " +:+ category_url u)) <$> drop 3 enum).
Proof.
  intros Hall. unfold run_parse. rewrite run_categories_not_200 by done.
  eexists. split; [done|]. split; [done|]. cbn [w_log]. rewrite emitted_app. f_equal.
  clear Hall. induction (drop 3 enum) as [|u us IH]; [done|].
  rewrite fmap_cons, concat_cons, emitted_app, IH, emitted_skipped. done.
Qed.

(** * Witness *)

Definition down_fetch (rq : request) : result response := Ok (mkResponse 503 []).

Lemma run_parse_log_handlers_witness :
  ∃ w', run_parse down_fetch ["/c/a/"; "/c/b/"; "/c/c/"; "/c/tv/"] sample_world = Some (w', None) ∧
    w_log w' = w_log sample_world ++ concat (skipped_calls <$> drop 3 ["/c/a/"; "/c/b/"; "/c/c/"; "/c/tv/"]) ∧
    emitted basic_config (w_log w') =
      emitted basic_config (w_log sample_world) ++
      ((λ u, (WARNING, "Error parse " +:+ category_url u)) <$> drop 3 ["/c/a/"; "/c/b/"; "/c/c/"; "/c/tv/"]).
Proof.
  apply run_parse_log_handlers. repeat constructor. by exists (mkResponse 503 []).
Defined.
