(* ===== verification/Failure.v ===== *)
(** Failures of a product page.  The code catches no exception of
    [session.get] (lines 70, 92, 103), of the extraction of a product's name
    (line 77) or of [asyncio.gather] (lines 82, 114): a transport failure
    ([ClientError]) of one product page raises out of
    [_queue_parse_comments], out of the listing task that awaits it, out of
    the category's [gather], out of [asyncio.run] and out of [run_parse].
    [Async.must_raise] describes a coroutine that raises along every
    answer of the network; such a task never returns normally in any
    schedule ([Async.raises_rtc]), so the category task, which returns
    normally only once all its tasks have, raises in every schedule.  The
    theorem: a category one of whose listing pages links a product whose
    page cannot be fetched ends [run_parse] with an exception, after its
    [Run parse] record and before any later category. *)

From S2P Require Import Prelude PyBase Html Extract Async Product Category Conservation Orchestrator.

#[local] Open Scope Z_scope.

(** What the tasks of a category add to the log: warnings only. *)
Definition warned (w w' : world) : Prop :=
  ∃ l, w_log w' = w_log w ++ l ∧ Forall (λ r, r.1 = WARNING) l.

#[export] Instance warned_preorder : PreOrder warned.
Proof.
  split.
  - intros w. exists []. by rewrite app_nil_r.
  - intros w1 w2 w3 (l1 & H1 & F1) (l2 & H2 & F2). exists (l1 ++ l2).
    rewrite H2, H1, app_assoc. split; [done|]. by apply Forall_app.
Qed.

Lemma log_unchanged_warned w w' : w_log w' = w_log w → warned w w'.
Proof. intros H. exists []. by rewrite H, app_nil_r. Qed.

Lemma makedirs_warned path w w' : makedirs path w = Ok w' → warned w w'.
Proof. unfold makedirs. case_decide; [done|]. intros [= <-]. by apply log_unchanged_warned. Qed.

Lemma dump_comments_warned path w : warned w (dump_comments path w).
Proof. apply log_unchanged_warned. unfold dump_comments. by destruct (w_comments w). Qed.

Lemma warning_warned msg w : warned w (log_msg WARNING msg w).
Proof. exists [(WARNING, msg)]. split; [done|by repeat constructor]. Qed.

Section Failure.
Context (fetch : request → result response).

Lemma queue_parse_comments_raises href path_dir e :
  fetch (get_request (product_url href) review_params) = Err e →
  must_raise fetch (_queue_parse_comments href path_dir).
Proof. intros He. apply mr_get. intros r Hr. congruence. Qed.

(** A listing task awaits its products one after the other: one that
    raises makes the task raise. *)
Lemma crawl_products_raises hs path_dir h e :
  h ∈ hs → fetch (get_request (product_url h) review_params) = Err e →
  must_raise fetch (crawl_products hs path_dir).
Proof.
  intros Hh He. induction hs as [|h' hs IH]; [by apply not_elem_of_nil in Hh|].
  apply mr_sleep. apply elem_of_cons in Hh as [->|Hh].
  - by apply must_raise_pseq_l, (queue_parse_comments_raises _ _ e).
  - by apply must_raise_pseq_r, IH.
Qed.

Lemma parse_category_raises url page path_dir lresp h e :
  fetch (get_request url (listing_params page)) = Ok lresp →
  h ∈ product_hrefs (res_soup lresp) →
  fetch (get_request (product_url h) review_params) = Err e →
  must_raise fetch (_parse_category url page path_dir).
Proof.
  intros Hl Hh He. apply mr_sleep, mr_get. intros r Hr. rewrite Hl in Hr. injection Hr as <-.
  by apply (crawl_products_raises _ _ h e).
Qed.

Lemma listing_tasks_lookup url n path_dir j :
  (j < Z.to_nat n)%nat →
  listing_tasks url n path_dir !! j = Some (_parse_category url (Z.of_nat j + 1) path_dir).
Proof. intros Hj. unfold listing_tasks, py_range. by rewrite !list_lookup_fmap, lookup_seq_lt. Qed.

(** The category task raises in every schedule in which it finishes. *)
Lemma category_product_error w u resp n name j lresp h e c' r :
  fetch (get_request (category_url u) []) = Ok resp → res_status resp = 200 →
  category_count (res_soup resp) = Ok n → category_name (res_soup resp) = Ok name →
  category_dir name ∉ w_dirs w → (j < Z.to_nat n)%nat →
  fetch (get_request (category_url u) (listing_params (Z.of_nat j + 1))) = Ok lresp →
  h ∈ product_hrefs (res_soup lresp) →
  fetch (get_request (product_url h) review_params) = Err e →
  rtc (step fetch) (mkConfig w [TRun (_queue_parse_category u)]) c' →
  c_tasks c' !! 0%nat = Some (TDone r) → r ≠ None.
Proof.
  intros Hb H200 Hc Hn Hnew Hj Hl Hh He Hs H0 ->.
  destruct (makedirs (category_dir name) w) as [w1|e'] eqn:Hm;
    [|unfold makedirs in Hm; rewrite decide_False in Hm by done; discriminate].
  pose proof (returned_main_all_done fetch _ _ _ Hs H0) as Hall.
  destruct (listing_tasks (category_url u) n (category_dir name)) as [|x xs] eqn:Hcs.
  { apply (f_equal length) in Hcs. unfold listing_tasks, py_range in Hcs.
    rewrite !length_fmap, length_seq in Hcs. simpl in Hcs. lia. }
  destruct (rtc_frame_run fetch [TDone None] 0 ltac:(simpl; lia) (frame_ok_single _) w
              (_queue_parse_category u) w1 (PGather (x :: xs) PRet) c'
              ltac:(rewrite (resume_queue_parse_category fetch w u resp n name Hb H200 Hc Hn), Hcs;
                    simpl; by rewrite Hm) Hs) as [->|Hs1]; [discriminate H0|].
  assert (Hk : raises_at fetch (mkConfig w1 (park 0 (PGather (x :: xs) PRet) [TDone None])) (S j)).
  { eexists. split.
    - simpl. change (TRun x :: _) with (TRun <$> (x :: xs)). rewrite list_lookup_fmap, <- Hcs.
      by rewrite listing_tasks_lookup.
    - apply (parse_category_raises _ _ _ lresp h e); [done|done|done]. }
  destruct (raises_rtc fetch _ _ _ Hk Hs1) as (t & Ht & Hr).
  by rewrite (Hall _ _ Ht) in Hr.
Qed.

(** C26: a transport failure of one product page ends the run: when the
    first category [run_parse] reaches has a listing page linking a
    product whose page fetch raises, [run_parse] ends with an exception,
    whatever the schedule of the category's tasks, and its log after the
    [Run parse] record of that category holds only warnings: no
    [End parse], and no category after it is crawled.  The specification
    (section 7) asks for the product to be skipped and its siblings to go
    on. *)
Theorem run_parse_product_error enum w u us resp n name j lresp h e :
  drop 3 enum = u :: us →
  fetch (get_request (category_url u) []) = Ok resp → res_status resp = 200 →
  category_count (res_soup resp) = Ok n → category_name (res_soup resp) = Ok name →
  category_dir name ∉ w_dirs w → (j < Z.to_nat n)%nat →
  fetch (get_request (category_url u) (listing_params (Z.of_nat j + 1))) = Ok lresp →
  h ∈ product_hrefs (res_soup lresp) →
  fetch (get_request (product_url h) review_params) = Err e →
  ∃ w' e' l, run_parse fetch enum w = Some (w', Some e') ∧
    w_log w' = w_log w ++ (INFO, "Run parse " +:+ u) :: l ∧ Forall (λ r, r.1 = WARNING) l.
Proof.
  intros Hd Hb H200 Hc Hn Hnew Hj Hl Hh He. unfold run_parse. rewrite Hd. cbn [run_categories].
  set (w1 := log_msg INFO ("Run parse " +:+ u) w).
  destruct (asyncio_run_final fetch w1 (_queue_parse_category u)) as (c' & r & Hs & H0 & ->).
  destruct r as [e'|];
    [|by destruct (category_product_error w1 u resp n name j lresp h e c' None Hb H200 Hc Hn Hnew
                     Hj Hl Hh He Hs H0)].
  destruct (category_steps_acts warned (λ L w, log_unchanged_warned _ _ eq_refl) dump_comments_warned
              warning_warned makedirs_warned fetch w1 u c' Hs) as [(l & Hlog & Hw) _].
  exists (c_world c'), e', l. split; [done|]. split; [|done].
  rewrite Hlog. simpl. by rewrite <- app_assoc.
Qed.
End Failure.

(** * Witness *)

(** The category [/c/tv/] of [Category.mix_fetch], whose product [/b]
    cannot be fetched. *)
Definition fail_fetch (rq : request) : result response :=
  if bool_decide (rq_url rq = "https://www.eldorado.ru/b") then Err ClientError else mix_fetch rq.

Lemma run_parse_product_error_witness :
  ∃ w' e' l, run_parse fail_fetch ["/c/a/"; "/c/b/"; "/c/c/"; "/c/tv/"; "/c/pc/"] sample_world =
               Some (w', Some e') ∧
    w_log w' = w_log sample_world ++ (INFO, "Run parse " +:+ "/c/tv/") :: l ∧
    Forall (λ r, r.1 = WARNING) l.
Proof.
  apply (run_parse_product_error fail_fetch _ sample_world "/c/tv/" ["/c/pc/"]
           (mkResponse 200 sample_category) 2 "TV" 1 (mkResponse 200 (sample_listing "b"))
           (Some "b") ClientError).
  1-5, 8, 10: vm_compute; reflexivity.
  - set_solver.
  - lia.
  - by left.
Defined.

(** The run ends with [ClientError]; nothing was written. *)
Example run_parse_product_error_run :
  (λ r, (w_files r.1, w_log r.1, r.2)) <$>
    run_parse fail_fetch ["/c/a/"; "/c/b/"; "/c/c/"; "/c/tv/"; "/c/pc/"] sample_world =
  Some ([], [(INFO, "Run parse /c/tv/")], Some ClientError).
Proof. vm_compute. reflexivity. Qed.
